(** * The MAKER decomposition and consensus engine, embedded in Rocq

    A shallow embedding of the two Python classes
    [QualityAgent] (packages/agent-company/src/quality_agent.py) and
    [MAKEROrchestrator] (packages/maker-orchestration/src/maker_orchestrator.py),
    of [CEOAgent.verify_with_quality_agent]
    (packages/agent-company/src/ceo_agent.py), which calls [verify],
    together with the pieces of the Python runtime they call
    ([json.dumps], [hashlib.sha256], [str], [min], [max], [sum], [range]).

    Conventions of the embedding:
    - a Python [int] is a [Z]; [//] is [Z.div] (both floor), guarded by
      [ZeroDivisionError];
    - a Python [float] is a binary64 [float] of the kernel, so [/], [+],
      [<], [>=] are the IEEE operations the interpreter performs;
    - a Python [str] is a [string] whose characters are the code points
      0..255;
    - an exception is a value [Raise e] of the result type [res];
    - an insertion-ordered [dict] whose order matters is an association
      list; the reputation table, whose order is never observed, is a [gmap];
    - [async]/[await] are sequential composition ([asyncio.gather] returns
      its results in argument order), and [asyncio.sleep] and logging are
      dropped.  The wall-clock ["timestamp"] field of a verification is not
      represented; the time [execute_task] reads and the text [str(e)] of
      an exception are parameters of the functions that use them. *)

From Stdlib Require Import ZArith List String Ascii Bool Lia Floats.
From Stdlib Require Import Permutation DecimalString DecimalZ DecimalPos.
From Stdlib Require OrderedTypeEx.
From stdpp Require Import base option gmap strings.
Import ListNotations.

Set Warnings "-inexact-float,-register-all".
Local Open Scope string_scope.
Local Open Scope list_scope.
Local Open Scope Z_scope.

(** ** The Python runtime *)

Module Py.

Inductive exn : Type :=
| ValueError
| TypeError
| ZeroDivisionError.

Inductive res (A : Type) : Type :=
| Ok (a : A)
| Raise (e : exn).
Arguments Ok {A} a.
Arguments Raise {A} e.

Definition bind {A B : Type} (m : res A) (k : A -> res B) : res B :=
  match m with
  | Ok a => k a
  | Raise e => Raise e
  end.

Notation "'let*' x ':=' m 'in' k" := (bind m (fun x => k))
  (at level 10, x name, m at level 100, k at level 200).

(** [for x in xs: out.append(body(x))], stopping at the first exception. *)
Fixpoint for_each {A B : Type} (xs : list A) (body : A -> res B) : res (list B) :=
  match xs with
  | [] => Ok []
  | x :: xs' =>
      let* y := body x in
      let* ys := for_each xs' body in
      Ok (y :: ys)
  end.

(** [a // b] on ints. *)
Definition floordiv (a b : Z) : res Z :=
  if b =? 0 then Raise ZeroDivisionError else Ok (a / b).

(** [float(n)] for an int of magnitude below [2^63]. *)
Definition float_of_Z (n : Z) : float :=
  if n <? 0 then (- PrimFloat.of_uint63 (Uint63.of_Z (- n)))%float
  else PrimFloat.of_uint63 (Uint63.of_Z n).

(** [a / b] on ints (true division), for operands below [2^53] where
    [float(a) / float(b)] is the correctly rounded quotient Python returns. *)
Definition truediv (a b : Z) : res float :=
  if b =? 0 then Raise ZeroDivisionError
  else Ok (float_of_Z a / float_of_Z b)%float.

(** [a / b] on floats: dividing by a zero of either sign raises. *)
Definition fdiv (a b : float) : res float :=
  if (b =? 0)%float then Raise ZeroDivisionError else Ok (a / b)%float.

(** [range(n)]: empty when [n <= 0]. *)
Definition range (n : Z) : list Z := map Z.of_nat (seq 0 (Z.to_nat n)).

(** [str(n)] on ints. *)
Definition str (n : Z) : string := NilZero.string_of_int (Z.to_int n).

(** [len(xs)]. *)
Definition len {A : Type} (xs : list A) : Z := Z.of_nat (length xs).

(** [min(a, b)] on floats: the first argument unless the second is
    strictly smaller. *)
Definition min (a b : float) : float := if (b <? a)%float then b else a.

(** [sum(xs)] on floats: a left fold from the int [0]. *)
Definition sum (xs : list float) : float :=
  fold_left (fun acc x => (acc + x)%float) xs 0%float.

(** [max(xs, key=key)]: the first element whose key is maximal;
    [ValueError] on an empty sequence. *)
Fixpoint max_from {A : Type} (key : A -> Z) (best : A) (xs : list A) : A :=
  match xs with
  | [] => best
  | x :: xs' => max_from key (if key best <? key x then x else best) xs'
  end.

Definition max_by {A : Type} (key : A -> Z) (xs : list A) : res A :=
  match xs with
  | [] => Raise ValueError
  | x :: xs' => Ok (max_from key x xs')
  end.

(** [s[:n]]. *)
Fixpoint prefix (n : nat) (s : string) : string :=
  match n, s with
  | O, _ => EmptyString
  | S _, EmptyString => EmptyString
  | S n', String c s' => String c (prefix n' s')
  end.

End Py.

Import Py.

(** ** [hashlib.sha256]

    FIPS 180-4 on 32-bit words held in [Z]; every addition is reduced
    modulo [2^32]. *)

Module SHA256.

Definition mask32 : Z := 0xFFFFFFFF.
Definition add32 (a b : Z) : Z := Z.land (a + b) mask32.
Definition rotr (n x : Z) : Z :=
  Z.lor (Z.shiftr x n) (Z.land (Z.shiftl x (32 - n)) mask32).
Definition not32 (x : Z) : Z := Z.lxor x mask32.

Definition Ch (x y z : Z) : Z := Z.lxor (Z.land x y) (Z.land (not32 x) z).
Definition Maj (x y z : Z) : Z :=
  Z.lxor (Z.lxor (Z.land x y) (Z.land x z)) (Z.land y z).
Definition Sigma0 (x : Z) : Z := Z.lxor (Z.lxor (rotr 2 x) (rotr 13 x)) (rotr 22 x).
Definition Sigma1 (x : Z) : Z := Z.lxor (Z.lxor (rotr 6 x) (rotr 11 x)) (rotr 25 x).
Definition sigma0 (x : Z) : Z := Z.lxor (Z.lxor (rotr 7 x) (rotr 18 x)) (Z.shiftr x 3).
Definition sigma1 (x : Z) : Z := Z.lxor (Z.lxor (rotr 17 x) (rotr 19 x)) (Z.shiftr x 10).

(** The constants are defined as the standard defines them: the first 32
    bits of the fractional parts of the cube roots (round constants) and
    of the square roots (initial state) of the first primes. *)
Definition is_prime (n : Z) : bool :=
  (1 <? n) && forallb (fun d => negb (n mod d =? 0)) (map (Z.add 2) (range (n - 2))).

Definition primes : list Z := List.filter is_prime (range 312).

(** The largest [r] below [2^bits] with [r^3 <= n]. *)
Fixpoint cube_root (bits : nat) (n r : Z) : Z :=
  match bits with
  | O => r
  | S bits' =>
      let r' := r + 2 ^ Z.of_nat bits' in
      cube_root bits' n (if r' * r' * r' <=? n then r' else r)
  end.

Definition frac_cube_root (p : Z) : Z :=
  Z.land (cube_root 36 (p * 2 ^ 96) 0) mask32.

Definition frac_square_root (p : Z) : Z :=
  Z.land (Z.sqrt (p * 2 ^ 64)) mask32.

Definition K : list Z := map frac_cube_root primes.

(** Padding: a [0x80] byte, zeros up to 56 modulo 64, then the bit length
    as eight big-endian bytes. *)
Definition be_bytes (width : nat) (x : Z) : list Z :=
  map (fun i => Z.land (Z.shiftr x (8 * Z.of_nat (width - 1 - i))) 0xFF)
      (seq 0 width).

Definition pad (msg : list Z) : list Z :=
  let l := Z.of_nat (length msg) in
  let zeros := Z.to_nat ((55 - l) mod 64) in
  msg ++ [0x80] ++ repeat 0 zeros ++ be_bytes 8 (8 * l).

Fixpoint words_of_bytes (fuel : nat) (bs : list Z) : list Z :=
  match fuel, bs with
  | S fuel', b0 :: b1 :: b2 :: b3 :: rest =>
      Z.lor (Z.shiftl b0 24) (Z.lor (Z.shiftl b1 16) (Z.lor (Z.shiftl b2 8) b3))
        :: words_of_bytes fuel' rest
  | _, _ => []
  end.

Fixpoint blocks_of_words (fuel : nat) (ws : list Z) : list (list Z) :=
  match fuel, ws with
  | S fuel', _ :: _ => firstn 16 ws :: blocks_of_words fuel' (skipn 16 ws)
  | _, _ => []
  end.

(** The message schedule, kept newest-first: [w_{t-1}] is at index 0. *)
Definition schedule_step (rev_w : list Z) : list Z :=
  let w n := nth n rev_w 0 in
  add32 (add32 (sigma1 (w 1%nat)) (w 6%nat)) (add32 (sigma0 (w 14%nat)) (w 15%nat))
    :: rev_w.

Definition schedule (block : list Z) : list Z :=
  rev (Nat.iter 48 schedule_step (rev block)).

Record state : Type := State
  { sa : Z; sb : Z; sc : Z; sd : Z; se : Z; sf : Z; sg : Z; sh : Z }.

Definition round (s : state) (kw : Z * Z) : state :=
  let t1 := add32 (add32 (add32 (sh s) (Sigma1 (se s))) (Ch (se s) (sf s) (sg s)))
                  (add32 (fst kw) (snd kw)) in
  let t2 := add32 (Sigma0 (sa s)) (Maj (sa s) (sb s) (sc s)) in
  State (add32 t1 t2) (sa s) (sb s) (sc s) (add32 (sd s) t1) (se s) (sf s) (sg s).

Definition compress (s : state) (block : list Z) : state :=
  let s' := fold_left round (combine K (schedule block)) s in
  State (add32 (sa s) (sa s')) (add32 (sb s) (sb s')) (add32 (sc s) (sc s'))
        (add32 (sd s) (sd s')) (add32 (se s) (se s')) (add32 (sf s) (sf s'))
        (add32 (sg s) (sg s')) (add32 (sh s) (sh s')).

Definition init : state :=
  let h i := frac_square_root (nth i primes 0) in
  State (h 0%nat) (h 1%nat) (h 2%nat) (h 3%nat) (h 4%nat) (h 5%nat) (h 6%nat) (h 7%nat).

Definition digest (msg : list Z) : list Z :=
  let bs := pad msg in
  let ws := words_of_bytes (length bs) bs in
  let s := fold_left compress (blocks_of_words (length ws) ws) init in
  flat_map (be_bytes 4) [sa s; sb s; sc s; sd s; se s; sf s; sg s; sh s].

Definition hex_digit (n : Z) : ascii :=
  nth (Z.to_nat n)
      ["0"; "1"; "2"; "3"; "4"; "5"; "6"; "7";
       "8"; "9"; "a"; "b"; "c"; "d"; "e"; "f"]%char "0"%char.

Definition hex_of_bytes (bs : list Z) : string :=
  fold_right (fun b acc =>
                String (hex_digit (Z.shiftr b 4)) (String (hex_digit (Z.land b 0xF)) acc))
             EmptyString bs.

(** [hashlib.sha256(data).hexdigest()]. *)
Definition hexdigest (data : list Z) : string := hex_of_bytes (digest data).

End SHA256.

(** [s.encode()]: UTF-8 of a string of code points below 256. *)
Definition utf8_encode (s : string) : list Z :=
  flat_map (fun c : ascii =>
              let n := Z.of_nat (nat_of_ascii c) in
              if n <? 0x80 then [n]
              else [Z.lor 0xC0 (Z.shiftr n 6); Z.lor 0x80 (Z.land n 0x3F)])
           (list_ascii_of_string s).


(** ** Python values, [json.dumps(..., sort_keys=True)] and [str] *)

Module Json.

(** Dictionary keys the JSON encoder accepts (floats apart). *)
Inductive key : Type :=
| KStr (s : string)
| KInt (n : Z)
| KBool (b : bool)
| KNone.

(** The values a result is built from.  [VObject r] is an instance of a
    class the encoder has no rule for (a set, a custom object) whose
    [repr] is [r].  A value is a finite tree: floats, and a list or a
    dict that contains itself (on which the encoder raises [ValueError],
    "Circular reference detected"), are not among these values. *)
Inductive value : Type :=
| VNone
| VBool (b : bool)
| VInt (n : Z)
| VStr (s : string)
| VList (xs : list value)
| VTuple (xs : list value)
| VDict (items : list (key * value))
| VObject (r : string).

Definition dquote : ascii := "034"%char.
Definition squote : ascii := "039"%char.
Definition backslash : ascii := "092"%char.

Definition code (c : ascii) : Z := Z.of_nat (nat_of_ascii c).

Definition hex2 (n : Z) : string :=
  String (SHA256.hex_digit (Z.shiftr n 4))
         (String (SHA256.hex_digit (Z.land n 0xF)) EmptyString).

(** [json.encoder.py_encode_basestring_ascii]: everything outside
    [' '..'~'], the quote and the backslash are escaped. *)
Definition escape_ascii (c : ascii) : string :=
  let n := code c in
  if n =? 34 then String backslash (String dquote EmptyString)
  else if n =? 92 then String backslash (String backslash EmptyString)
  else if n =? 10 then String backslash "n"
  else if n =? 13 then String backslash "r"
  else if n =? 9 then String backslash "t"
  else if n =? 12 then String backslash "f"
  else if n =? 8 then String backslash "b"
  else if (n <? 32) || (126 <? n) then String backslash "u00" +:+ hex2 n
  else String c EmptyString.

Definition encode_basestring_ascii (s : string) : string :=
  String dquote
    (fold_right (fun c acc => escape_ascii c +:+ acc)
                (String dquote EmptyString) (list_ascii_of_string s)).

(** [", ".join(parts)]. *)
Fixpoint join (sep : string) (parts : list string) : string :=
  match parts with
  | [] => EmptyString
  | [p] => p
  | p :: rest => p +:+ sep +:+ join sep rest
  end.

(** Bools are ints for comparison: [True == 1], [False == 0]. *)
Definition key_num (k : key) : option Z :=
  match k with
  | KInt n => Some n
  | KBool b => Some (if b then 1 else 0)
  | _ => None
  end.

(** [k1 < k2] as [sorted] evaluates it on two distinct keys: strings by
    code point, numbers by value, anything else is a [TypeError]. *)
Definition key_lt (k1 k2 : key) : res bool :=
  match k1, k2 with
  | KStr s1, KStr s2 => Ok (String.ltb s1 s2)
  | _, _ =>
      match key_num k1, key_num k2 with
      | Some n1, Some n2 => Ok (n1 <? n2)
      | _, _ => Raise TypeError
      end
  end.

(** [sorted(dct.items())]: the items in increasing key order.  Keys of a
    dict are pairwise distinct, so the order is decided on the keys; the
    sort is an insertion sort, which performs a comparison as soon as
    there are two items. *)
Fixpoint insert_item {V : Type} (kv : key * V) (sorted : list (key * V))
  : res (list (key * V)) :=
  match sorted with
  | [] => Ok [kv]
  | kv' :: rest =>
      let* lt := key_lt (fst kv) (fst kv') in
      if lt : bool then Ok (kv :: sorted)
      else let* rest' := insert_item kv rest in Ok (kv' :: rest')
  end.

Fixpoint sort_items {V : Type} (items : list (key * V)) : res (list (key * V)) :=
  match items with
  | [] => Ok []
  | kv :: rest => let* sorted := sort_items rest in insert_item kv sorted
  end.

(** The text of a key in the output: strings as they are, the others
    coerced. *)
Definition key_text (k : key) : string :=
  match k with
  | KStr s => s
  | KInt n => str n
  | KBool true => "true"
  | KBool false => "false"
  | KNone => "null"
  end.

(** One [key: value] chunk of an object, once the value is encoded. *)
Definition member (kp : key * res string) : res string :=
  let* p := snd kp in
  Ok (encode_basestring_ascii (key_text (fst kp)) +:+ ": " +:+ p).

(** [json.dumps(v, sort_keys=True)] with the default separators
    [", "] and [": "] and [ensure_ascii=True].  The items of a dict are
    sorted first and their values encoded in sorted order; the encoding of
    each value is attached to its key before the sort and forced after
    it. *)
Fixpoint dumps (v : value) : res string :=
  match v with
  | VNone => Ok "null"
  | VBool true => Ok "true"
  | VBool false => Ok "false"
  | VInt n => Ok (str n)
  | VStr s => Ok (encode_basestring_ascii s)
  | VList xs | VTuple xs =>
      let* parts := for_each (map dumps xs) (fun p => p) in
      Ok ("[" +:+ join ", " parts +:+ "]")
  | VDict items =>
      let* sorted := sort_items (map (fun kv => (fst kv, dumps (snd kv))) items) in
      let* parts := for_each sorted member in
      Ok ("{" +:+ join ", " parts +:+ "}")
  | VObject _ => Raise TypeError
  end.

(** [repr(s)] on strings: single quotes unless the string holds a single
    quote and no double quote; the quote in use, the backslash, tab,
    newline and carriage return are escaped, and so is every code point
    that is not printable. *)
Definition has_char (c : ascii) (s : string) : bool :=
  existsb (fun d => code d =? code c) (list_ascii_of_string s).

Definition printable (n : Z) : bool :=
  ((32 <=? n) && (n <? 127)) || ((161 <=? n) && negb (n =? 173)).

Definition escape_repr (quote c : ascii) : string :=
  let n := code c in
  if (n =? code quote) || (n =? 92) then String backslash (String c EmptyString)
  else if n =? 9 then String backslash "t"
  else if n =? 10 then String backslash "n"
  else if n =? 13 then String backslash "r"
  else if printable n then String c EmptyString
  else String backslash "x" +:+ hex2 n.

Definition repr_str (s : string) : string :=
  let quote := if has_char squote s && negb (has_char dquote s)
               then dquote else squote in
  String quote
    (fold_right (fun c acc => escape_repr quote c +:+ acc)
                (String quote EmptyString) (list_ascii_of_string s)).

Definition repr_key (k : key) : string :=
  match k with
  | KStr s => repr_str s
  | KInt n => str n
  | KBool true => "True"
  | KBool false => "False"
  | KNone => "None"
  end.

(** [repr(v)], which is also [str(v)] for containers. *)
Fixpoint repr (v : value) : string :=
  match v with
  | VNone => "None"
  | VBool true => "True"
  | VBool false => "False"
  | VInt n => str n
  | VStr s => repr_str s
  | VList xs => "[" +:+ join ", " (map repr xs) +:+ "]"
  | VTuple xs =>
      match xs with
      | [x] => "(" +:+ repr x +:+ ",)"
      | _ => "(" +:+ join ", " (map repr xs) +:+ ")"
      end
  | VDict items =>
      "{" +:+ join ", " (map (fun kv => repr_key (fst kv) +:+ ": " +:+ repr (snd kv)) items)
          +:+ "}"
  | VObject r => r
  end.

End Json.
Import Json.
(** ** [class QualityAgent] *)

Module QualityAgent.

(** The attributes [__init__] sets. *)
Record agent : Type := Agent
  { agent_id : string;
    agent_type : string;
    verification_threshold : float }.

Definition init (agent_id : string) : agent :=
  {| agent_id := agent_id;
     agent_type := "quality";
     verification_threshold := 0.7%float |}.

(** One verifier's answer.  [verify_with_agent] fills every field;
    [verify_with_voting] builds entries without ["is_valid"] and
    ["confidence"], which are then [None]. *)
Record verification : Type := Verification
  { v_agent_id : string;
    v_hash : string;
    v_output : value;
    v_is_valid : option bool;
    v_confidence : option float }.

(** What [apply_voting] returns. *)
Record voting : Type := Voting
  { majority_hash : string;
    majority_count : Z;
    total_verifiers : Z;
    consensus_strength : float;
    hash_groups : list (string * Z);
    all_agree : bool }.

(** What [verify] returns. *)
Record verdict : Type := Verdict
  { verified : bool;
    quality_score : float;
    verification_details : voting;
    verification_count : Z;
    confidence : float }.

(** [json.dumps(result, sort_keys=True)] hashed with SHA-256. *)
Definition hash_result (result : value) : res string :=
  let* result_str := dumps result in
  Ok (SHA256.hexdigest (utf8_encode result_str)).

Definition verify_with_agent (result : value) (agent_id : Z) : res verification :=
  let* result_hash := hash_result result in
  let is_valid := 0 <? len (list_ascii_of_string result_hash) in
  Ok {| v_agent_id := "verifier-" +:+ str agent_id;
        v_hash := result_hash;
        v_output := result;
        v_is_valid := Some is_valid;
        v_confidence := Some (if is_valid then 0.9 else 0.1)%float |}.

Definition multi_agent_verification (result : value) (num_verifiers : Z)
  : res (list verification) :=
  for_each (range num_verifiers) (verify_with_agent result).

(** The grouping loop of [apply_voting]: a new hash opens a group at the
    end of the dict, a known hash appends to its group. *)
Fixpoint group_append (h : string) (v : verification)
    (groups : list (string * list verification)) : list (string * list verification) :=
  match groups with
  | [] => [(h, [v])]
  | (h', g) :: rest =>
      if String.eqb h' h then (h', g ++ [v]) :: rest
      else (h', g) :: group_append h v rest
  end.

Definition group_by_hash (verification_results : list verification)
  : list (string * list verification) :=
  fold_left (fun groups v => group_append (v_hash v) v groups) verification_results [].

(** [hash_groups[h]], read only at keys of [hash_groups]. *)
Fixpoint group_of (h : string) (groups : list (string * list verification))
  : list verification :=
  match groups with
  | [] => []
  | (h', g) :: rest => if String.eqb h' h then g else group_of h rest
  end.

Definition apply_voting (original_result : value)
    (verification_results : list verification) : res voting :=
  let hash_groups := group_by_hash verification_results in
  let* majority_hash :=
    max_by (fun h => len (group_of h hash_groups)) (map fst hash_groups) in
  let majority_count := len (group_of majority_hash hash_groups) in
  let total_count := len verification_results in
  let* consensus_strength := truediv majority_count total_count in
  Ok {| majority_hash := majority_hash;
        majority_count := majority_count;
        total_verifiers := total_count;
        consensus_strength := consensus_strength;
        hash_groups := map (fun hg => (fst hg, len (snd hg))) hash_groups;
        all_agree := len hash_groups =? 1 |}.

Definition _calculate_quality_score (verified_result : voting) : float :=
  let consensus_strength := consensus_strength verified_result in
  let all_agree := all_agree verified_result in
  let bonus := (if all_agree then 0.1 else 0)%float in
  Py.min 1.0%float (consensus_strength + bonus)%float.

(** The end of [verify]: the score and the answer, once the votes are
    counted. *)
Definition verdict_of (self : agent) (verification_results : list verification)
    (verified_result : voting) : verdict :=
  let quality_score := _calculate_quality_score verified_result in
  {| verified := (verification_threshold self <=? quality_score)%float;
     quality_score := quality_score;
     verification_details := verified_result;
     verification_count := len verification_results;
     confidence := quality_score |}.

Definition verify (self : agent) (result : value) : res verdict :=
  let* verification_results := multi_agent_verification result 3 in
  let* verified_result := apply_voting result verification_results in
  Ok (verdict_of self verification_results verified_result).

(** What [verify_with_voting] returns. *)
Record subtask_verdict : Type := SubtaskVerdict
  { subtask_id : value;
    sv_verified : bool;
    sv_confidence : float;
    voting_result : voting;
    result_count : Z }.

(** [d.get(k)] on a dict value: [None] when the key is missing. *)
Definition dict_get (d : list (key * value)) (k : string) : value :=
  match List.find (fun kv => match fst kv with
                             | KStr s => String.eqb s k
                             | _ => false
                             end) d with
  | Some kv => snd kv
  | None => VNone
  end.

Definition verify_with_voting (self : agent) (subtask : list (key * value))
    (results : list value) : res subtask_verdict :=
  let* hashed_results :=
    for_each (combine (range (len results)) results)
             (fun ir =>
                let* result_hash := hash_result (snd ir) in
                Ok {| v_agent_id := "agent-" +:+ str (fst ir);
                      v_hash := result_hash;
                      v_output := snd ir;
                      v_is_valid := None;
                      v_confidence := None |}) in
  let* voting_result :=
    apply_voting (match results with r :: _ => r | [] => VDict [] end)
                 hashed_results in
  let confidence := consensus_strength voting_result in
  Ok {| subtask_id := dict_get subtask "id";
        sv_verified := (verification_threshold self <=? confidence)%float;
        sv_confidence := confidence;
        voting_result := voting_result;
        result_count := len results |}.

End QualityAgent.

(** ** [class MAKEROrchestrator] *)

Module MAKEROrchestrator.

(** The attributes [__init__] sets and the methods below read:
    whether a Hydra client was passed, and the reputation table. *)
Record orchestrator : Type := Orchestrator
  { hydra_client : bool;
    reputation_scores : gmap string Z }.

Definition init (hydra_client : bool) : orchestrator :=
  {| hydra_client := hydra_client; reputation_scores := ∅ |}.

(** *** [decompose] *)

Record step : Type := Step
  { step_id : string;
    action : string }.

Record subtask : Type := Subtask
  { sub_id : string;
    sub_description : string;
    steps : list step }.

Record component : Type := Component
  { comp_id : string;
    comp_description : string;
    subtasks : list subtask }.

Record decomposition : Type := Decomposition
  { original_task : string;
    decomposition_level : Z;
    max_depth : Z;
    components : list component;
    total_steps : Z;
    status : string }.

(** Level 3, the body of [for j in range(sub_count)]. *)
Definition make_subtask (decomposition_level max_depth major_components sub_count i j : Z)
  : res subtask :=
  let* steps :=
    if 2 <? max_depth then
      let* q := floordiv decomposition_level (major_components * sub_count) in
      let step_count := Z.min q 10 in
      for_each (range step_count)
               (fun k => Ok {| step_id := "step-" +:+ str i +:+ "-" +:+ str j +:+ "-" +:+ str k;
                               action := "Execute step " +:+ str k |})
    else Ok [] in
  Ok {| sub_id := "subtask-" +:+ str i +:+ "-" +:+ str j;
        sub_description := "Subtask " +:+ str j +:+ " of component " +:+ str i;
        steps := steps |}.

(** Level 2, the body of [for i in range(major_components)]. *)
Definition make_component (task : string)
    (decomposition_level max_depth major_components i : Z) : res component :=
  let* subtasks :=
    if 1 <? max_depth then
      let* q := floordiv decomposition_level major_components in
      let sub_count := Z.min q 20 in
      for_each (range sub_count)
               (make_subtask decomposition_level max_depth major_components sub_count i)
    else Ok [] in
  Ok {| comp_id := "component-" +:+ str i;
        comp_description :=
          "Component " +:+ str i +:+ ": " +:+ task +:+ " part " +:+ str (i + 1);
        subtasks := subtasks |}.

(** The summand of [total_steps] for one component. *)
Definition component_steps (comp : component) : Z :=
  match subtasks comp with
  | [] => 1
  | first :: _ => len (subtasks comp) * len (steps first)
  end.

Definition decompose (task : string) (decomposition_level max_depth : Z)
  : res decomposition :=
  let* q := floordiv decomposition_level 10 in
  let major_components := Z.min q 10 in
  let* subtasks :=
    for_each (range major_components)
             (make_component task decomposition_level max_depth major_components) in
  let total_steps := fold_left Z.add (map component_steps subtasks) 0 in
  Ok {| original_task := task;
        decomposition_level := decomposition_level;
        max_depth := max_depth;
        components := subtasks;
        total_steps := total_steps;
        status := "decomposed" |}.

(** *** Voting *)

Record ballot : Type := Ballot
  { voter_id : string;
    result_hash : string;
    vote_choice : string;
    reputation : Z;
    weight : float }.

(** What [_calculate_consensus] returns; the two counts are missing
    from the answer to an empty list of votes. *)
Record consensus : Type := Consensus
  { strength : float;
    result : string;
    approve_votes : option Z;
    total_votes : option Z }.

(** What [vote] returns. *)
Record vote_result : Type := VoteResult
  { vr_total_votes : Z;
    vr_consensus : consensus;
    vr_consensus_strength : float;
    voting_method : string;
    votes : list ballot }.

Definition _generate_vote (self : orchestrator) (results : list value) (voter_id : Z)
  : res ballot :=
  let result_hash := SHA256.hexdigest (utf8_encode (repr (VList results))) in
  let reputation := default 50 (reputation_scores self !! ("voter-" +:+ str voter_id)) in
  let* weight := fdiv (float_of_Z reputation) 100.0%float in
  Ok {| voter_id := "voter-" +:+ str voter_id;
        result_hash := prefix 16 result_hash;
        vote_choice := "approve";
        reputation := reputation;
        weight := weight |}.

Definition is_approve (v : ballot) : bool := String.eqb (vote_choice v) "approve".

Definition _calculate_consensus (votes : list ballot) : res consensus :=
  match votes with
  | [] => Ok {| strength := 0.0%float; result := "no_consensus";
                approve_votes := None; total_votes := None |}
  | _ =>
      let total_weight := Py.sum (map weight votes) in
      let approve_weight := Py.sum (map weight (List.filter is_approve votes)) in
      let* consensus_strength :=
        if (0 <? total_weight)%float then fdiv approve_weight total_weight
        else Ok 0%float in
      Ok {| strength := consensus_strength;
            result := if (0.66 <=? consensus_strength)%float
                      then "approved" else "rejected";
            approve_votes := Some (len (List.filter is_approve votes));
            total_votes := Some (len votes) |}
  end.

(** [_record_votes_hydra] only logs, so [vote] leaves the orchestrator
    unchanged. *)
Definition vote (self : orchestrator) (results : list value)
    (num_voters : Z) (use_hydra : bool) : res vote_result :=
  let* votes := for_each (range num_voters) (_generate_vote self results) in
  let* consensus := _calculate_consensus votes in
  Ok {| vr_total_votes := len votes;
        vr_consensus := consensus;
        vr_consensus_strength := strength consensus;
        voting_method := if use_hydra then "hydra" else "local";
        votes := votes |}.

Definition update_reputation (self : orchestrator) (agent_id : string) (score : Z)
  : orchestrator :=
  {| hydra_client := hydra_client self;
     reputation_scores :=
       <[agent_id := Z.max 0 (Z.min 100 score)]> (reputation_scores self) |}.

End MAKEROrchestrator.

Import QualityAgent MAKEROrchestrator.

(** ** [QualityAgent.flag_errors] and [QualityAgent.execute_task] *)

Module QualityReports.

(** A Python number: what [d.get(key, 0)] returns is the float under
    the key or the int default. *)
Inductive number : Type :=
| NInt (n : Z)
| NFloat (x : float).

(** [a < y] for a number and a float. *)
Definition lt_float (a : number) (y : float) : bool :=
  match a with
  | NInt n => (float_of_Z n <? y)%float
  | NFloat x => (x <? y)%float
  end.

(** The keys of a verification that [flag_errors] reads; each may be
    missing.  ["verification_details"] is read at ["consensus_strength"]
    only. *)
Record details : Type := Details
  { d_consensus_strength : option float }.

Record verification_dict : Type := VerificationDict
  { vd_verified : option bool;
    vd_quality_score : option float;
    vd_verification_details : option details }.

(** One entry of the list [flag_errors] returns; ["quality_score"] and
    ["consensus"] are present in one kind of entry each. *)
Record error_flag : Type := ErrorFlag
  { f_type : string;
    f_severity : string;
    f_message : string;
    f_quality_score : option number;
    f_consensus : option float }.

(** [d.get(key, dflt)] on a dict value. *)
Definition dict_get_default (d : list (key * value)) (k : string) (dflt : value) : value :=
  match List.find (fun kv => match fst kv with
                             | KStr s => String.eqb s k
                             | _ => false
                             end) d with
  | Some kv => snd kv
  | None => dflt
  end.

(** [result] is a dict or [None].  The strength read with
    [.get("verification_details", {}).get("consensus_strength", 1)] is the
    float under these keys or the int [1]; when it is below 0.5 the keys
    exist, and the subscript
    [verification["verification_details"]["consensus_strength"]] returns
    the same float. *)
Definition flag_errors (result : option (list (key * value)))
    (verification : verification_dict) : list error_flag :=
  let errors := [] in
  let errors :=
    if negb (default false (vd_verified verification))
    then errors ++ [ {| f_type := "verification_failed";
                        f_severity := "high";
                        f_message := "Result failed verification";
                        f_quality_score :=
                          Some (match vd_quality_score verification with
                                | Some q => NFloat q
                                | None => NInt 0
                                end);
                        f_consensus := None |} ]
    else errors in
  let errors :=
    let details := default {| d_consensus_strength := None |}
                           (vd_verification_details verification) in
    let strength := match d_consensus_strength details with
                    | Some c => NFloat c
                    | None => NInt 1
                    end in
    if lt_float strength 0.5
    then errors ++ [ {| f_type := "low_consensus";
                        f_severity := "medium";
                        f_message := "Low consensus among verifiers";
                        f_quality_score := None;
                        f_consensus := d_consensus_strength details |} ]
    else errors in
  let errors :=
    let empty := match result with
                 | None => true
                 | Some items => len items =? 0
                 end in
    if empty
    then errors ++ [ {| f_type := "empty_result";
                        f_severity := "high";
                        f_message := "Result is empty or missing";
                        f_quality_score := None;
                        f_consensus := None |} ]
    else errors in
  errors.

(** What [execute_task] returns: the verdict of [verify] with the four
    keys added by [update], or the answer of the [except] branch. *)
Inductive task_report : Type :=
| Completed (v : verdict) (agent agent_id timestamp request : string)
| Failed (agent agent_id error : string) (verified : bool) (quality_score : float).

(** [report["verified"]] and [report["quality_score"]]. *)
Definition report_verified (r : task_report) : bool :=
  match r with
  | Completed v _ _ _ _ => verified v
  | Failed _ _ _ b _ => b
  end.

Definition report_quality_score (r : task_report) : float :=
  match r with
  | Completed v _ _ _ _ => quality_score v
  | Failed _ _ _ _ q => q
  end.

Section Environment.

(** The text [datetime.utcnow().isoformat()] returns at the call, and the
    text [str(e)] of an exception. *)
Variable utcnow : string.
Variable message : exn -> string.

(** [context] is a dict or [None]; an empty dict is falsy. *)
Definition execute_task (self : agent) (request : string)
    (context : option (list (key * value))) : task_report :=
  let results_to_verify :=
    match context with
    | Some d => if 0 <? len d then dict_get_default d "results" (VDict []) else VDict []
    | None => VDict []
    end in
  match verify self results_to_verify with
  | Ok verification_result =>
      Completed verification_result (agent_type self) (agent_id self) utcnow request
  | Raise e =>
      Failed (agent_type self) (agent_id self) (message e) false 0.0%float
  end.

End Environment.

End QualityReports.

(** ** [MAKEROrchestrator.execute] *)

Module MAKERExecution.

(** What [_execute_component] returns; [_calculate_confidence] reads
    ["confidence"] with a default, so it may be missing from a result. *)
Record component_result : Type := ComponentResult
  { component_id : string;
    cr_status : string;
    subtasks_completed : Z;
    cr_confidence : option float }.

(** What [execute] returns. *)
Record execution : Type := Execution
  { ex_status : string;
    ex_original_task : string;
    ex_total_steps : Z;
    components_completed : Z;
    ex_results : list component_result;
    ex_confidence : float }.

Definition _execute_component (component : component) : component_result :=
  {| component_id := comp_id component;
     cr_status := "completed";
     subtasks_completed := len (subtasks component);
     cr_confidence := Some 0.85%float |}.

(** [sum(confidences) / len(confidences)], a float divided by an int. *)
Definition _calculate_confidence (results : list component_result) : res float :=
  match results with
  | [] => Ok 0.0%float
  | _ =>
      let confidences := map (fun r => default 0.5%float (cr_confidence r)) results in
      fdiv (Py.sum confidences) (float_of_Z (len confidences))
  end.

Definition execute (decomposed_task : decomposition) : res execution :=
  let components := components decomposed_task in
  let* results := for_each components (fun component => Ok (_execute_component component)) in
  let* confidence := _calculate_confidence results in
  Ok {| ex_status := "completed";
        ex_original_task := original_task decomposed_task;
        ex_total_steps := total_steps decomposed_task;
        components_completed := len results;
        ex_results := results;
        ex_confidence := confidence |}.

End MAKERExecution.

(** ** [CEOAgent.verify_with_quality_agent] *)

Module CEOAgent.

(** [d[k] = v]: the value under a key of the dict is replaced where it
    is, a new key goes to the end. *)
Fixpoint dict_set (d : list (key * value)) (k : string) (v : value)
  : list (key * value) :=
  match d with
  | [] => [(KStr k, v)]
  | (k', v') :: rest =>
      if match k' with KStr s => String.eqb s k | _ => false end
      then (k', v) :: rest
      else (k', v') :: dict_set rest k v
  end.

Section Environment.

(** The text [str(e)] of an exception. *)
Variable message : exn -> string.

(** [quality_agent] is [self.sub_agents.get('quality')]: a [QualityAgent]
    or [None].  The answer is the verdict of [verify], or [result] itself
    with two keys set. *)
Definition verify_with_quality_agent (quality_agent : option agent)
    (result : list (key * value)) : verdict + list (key * value) :=
  match quality_agent with
  | Some quality_agent =>
      match verify quality_agent (VDict result) with
      | Ok verified => inl verified
      | Raise e =>
          let result := dict_set result "verified" (VBool false) in
          let result := dict_set result "verification_error" (VStr (message e)) in
          inr result
      end
  | None =>
      let result := dict_set result "verified" (VBool false) in
      let result :=
        dict_set result "verification_note" (VStr "Quality agent not available") in
      inr result
  end.

End Environment.

End CEOAgent.

Import QualityReports MAKERExecution CEOAgent.

(** ** Vocabulary of the properties *)

(** The widths the three levels of [decompose] are meant to have. *)
Definition component_count (level : Z) : Z := Z.max 0 (Z.min (level / 10) 10).

Definition subtask_count (level depth : Z) : Z :=
  if 1 <? depth then Z.max 0 (Z.min (level / component_count level) 20) else 0.

Definition step_count (level depth : Z) : Z :=
  if 2 <? depth
  then Z.max 0 (Z.min (level / (component_count level * subtask_count level depth)) 10)
  else 0.

(** Every component has [w2] subtasks and every subtask [w3] steps. *)
Definition widths (w2 w3 : Z) (d : decomposition) : Prop :=
  Forall (fun c => len (subtasks c) = w2 /\
                   Forall (fun s => len (steps s) = w3) (subtasks c))
         (components d).


(** *** Grouping and majority *)

(** How many verifications carry the hash [h]. *)
Definition count (h : string) (vs : list verification) : Z :=
  len (List.filter (fun v => String.eqb (v_hash v) h) vs).

(** One turn of the grouping loop. *)
Definition add_vote (groups : list (string * list verification)) (v : verification)
  : list (string * list verification) :=
  group_append (v_hash v) v groups.

(** The keys of the grouping, in the order the loop created them:
    - they are the hashes of the round, each once;
    - any hash seen before the first verification of a key was made a
      key before it. *)
Definition first_seen_order (ks hs : list string) : Prop :=
  NoDup ks /\
  (forall h, In h ks <-> In h hs) /\
  (forall kp k kq, ks = kp ++ k :: kq ->
     exists pre post, hs = pre ++ k :: post /\ ~ In k pre /\
                      forall h, In h pre -> In h kp).

(** *** Dict keys and their order *)

(** Python compares keys of one kind only: strings with strings, numbers
    (ints and bools) with numbers; [None] compares with nothing. *)
Inductive kind : Type := KindStr | KindNum.

Definition kind_of (k : key) : option kind :=
  match k with
  | KStr _ => Some KindStr
  | KInt _ | KBool _ => Some KindNum
  | KNone => None
  end.

(** The key as the dict identifies it: [True] is [1] and [False] is [0]. *)
Definition key_id (k : key) : key :=
  match k with
  | KBool b => KInt (if b then 1 else 0)
  | _ => k
  end.

(** [key_lt] where it returns. *)
Definition key_ltb (k1 k2 : key) : bool :=
  match key_lt k1 k2 with
  | Ok b => b
  | Raise _ => false
  end.

Fixpoint insert_pure {V : Type} (kv : key * V) (sorted : list (key * V))
  : list (key * V) :=
  match sorted with
  | [] => [kv]
  | kv' :: rest =>
      if key_ltb (fst kv) (fst kv') then kv :: sorted
      else kv' :: insert_pure kv rest
  end.

Fixpoint sort_pure {V : Type} (items : list (key * V)) : list (key * V) :=
  match items with
  | [] => []
  | kv :: rest => insert_pure kv (sort_pure rest)
  end.

Definition uniform {V : Type} (c : kind) (items : list (key * V)) : Prop :=
  Forall (fun kv => kind_of (fst kv) = Some c) items.

Definition key_ids {V : Type} (items : list (key * V)) : list key :=
  map (fun kv => key_id (fst kv)) items.

(** *** Structural equality *)

(** A value is well formed when the keys of each of its dicts are
    pairwise distinct, as in any Python dict. *)
Inductive well_formed : value -> Prop :=
| wf_none : well_formed VNone
| wf_bool b : well_formed (VBool b)
| wf_int n : well_formed (VInt n)
| wf_str s : well_formed (VStr s)
| wf_object r : well_formed (VObject r)
| wf_list xs : Forall well_formed xs -> well_formed (VList xs)
| wf_tuple xs : Forall well_formed xs -> well_formed (VTuple xs)
| wf_dict items :
    NoDup (key_ids items) ->
    Forall (fun kv => well_formed (snd kv)) items ->
    well_formed (VDict items).

(** Two results are structurally equal when they are identical up to the
    insertion order of the keys of their dicts, at every depth: the same
    keys ([fst kv = fst kv']) with the same values, in type as well as in
    value.  The relation is narrower than Python's [==], for which [True]
    is [1]: the keys [KBool true] and [KInt 1], and the values
    [VBool true] and [VInt 1], are not the same, and the encoder writes
    them differently. *)
Inductive same : value -> value -> Prop :=
| same_refl v : same v v
| same_list xs ys : Forall2 same xs ys -> same (VList xs) (VList ys)
| same_tuple xs ys : Forall2 same xs ys -> same (VTuple xs) (VTuple ys)
| same_dict items items' reordered :
    Permutation items reordered ->
    Forall2 (fun kv kv' => fst kv = fst kv' /\ same (snd kv) (snd kv'))
            reordered items' ->
    same (VDict items) (VDict items').

Section SameInduction.

Variable P : value -> value -> Prop.
Hypothesis Hrefl : forall v, P v v.
Hypothesis Hlist : forall xs ys, Forall2 P xs ys -> P (VList xs) (VList ys).
Hypothesis Htuple : forall xs ys, Forall2 P xs ys -> P (VTuple xs) (VTuple ys).
Hypothesis Hdict : forall items items' reordered,
  Permutation items reordered ->
  Forall2 (fun kv kv' => fst kv = fst kv' /\ P (snd kv) (snd kv')) reordered items' ->
  P (VDict items) (VDict items').

(** Induction on [same] that reaches the elements of lists and dicts. *)
Fixpoint same_nested_ind (a b : value) (H : same a b) {struct H} : P a b :=
  match H in same a' b' return P a' b' with
  | same_refl v => Hrefl v
  | same_list xs ys Hxs =>
      Hlist xs ys
        ((fix go xs ys (F : Forall2 same xs ys) {struct F} : Forall2 P xs ys :=
            match F in Forall2 _ xs' ys' return Forall2 P xs' ys' with
            | List.Forall2_nil _ => List.Forall2_nil P
            | List.Forall2_cons x y Hxy Hl =>
                List.Forall2_cons x y (same_nested_ind x y Hxy) (go _ _ Hl)
            end) xs ys Hxs)
  | same_tuple xs ys Hxs =>
      Htuple xs ys
        ((fix go xs ys (F : Forall2 same xs ys) {struct F} : Forall2 P xs ys :=
            match F in Forall2 _ xs' ys' return Forall2 P xs' ys' with
            | List.Forall2_nil _ => List.Forall2_nil P
            | List.Forall2_cons x y Hxy Hl =>
                List.Forall2_cons x y (same_nested_ind x y Hxy) (go _ _ Hl)
            end) xs ys Hxs)
  | same_dict items items' reordered Hperm Hitems =>
      Hdict items items' reordered Hperm
        ((fix go l l'
              (F : Forall2 (fun kv kv' => fst kv = fst kv' /\ same (snd kv) (snd kv')) l l')
              {struct F}
            : Forall2 (fun kv kv' => fst kv = fst kv' /\ P (snd kv) (snd kv')) l l' :=
            match F in Forall2 _ l0 l0'
                  return Forall2 (fun kv kv' => fst kv = fst kv' /\ P (snd kv) (snd kv'))
                                 l0 l0' with
            | List.Forall2_nil _ => List.Forall2_nil _
            | List.Forall2_cons kv kv' Hkv Hl =>
                List.Forall2_cons kv kv'
                  (match Hkv with
                   | conj Hk Hs => conj Hk (same_nested_ind _ _ Hs)
                   end)
                  (go _ _ Hl)
            end) reordered items' Hitems)
  end.

End SameInduction.

(** A key with the encoding of its value, as [dumps] pairs them. *)
Definition encoded (kv : key * value) : key * res string := (fst kv, dumps (snd kv)).

(** *** Weights *)

(** The sum of the weights of the votes [P] selects, accumulated in the
    order of the votes. *)
Definition weight_sum (P : ballot -> bool) (votes : list ballot) : float :=
  fold_left (fun acc v => if P v then (acc + weight v)%float else acc) votes 0%float.

Definition every_vote (v : ballot) : bool := true.

(** The reputation [_generate_vote] reads for voter [i]. *)
Definition reputation_of (self : orchestrator) (i : Z) : Z :=
  default 50 (reputation_scores self !! ("voter-" +:+ str i)).

(** The scores of the table are within [0, 100]. *)
Definition ledger_ok (self : orchestrator) : Prop :=
  map_Forall (fun _ r => 0 <= r <= 100) (reputation_scores self).

(** The weight of voter [i] and the total weight of the first [n] voters,
    summed in voter order as [_calculate_consensus] sums them. *)
Definition weight_of (self : orchestrator) (i : Z) : float :=
  (float_of_Z (reputation_of self i) / 100.0)%float.

Definition total_weight (self : orchestrator) (n : Z) : float :=
  Py.sum (map (weight_of self) (range n)).

(** The vote of voter [i] on [results]. *)
Definition ballot_of (self : orchestrator) (results : list value) (i : Z) : ballot :=
  {| voter_id := "voter-" +:+ str i;
     result_hash := prefix 16 (SHA256.hexdigest (utf8_encode (repr (VList results))));
     vote_choice := "approve";
     reputation := reputation_of self i;
     weight := weight_of self i |}.

(** *** Binary64 numbers as the kernel specifies them *)

(** The result of a rounding step whose exponent may overflow. *)
Definition finite_or_inf (m : Z) (e : Z) : spec_float :=
  match m with
  | Z.pos p => if e <=? emax - prec then S754_finite false p e else S754_infinity false
  | 0 => S754_zero false
  | Z.neg _ => S754_nan
  end.

(** The running total: zero, or a normal number of value at most [2^53]. *)
Definition acc_sf (x : spec_float) : Prop :=
  match x with
  | S754_zero s => s = false
  | S754_finite s m e =>
      s = false /\ 2 ^ 52 <= Z.pos m < 2 ^ 53 /\ -59 <= e /\
      Z.pos m * 2 ^ (e + 59) <= 2 ^ 112
  | _ => False
  end.

(** A weight: zero, or a normal number between [2^-7] and one. *)
Definition weight_sf (y : spec_float) : Prop :=
  match y with
  | S754_zero s => s = false
  | S754_finite s m e =>
      s = false /\ 2 ^ 52 <= Z.pos m < 2 ^ 53 /\ -59 <= e <= -52 /\
      Z.pos m * 2 ^ (e + 59) <= 2 ^ 59
  | _ => False
  end.

(** A positive finite number. *)
Definition pos_sf (x : spec_float) : Prop :=
  match x with
  | S754_finite false _ _ => True
  | _ => False
  end.

(** The two classes as computable tests. *)
Definition weight_sfb (y : spec_float) : bool :=
  match y with
  | S754_zero s => negb s
  | S754_finite s m e =>
      negb s && (2 ^ 52 <=? Z.pos m) && (Z.pos m <? 2 ^ 53) &&
      (-59 <=? e) && (e <=? -52) && (Z.pos m * 2 ^ (e + 59) <=? 2 ^ 59)
  | _ => false
  end.

Definition pos_sfb (x : spec_float) : bool :=
  match x with
  | S754_finite false _ _ => true
  | _ => false
  end.

(** *** The reputation table *)

(** The score [update_reputation] stores. *)
Definition clamp (score : Z) : Z := Z.max 0 (Z.min 100 score).

(** The orchestrator after [update_reputation] was called with each pair
    of [updates], in order, on a fresh one. *)
Definition replay (hydra : bool) (updates : list (string * Z)) : orchestrator :=
  fold_left (fun self u => update_reputation self (fst u) (snd u)) updates
            (MAKEROrchestrator.init hydra).

(** The score of the last update of [agent_id] in [updates]. *)
Definition last_update (agent_id : string) (updates : list (string * Z)) : option Z :=
  option_map snd (List.find (fun u => String.eqb (fst u) agent_id) (rev updates)).

(** Whether one of the first [n] voters has a positive reputation. *)
Definition some_reputation (self : orchestrator) (n : Z) : bool :=
  existsb (fun i => 0 <? reputation_of self i) (range n).

(** *** Fingerprints *)

(** A lower-case hexadecimal digit. *)
Definition is_hex (c : ascii) : bool :=
  existsb (Ascii.eqb c)
          ["0"; "1"; "2"; "3"; "4"; "5"; "6"; "7";
           "8"; "9"; "a"; "b"; "c"; "d"; "e"; "f"]%char.

(** A string of [n] lower-case hexadecimal digits. *)
Definition hex_string (n : nat) (s : string) : Prop :=
  String.length s = n /\ forallb is_hex (list_ascii_of_string s) = true.

(** *** Serialisable values *)

(** What the JSON encoder accepts: no object it has no rule for, and in
    every dict of two items or more, keys of one kind. *)
Inductive serializable : value -> Prop :=
| ser_none : serializable VNone
| ser_bool b : serializable (VBool b)
| ser_int n : serializable (VInt n)
| ser_str s : serializable (VStr s)
| ser_list xs : Forall serializable xs -> serializable (VList xs)
| ser_tuple xs : Forall serializable xs -> serializable (VTuple xs)
| ser_dict items :
    ((length items <= 1)%nat \/ exists c, uniform c items) ->
    Forall (fun kv => serializable (snd kv)) items ->
    serializable (VDict items).

Section ValueInduction.

Variable P : value -> Prop.
Hypothesis Hnone : P VNone.
Hypothesis Hbool : forall b, P (VBool b).
Hypothesis Hint : forall n, P (VInt n).
Hypothesis Hstr : forall s, P (VStr s).
Hypothesis Hlist : forall xs, Forall P xs -> P (VList xs).
Hypothesis Htuple : forall xs, Forall P xs -> P (VTuple xs).
Hypothesis Hdict : forall items, Forall (fun kv => P (snd kv)) items -> P (VDict items).
Hypothesis Hobject : forall r, P (VObject r).

(** Induction on a value that reaches the elements of lists and dicts. *)
Fixpoint value_nested_ind (v : value) : P v :=
  match v with
  | VNone => Hnone
  | VBool b => Hbool b
  | VInt n => Hint n
  | VStr s => Hstr s
  | VList xs =>
      Hlist xs ((fix go (l : list value) : Forall P l :=
                   match l with
                   | [] => @List.Forall_nil _ P
                   | x :: l' => @List.Forall_cons _ P x l' (value_nested_ind x) (go l')
                   end) xs)
  | VTuple xs =>
      Htuple xs ((fix go (l : list value) : Forall P l :=
                    match l with
                    | [] => @List.Forall_nil _ P
                    | x :: l' => @List.Forall_cons _ P x l' (value_nested_ind x) (go l')
                    end) xs)
  | VDict items =>
      Hdict items
        ((fix go (l : list (key * value)) : Forall (fun kv => P (snd kv)) l :=
            match l with
            | [] => @List.Forall_nil _ _
            | kv :: l' => @List.Forall_cons _ _ kv l' (value_nested_ind (snd kv)) (go l')
            end) items)
  | VObject r => Hobject r
  end.

End ValueInduction.

(** *** Unanimous votes and verdicts *)

(** The answer of [apply_voting] to [n] verifications that all carry the hash [h]. *)
Definition unanimous (h : string) (n : Z) : voting :=
  {| majority_hash := h;
     majority_count := n;
     total_verifiers := n;
     consensus_strength := 1.0%float;
     hash_groups := [(h, n)];
     all_agree := true |}.

(** The verdict of [verify] on a result of fingerprint [h], for an agent of
    threshold [t]. *)
Definition unanimous_verdict (t : float) (h : string) : verdict :=
  {| verified := (t <=? 1.0)%float;
     quality_score := 1.0%float;
     verification_details := unanimous h 3;
     verification_count := 3;
     confidence := 1.0%float |}.

(** *** Reports and flags *)

(** The dict [verify] returns, as [flag_errors] reads it: the three keys
    are present. *)
Definition verdict_dict (r : verdict) : verification_dict :=
  {| vd_verified := Some (verified r);
     vd_quality_score := Some (quality_score r);
     vd_verification_details :=
       Some {| d_consensus_strength := Some (consensus_strength (verification_details r)) |} |}.

(** The value [execute_task] passes to [verify]. *)
Definition results_to_verify (context : option (list (key * value))) : value :=
  match context with
  | Some d => if 0 <? len d then dict_get_default d "results" (VDict []) else VDict []
  | None => VDict []
  end.

(** The entry [flag_errors] adds for an empty or missing result. *)
Definition empty_result_flag : error_flag :=
  {| f_type := "empty_result";
     f_severity := "high";
     f_message := "Result is empty or missing";
     f_quality_score := None;
     f_consensus := None |}.

(** The types of the entries of a list of flags, in order. *)
Definition flag_types (flags : list error_flag) : list string := map f_type flags.

(** *** Executions *)

(** The confidence [execute] reports for [n] components, [n] at most
    10: the binary64 mean of [n] times 0.85. *)
Definition mean_confidence (n : Z) : float :=
  if n <=? 0 then 0.0%float
  else if n <=? 6 then 0.85%float
  else 0.8499999999999999%float.

(** *** The tree of a decomposition *)

(** The tree [decompose] builds, level by level. *)
Definition step_of (i j k : Z) : step :=
  {| step_id := "step-" +:+ str i +:+ "-" +:+ str j +:+ "-" +:+ str k;
     action := "Execute step " +:+ str k |}.

Definition subtask_of (level depth major sub_count i j : Z) : subtask :=
  {| sub_id := "subtask-" +:+ str i +:+ "-" +:+ str j;
     sub_description := "Subtask " +:+ str j +:+ " of component " +:+ str i;
     steps := if 2 <? depth
              then map (step_of i j) (range (Z.min (level / (major * sub_count)) 10))
              else [] |}.

Definition component_of (task : string) (level depth major i : Z) : component :=
  {| comp_id := "component-" +:+ str i;
     comp_description := "Component " +:+ str i +:+ ": " +:+ task +:+ " part " +:+ str (i + 1);
     subtasks := if 1 <? depth
                 then map (subtask_of level depth major (Z.min (level / major) 20) i)
                          (range (Z.min (level / major) 20))
                 else [] |}.

(** The ids of the subtasks and of the steps of a tree, in tree order. *)
Definition subtask_ids (d : decomposition) : list string :=
  flat_map (fun c => map sub_id (subtasks c)) (components d).

Definition step_ids (d : decomposition) : list string :=
  flat_map (fun c => flat_map (fun s => map step_id (steps s)) (subtasks c)) (components d).

(** The number of steps in the tree. *)
Definition leaves (d : decomposition) : Z := len (step_ids d).

(** The text of an index in an id is a run of decimal digits. *)
Definition is_digit (c : ascii) : bool :=
  existsb (Ascii.eqb c) ["0"; "1"; "2"; "3"; "4"; "5"; "6"; "7"; "8"; "9"]%char.

Definition digits_only (s : string) : Prop :=
  forallb is_digit (list_ascii_of_string s) = true.

(** ** Properties of the runtime *)

Section Runtime.

Lemma range_length (n : Z) : length (range n) = Z.to_nat n.
Proof. unfold range. now rewrite length_map, length_seq. Qed.

Lemma len_range (n : Z) : len (range n) = Z.max 0 n.
Proof. unfold len. rewrite range_length. lia. Qed.

Lemma in_range (n i : Z) : In i (range n) <-> 0 <= i < n.
Proof.
  unfold range. rewrite in_map_iff. split.
  - intros (k & <- & Hk%in_seq). lia.
  - intros Hi. exists (Z.to_nat i). split; [lia|]. apply in_seq. lia.
Qed.

(** A loop whose body returns on every element returns, with one output
    per element. *)
Lemma for_each_ok {A B : Type} (P : B -> Prop) (body : A -> res B) (xs : list A) :
  (forall x, In x xs -> exists y, body x = Ok y /\ P y) ->
  exists ys, for_each xs body = Ok ys /\ length ys = length xs /\ Forall P ys.
Proof.
  induction xs as [|x xs IH]; intros Hbody; simpl.
  - exists []. repeat split. constructor.
  - destruct (Hbody x) as (y & -> & Hy); [now left|].
    destruct IH as (ys & -> & Hlen & Hall).
    { intros x' Hx'. apply Hbody. now right. }
    exists (y :: ys). simpl. repeat split; [now rewrite Hlen | now constructor].
Qed.

End Runtime.

(** ** The model against the repository's tests and standard vectors *)

Section Tests.

(** FIPS 180-4, appendix B.1, and the digest of the empty message. *)
Example sha256_abc :
  SHA256.hexdigest (utf8_encode "abc") =
    "ba7816bf8f01cfea414140de5dae2223b00361a396177a9cb410ff61f20015ad".
Proof. vm_compute. reflexivity. Qed.

Example sha256_empty :
  SHA256.hexdigest [] =
    "e3b0c44298fc1c149afbf4c8996fb92427ae41e4649b934ca495991b7852b855".
Proof. vm_compute. reflexivity. Qed.

(** The first and the last round constant and the first word of the
    initial state, as the standard lists them. *)
Example sha256_constants :
  nth 0 SHA256.K 0 = 0x428a2f98 /\ nth 63 SHA256.K 0 = 0xc67178f2 /\
  length SHA256.K = 64%nat /\ SHA256.sa SHA256.init = 0x6a09e667.
Proof. vm_compute. repeat split. Qed.

(** [json.dumps] sorts the keys, numbers by value, and escapes what is
    not printable ASCII. *)
Example dumps_sorted :
  dumps (VDict [(KStr "b", VInt 2); (KStr "a", VList [VNone; VBool true; VTuple [VInt (-5)]])])
  = Ok (String "{" (String dquote "a" +:+ String dquote ": [null, true, [-5]], "
        +:+ String dquote "b" +:+ String dquote ": 2}")).
Proof. vm_compute. reflexivity. Qed.

Example dumps_numeric_keys :
  dumps (VDict [(KInt 10, VInt 1); (KInt 9, VInt 2)])
  = Ok (String "{" (String dquote "9" +:+ String dquote ": 2, "
        +:+ String dquote "10" +:+ String dquote ": 1}")).
Proof. vm_compute. reflexivity. Qed.

Example dumps_mixed_keys_raise :
  dumps (VDict [(KInt 1, VInt 1); (KStr "a", VInt 2)]) = Raise TypeError /\
  dumps (VDict [(KStr "a", VObject "{1, 2}")]) = Raise TypeError.
Proof. split; reflexivity. Qed.

(** [test_hash_result_different_values]. *)
Example hash_result_different_values :
  hash_result (VDict [(KStr "value", VInt 1)]) =
    Ok "e1d70a18cc129fcc812ebbe309bc5197df6ffa2228c77a4a7b98653ec5605354" /\
  hash_result (VDict [(KStr "value", VInt 2)]) =
    Ok "d2a6919189609bb4a2b924e35f740e5ee98b1f06c3c340d27df75ef48bd45816".
Proof. split; vm_compute; reflexivity. Qed.

(** [test_apply_voting_unanimous] and [test_apply_voting_majority]. *)
Example apply_voting_unanimous :
  let v := Verification "v" "abc123" (VDict [(KStr "data", VStr "test")]) None None in
  apply_voting VNone [v; v; v] =
    Ok {| majority_hash := "abc123"; majority_count := 3; total_verifiers := 3;
          consensus_strength := 1.0%float; hash_groups := [("abc123", 3)];
          all_agree := true |}.
Proof. vm_compute. reflexivity. Qed.

Example apply_voting_two_of_three :
  let v h := Verification "v" h VNone None None in
  apply_voting VNone [v "abc123"; v "abc123"; v "def456"] =
    Ok {| majority_hash := "abc123"; majority_count := 2; total_verifiers := 3;
          consensus_strength := (2 / 3)%float;
          hash_groups := [("abc123", 2); ("def456", 1)];
          all_agree := false |}.
Proof. vm_compute. reflexivity. Qed.

(** [test_verify_with_voting]: three equal results are verified. *)
Example verify_with_voting_three :
  let r := VDict [(KStr "output", VStr "result1")] in
  exists sv,
    verify_with_voting (QualityAgent.init "quality-001")
                       [(KStr "id", VStr "task-001")] [r; r; r] = Ok sv /\
    subtask_id sv = VStr "task-001" /\ sv_verified sv = true /\ result_count sv = 3.
Proof. cbn zeta. eexists. split; [vm_compute; reflexivity|]. repeat split. Qed.

(** [str(results)] as [_generate_vote] hashes it. *)
Example repr_results :
  repr (VList [VDict [(KStr "a", VInt 1); (KInt 2, VTuple [VNone])]; VStr "it"])
  = "[{'a': 1, 2: (None,)}, 'it']".
Proof. vm_compute. reflexivity. Qed.

End Tests.

(** ** [decompose] *)

(** Run the loop in the goal, given that each body satisfies [P]. *)
Ltac run_loop P ys Hlen Hall :=
  match goal with
  | |- context [for_each ?xs ?body] =>
      let H := fresh in
      assert (H : forall x, In x xs -> exists y, body x = Ok y /\ P y);
      [ | destruct (for_each_ok P body xs H) as (ys & -> & Hlen & Hall); clear H;
          cbn [bind] ]
  end.

Section Decompose.

Variable task : string.
Variables level depth : Z.

Lemma floordiv_ok (a b : Z) : b <> 0 -> floordiv a b = Ok (a / b).
Proof. intros Hb. unfold floordiv. now rewrite (proj2 (Z.eqb_neq b 0) Hb). Qed.

(** Inside the two outer loops both widths are positive, so the divisor
    of the third level is not zero. *)
Lemma make_subtask_ok (major sub_count i j : Z) :
  1 <= major -> 1 <= sub_count ->
  exists s, make_subtask level depth major sub_count i j = Ok s /\
    len (steps s) =
      if 2 <? depth then Z.max 0 (Z.min (level / (major * sub_count)) 10) else 0.
Proof.
  intros Hm Hs. unfold make_subtask.
  destruct (2 <? depth).
  - rewrite floordiv_ok by nia. cbn [bind].
    run_loop (fun _ : step => True) ys Hlen Hall.
    { intros k _. eexists. split; [reflexivity | exact I]. }
    eexists. split; [reflexivity|]. cbn [steps].
    unfold len. rewrite Hlen, range_length. lia.
  - cbn [bind]. eexists. split; reflexivity.
Qed.

Lemma make_component_ok (major i : Z) :
  1 <= major ->
  exists c, make_component task level depth major i = Ok c /\
    len (subtasks c) =
      (if 1 <? depth then Z.max 0 (Z.min (level / major) 20) else 0) /\
    Forall (fun s => len (steps s) =
              if 2 <? depth
              then Z.max 0 (Z.min (level / (major * Z.min (level / major) 20)) 10)
              else 0)
           (subtasks c).
Proof.
  intros Hm. unfold make_component.
  destruct (1 <? depth).
  - rewrite floordiv_ok by lia. cbn [bind].
    run_loop (fun s => len (steps s) =
                if 2 <? depth
                then Z.max 0 (Z.min (level / (major * Z.min (level / major) 20)) 10)
                else 0) ys Hlen Hall.
    { intros j Hj%in_range. apply make_subtask_ok; lia. }
    eexists. split; [reflexivity|]. cbn [subtasks]. split; [|exact Hall].
    unfold len. rewrite Hlen, range_length. lia.
  - cbn [bind]. eexists. split; [reflexivity|]. cbn [subtasks].
    split; [reflexivity | constructor].
Qed.

(** [decompose] returns on every input, echoes its arguments, and builds a
    tree of the three widths. *)
Lemma decompose_shape :
  exists d, decompose task level depth = Ok d /\
    original_task d = task /\ decomposition_level d = level /\
    max_depth d = depth /\ status d = "decomposed" /\
    len (components d) = component_count level /\
    widths (subtask_count level depth) (step_count level depth) d /\
    total_steps d = fold_left Z.add (map component_steps (components d)) 0.
Proof.
  unfold decompose. rewrite floordiv_ok by lia. cbn [bind].
  run_loop (fun c => len (subtasks c) = subtask_count level depth /\
                     Forall (fun s => len (steps s) = step_count level depth)
                            (subtasks c)) cs Hlen Hall.
  { intros i Hi%in_range.
    destruct (make_component_ok (Z.min (level / 10) 10) i) as (c & Hc & Hsub & Hsteps);
      [lia|].
    exists c. split; [exact Hc|].
    assert (Hcc : component_count level = Z.min (level / 10) 10)
      by (unfold component_count; lia).
    unfold step_count, subtask_count. rewrite Hcc. split; [exact Hsub|].
    destruct (1 <? depth) eqn:Hd.
    - destruct (Z.le_gt_cases (Z.min (level / Z.min (level / 10) 10) 20) 0) as [Hle|Hgt].
      + (* no subtask at all *)
        assert (Hnil : subtasks c = [])
          by (destruct (subtasks c); [easy | unfold len in Hsub; cbn in Hsub; lia]).
        rewrite Hnil. constructor.
      + now rewrite (Z.max_r 0 (Z.min (level / Z.min (level / 10) 10) 20)) by lia.
    - assert (Hnil : subtasks c = [])
        by (destruct (subtasks c); [easy | unfold len in Hsub; cbn in Hsub; lia]).
      rewrite Hnil. constructor. }
  eexists. split; [reflexivity|]. cbn.
  repeat split; [|exact Hall].
  unfold len. rewrite Hlen, range_length. unfold component_count. lia.
Qed.

End Decompose.

Lemma len_nil_inv {A : Type} (xs : list A) : len xs <= 0 -> xs = [].
Proof. destruct xs; [easy | unfold len; cbn; lia]. Qed.

Lemma fold_add_const (f : component -> Z) (w : Z) (cs : list component) (acc : Z) :
  Forall (fun c => f c = w) cs ->
  fold_left Z.add (map f cs) acc = acc + len cs * w.
Proof.
  revert acc. induction cs as [|c cs IH]; intros acc Hall; cbn.
  - unfold len. cbn. lia.
  - inversion Hall as [|? ? Hc Hcs]; subst. rewrite IH by assumption.
    unfold len. cbn [length]. lia.
Qed.

(** With at least one subtask per component, a component counts
    [w2 * w3] steps. *)
Lemma widths_component_steps (w2 w3 : Z) (d : decomposition) :
  1 <= w2 -> widths w2 w3 d ->
  Forall (fun c => component_steps c = w2 * w3) (components d).
Proof.
  intros Hw Hd. eapply List.Forall_impl; [|exact Hd]. cbn beta. intros c [Hsub Hsteps].
  unfold component_steps. destruct (subtasks c) as [|s ss] eqn:E.
  - unfold len in Hsub. cbn in Hsub. lia.
  - inversion Hsteps; subst. congruence.
Qed.

(** Without subtasks a component counts for one step. *)
Lemma widths_zero_component_steps (w3 : Z) (d : decomposition) :
  widths 0 w3 d ->
  Forall (fun c => subtasks c = [] /\ component_steps c = 1) (components d).
Proof.
  intros Hd. eapply List.Forall_impl; [|exact Hd]. cbn beta. intros c [Hsub _].
  assert (E : subtasks c = []) by (apply len_nil_inv; lia).
  split; [exact E|]. unfold component_steps. now rewrite E.
Qed.

(** ** The claims about [decompose] *)

(** C3, as amended: for every target_subtask_count >= 1 and every
    max_depth, [decompose] returns a tree whose number of components is
    [min(target_subtask_count // 10, 10)]; that number is at least one
    exactly when target_subtask_count >= 10. *)
Theorem decompose_component_count (task : string) (level depth : Z) :
  1 <= level ->
  exists d, decompose task level depth = Ok d /\
    len (components d) = Z.min (level / 10) 10 /\
    (1 <= len (components d) <-> 10 <= level).
Proof.
  intros Hlevel.
  destruct (decompose_shape task level depth) as (d & Hd & _ & _ & _ & _ & Hlen & _).
  exists d. split; [exact Hd|]. rewrite Hlen. unfold component_count.
  assert (0 <= level / 10) by (apply Z.div_pos; lia).
  split; [lia|]. split; intros H'.
  - destruct (Z.lt_ge_cases level 10) as [Hlt|]; [|assumption].
    rewrite (Z.div_small level 10) in H' by lia. lia.
  - assert (1 <= level / 10) by (apply Z.div_le_lower_bound; lia). lia.
Qed.

Lemma decompose_component_count_witness :
  exists d, decompose "analyse" 100 3 = Ok d /\
    len (components d) = Z.min (100 / 10) 10 /\
    (1 <= len (components d) <-> 10 <= 100).
Proof. apply (decompose_component_count "analyse" 100 3). lia. Defined.

(** C3 as stated fails: a target of 5 subtasks with max_depth 3 gives an
    empty tree. *)
Lemma decompose_small_target_is_empty :
  1 <= 5 /\ 1 <= 3 /\
  exists d, decompose "task" 5 3 = Ok d /\ components d = [].
Proof. repeat split; [lia | lia |]. eexists. split; reflexivity. Qed.

(** C5: a target of 1000 subtasks at depth 3 gives 10 components of 20
    subtasks of 5 steps each, 1000 steps in all; and on every input no
    level is wider than its cap of 10, 20 and 10. *)
Theorem decompose_width_caps (task : string) :
  (exists d, decompose task 1000 3 = Ok d /\
     len (components d) = 10 /\ widths 20 5 d /\ total_steps d = 1000) /\
  (forall level depth : Z,
     exists d, decompose task level depth = Ok d /\
       len (components d) <= 10 /\
       Forall (fun c => len (subtasks c) <= 20 /\
                        Forall (fun s => len (steps s) <= 10) (subtasks c))
              (components d)).
Proof.
  split.
  - destruct (decompose_shape task 1000 3) as (d & Hd & _ & _ & _ & _ & Hlen & Hw & Htot).
    exists d. split; [exact Hd|].
    change (component_count 1000) with 10 in Hlen.
    change (subtask_count 1000 3) with 20 in Hw.
    change (step_count 1000 3) with 5 in Hw.
    repeat split; [exact Hlen | exact Hw |].
    rewrite Htot, (fold_add_const component_steps (20 * 5)).
    + rewrite Hlen. reflexivity.
    + apply widths_component_steps; [lia | exact Hw].
  - intros level depth.
    destruct (decompose_shape task level depth) as (d & Hd & _ & _ & _ & _ & Hlen & Hw & _).
    exists d. split; [exact Hd|]. split.
    + rewrite Hlen. unfold component_count. lia.
    + eapply List.Forall_impl; [|exact Hw]. cbn beta. intros c [Hsub Hsteps]. split.
      * rewrite Hsub. unfold subtask_count. destruct (1 <? depth); lia.
      * eapply List.Forall_impl; [|exact Hsteps]. cbn beta. intros s ->.
        unfold step_count. destruct (2 <? depth); lia.
Qed.

(** C7, as amended: on an invalid configuration (target_subtask_count < 1
    or max_depth < 1) [decompose] raises nothing and returns a result of
    status "decomposed": without components when target_subtask_count < 1,
    and with components that have no subtasks, each counted as one step,
    when max_depth < 1. *)
Theorem decompose_invalid_configuration (task : string) (level depth : Z) :
  level < 1 \/ depth < 1 ->
  exists d, decompose task level depth = Ok d /\
    status d = "decomposed" /\
    (level < 1 -> components d = [] /\ total_steps d = 0) /\
    (depth < 1 -> Forall (fun c => subtasks c = []) (components d) /\
                  total_steps d = len (components d)).
Proof.
  intros _.
  destruct (decompose_shape task level depth)
    as (d & Hd & _ & _ & _ & Hst & Hlen & Hw & Htot).
  exists d. split; [exact Hd|]. split; [exact Hst|].
  split; [intros Hlevel | intros Hdepth].
  - assert (E : components d = []).
    { apply len_nil_inv. rewrite Hlen. unfold component_count.
      assert (level / 10 <= 0) by (apply Z.div_le_upper_bound; lia). lia. }
    split; [exact E|]. rewrite Htot, E. reflexivity.
  - unfold subtask_count in Hw.
    rewrite (proj2 (Z.ltb_ge 1 depth)) in Hw by lia.
    pose proof (widths_zero_component_steps _ _ Hw) as Hz. split.
    + eapply List.Forall_impl; [|exact Hz]. now intros c [E _].
    + rewrite Htot, (fold_add_const component_steps 1); [lia|].
      eapply List.Forall_impl; [|exact Hz]. now intros c [_ E].
Qed.

Lemma decompose_invalid_configuration_witness :
  exists d, decompose "task" 0 0 = Ok d /\
    status d = "decomposed" /\
    (0 < 1 -> components d = [] /\ total_steps d = 0) /\
    (0 < 1 -> Forall (fun c => subtasks c = []) (components d) /\
              total_steps d = len (components d)).
Proof. apply (decompose_invalid_configuration "task" 0 0). left. lia. Defined.

(** C7 as stated fails: with target_subtask_count = 0, and with
    max_depth = 0, [decompose] returns a result instead of an error. *)
Lemma decompose_invalid_configuration_returns :
  decompose "task" 0 3 =
    Ok {| original_task := "task"; decomposition_level := 0; max_depth := 3;
          components := []; total_steps := 0; status := "decomposed" |} /\
  exists d, decompose "task" 100 0 = Ok d /\ len (components d) = 10.
Proof. split; [reflexivity|]. eexists. split; reflexivity. Qed.

(** ** Binary64 comparisons and division *)

Section Floats.

Local Open Scope float_scope.

Lemma SFcompare_Lt_Gt (x y : spec_float) :
  SFcompare x y = Some Lt -> SFcompare y x = Some Gt.
Proof.
  destruct x as [sx|sx| |sx mx ex], y as [sy|sy| |sy my ey]; cbn;
    try discriminate; try (destruct sx; try destruct sy; cbn; congruence).
  change (Pos.compare_cont Eq mx my) with (Pos.compare mx my).
  change (Pos.compare_cont Eq my mx) with (Pos.compare my mx).
  rewrite (Z.compare_antisym ex ey), (Pos.compare_antisym mx my).
  destruct sx, sy, (ex ?= ey)%Z, (mx ?= my)%positive; cbn; congruence.
Qed.

(** [x < y] excludes [y <= x]. *)
Lemma ltb_leb_false (x y : float) : (x <? y) = true -> (y <=? x) = false.
Proof.
  rewrite FloatAxioms.ltb_spec, FloatAxioms.leb_spec. unfold SFltb, SFleb.
  destruct (SFcompare (Prim2SF x) (Prim2SF y)) as [[| |]|] eqn:E; try discriminate.
  now rewrite (SFcompare_Lt_Gt _ _ E).
Qed.

(** [x < y] excludes [y == x]. *)
Lemma ltb_eqb_false (x y : float) : (x <? y) = true -> (y =? x) = false.
Proof.
  rewrite FloatAxioms.ltb_spec, FloatAxioms.eqb_spec. unfold SFltb, SFeqb.
  destruct (SFcompare (Prim2SF x) (Prim2SF y)) as [[| |]|] eqn:E; try discriminate.
  now rewrite (SFcompare_Lt_Gt _ _ E).
Qed.

(** A positive divisor never raises. *)
Lemma fdiv_pos (a b : float) : (0 <? b) = true -> fdiv a b = Ok (a / b).
Proof. intros Hb. unfold fdiv. now rewrite (ltb_eqb_false _ _ Hb). Qed.

(** A positive finite number divided by itself is exactly one: the
    quotient of the mantissas is [2^53] with remainder zero. *)
Lemma div_self (x : float) :
  (0 <? x) = true -> (x <? infinity) = true -> x / x = 1.
Proof.
  intros Hpos Hfin.
  rewrite <- (FloatAxioms.SF2Prim_Prim2SF (x / x)), FloatAxioms.div_spec.
  rewrite FloatAxioms.ltb_spec in Hpos, Hfin.
  destruct (Prim2SF x) as [s|s| |s m e] eqn:E; try discriminate.
  - destruct s; discriminate.
  - destruct s; [discriminate|].
    unfold SF64div, SFdiv, SFdiv_core_binary. cbn [xorb].
    replace (Zdigits2 (Z.pos m) + e - (Zdigits2 (Z.pos m) + e))%Z with 0%Z by lia.
    replace (e - e)%Z with 0%Z by lia.
    change (Z.min (fexp prec emax 0) 0) with (-53)%Z.
    change (0 - -53)%Z with 53%Z. cbv iota beta zeta.
    replace (Z.div_eucl (Z.shiftl (Z.pos m) 53) (Z.pos m)) with (2 ^ 53, 0)%Z.
    + assert (Hloc : new_location (Z.pos m) 0 = loc_Exact).
      { unfold new_location. destruct (Z.even (Z.pos m)); reflexivity. }
      cbv iota beta. rewrite Hloc. reflexivity.
    + rewrite Z.shiftl_mul_pow2 by lia.
      pose proof (Z.div_eucl_eq (Z.pos m * 2 ^ 53) (Z.pos m) ltac:(lia)) as H.
      pose proof (Z.mod_pos_bound (Z.pos m * 2 ^ 53) (Z.pos m) ltac:(lia)) as Hb.
      unfold Z.modulo in Hb.
      destruct (Z.div_eucl (Z.pos m * 2 ^ 53) (Z.pos m)) as [q r].
      cbv zeta in H. remember (2 ^ 53)%Z as P. remember (Z.pos m) as M.
      assert (0 < M)%Z by lia.
      assert (q = P)%Z by nia. assert (r = 0)%Z by nia. now subst q r.
Qed.

End Floats.

(** ** Rounding a sum to binary64 *)

Section Rounding.

(** [iter_pos] iterates as many times as its count says. *)
Lemma iter_pos_nat {A : Type} (f : A -> A) (p : positive) (x : A) :
  SpecFloat.iter_pos f p x = Nat.iter (Pos.to_nat p) f x.
Proof.
  revert x. induction p as [p IH|p IH|]; intros x; cbn [SpecFloat.iter_pos].
  - rewrite !IH, Pos2Nat.inj_xI.
    replace (S (2 * Pos.to_nat p)) with (Pos.to_nat p + (Pos.to_nat p + 1))%nat by lia.
    rewrite !Nat.iter_add. reflexivity.
  - rewrite !IH, Pos2Nat.inj_xO.
    replace (2 * Pos.to_nat p)%nat with (Pos.to_nat p + Pos.to_nat p)%nat by lia.
    rewrite Nat.iter_add. reflexivity.
  - reflexivity.
Qed.

Lemma shr_1_spec (m : Z) (r s : bool) :
  0 <= m ->
  shr_1 (Build_shr_record m r s) = Build_shr_record (m / 2) (Z.odd m) (r || s).
Proof.
  intros Hm. destruct m as [|p|p]; [reflexivity| |lia].
  destruct p as [p|p|]; cbn [shr_1].
  - f_equal. rewrite Pos2Z.inj_xI. apply Z.div_unique with 1; lia.
  - f_equal. rewrite Pos2Z.inj_xO. apply Z.div_unique with 0; lia.
  - reflexivity.
Qed.

Lemma mod_pow2_succ (M : Z) (k : Z) :
  0 <= k ->
  M mod 2 ^ (k + 1) = M mod 2 ^ k + 2 ^ k * (if Z.testbit M k then 1 else 0).
Proof.
  intros Hk. rewrite Z.pow_add_r, Z.pow_1_r by lia.
  rewrite Z.rem_mul_r by lia. f_equal. f_equal.
  rewrite Z.testbit_odd, Z.shiftr_div_pow2 by lia.
  rewrite <- Z.bit0_mod. rewrite Z.bit0_odd. reflexivity.
Qed.

(** After k+1 one-bit shifts: quotient, round bit and sticky bit. *)
Lemma shr_iter_spec (M : Z) (k : nat) :
  0 <= M ->
  Nat.iter (S k) shr_1 (Build_shr_record M false false) =
    Build_shr_record (M / 2 ^ Z.of_nat (S k)) (Z.testbit M (Z.of_nat k))
                     (negb (M mod 2 ^ Z.of_nat k =? 0)).
Proof.
  intros HM. induction k as [|k IH].
  - cbn [Nat.iter]. rewrite shr_1_spec by assumption.
    change (Z.of_nat 0) with 0. change (Z.of_nat 1) with 1.
    rewrite Z.pow_0_r, Z.pow_1_r, Z.mod_1_r, Z.bit0_odd. reflexivity.
  - rewrite Nat.iter_succ, IH.
    assert (Hq : 0 <= M / 2 ^ Z.of_nat (S k))
      by (apply Z.div_pos; [assumption | apply Z.pow_pos_nonneg; lia]).
    rewrite shr_1_spec by assumption. f_equal.
    + rewrite Z.div_div by (try apply Z.pow_pos_nonneg; lia).
      f_equal. rewrite (Nat2Z.inj_succ (S k)), Z.pow_succ_r by lia. lia.
    + rewrite Z.testbit_odd, Z.shiftr_div_pow2 by lia. reflexivity.
    + rewrite (Nat2Z.inj_succ k), <- Z.add_1_r, mod_pow2_succ by lia.
      pose proof (Z.mod_pos_bound M (2 ^ Z.of_nat k) ltac:(apply Z.pow_pos_nonneg; lia)).
      assert (0 < 2 ^ Z.of_nat k) by (apply Z.pow_pos_nonneg; lia).
      destruct (Z.testbit M (Z.of_nat k)); cbn [orb].
      * symmetry. apply negb_true_iff, Z.eqb_neq. lia.
      * rewrite Z.mul_0_r, Z.add_0_r. reflexivity.
Qed.

Lemma digits2_bounds (p : positive) :
  2 ^ (Z.pos (digits2_pos p) - 1) <= Z.pos p < 2 ^ Z.pos (digits2_pos p).
Proof.
  induction p as [p IH|p IH|]; cbn [digits2_pos].
  - rewrite Pos2Z.inj_succ. change (Z.pos p~1) with (2 * Z.pos p + 1).
    replace (Z.succ (Z.pos (digits2_pos p)) - 1) with (Z.succ (Z.pos (digits2_pos p) - 1)) by lia.
    rewrite !Z.pow_succ_r by lia. lia.
  - rewrite Pos2Z.inj_succ. change (Z.pos p~0) with (2 * Z.pos p).
    replace (Z.succ (Z.pos (digits2_pos p)) - 1) with (Z.succ (Z.pos (digits2_pos p) - 1)) by lia.
    rewrite !Z.pow_succ_r by lia. lia.
  - cbn. lia.
Qed.

Lemma Zdigits2_unique (x k : Z) :
  2 ^ (k - 1) <= x < 2 ^ k -> 1 <= k -> Zdigits2 x = k.
Proof.
  intros Hx Hk.
  assert (0 < x) by (pose proof (Z.pow_pos_nonneg 2 (k - 1)); lia).
  destruct x as [|p|p]; try lia. cbn [Zdigits2].
  pose proof (digits2_bounds p) as Hd.
  set (d := Z.pos (digits2_pos p)) in *.
  destruct (Z.lt_trichotomy d k) as [Hlt|[Heq|Hgt]]; [|assumption|].
  - pose proof (Z.pow_le_mono_r 2 d (k - 1) ltac:(lia) ltac:(lia)). lia.
  - pose proof (Z.pow_le_mono_r 2 k (d - 1) ltac:(lia) ltac:(lia)). lia.
Qed.

(** A mantissa that already has 53 digits is kept. *)
Lemma binary_round_aux_exact (M ez : Z) :
  2 ^ 52 <= M < 2 ^ 53 -> -1074 <= ez ->
  binary_round_aux prec emax false M ez loc_Exact = finite_or_inf M ez.
Proof.
  intros HM Hez. unfold binary_round_aux, shr_fexp.
  rewrite (Zdigits2_unique M 53) by lia.
  replace (fexp prec emax (53 + ez) - ez) with 0
    by (unfold fexp, SpecFloat.emin, prec, emax; lia).
  cbn [shr shr_record_of_loc shr_m loc_of_shr_record round_nearest_even].
  rewrite (Zdigits2_unique M 53) by lia.
  replace (fexp prec emax (53 + ez) - ez) with 0
    by (unfold fexp, SpecFloat.emin, prec, emax; lia).
  cbn [shr shr_record_of_loc shr_m]. unfold finite_or_inf.
  destruct M; try lia. reflexivity.
Qed.

(** A mantissa with more than 53 digits is cut to 53 and rounded to
    nearest, ties to even. *)
Lemma binary_round_aux_round (M ez n : Z) :
  0 < n -> 2 ^ (52 + n) <= M < 2 ^ (53 + n) -> -1074 <= ez ->
  exists q',
    (q' = M / 2 ^ n \/
     (q' = M / 2 ^ n + 1 /\ 2 ^ (n - 1) <= M mod 2 ^ n /\
      (M mod 2 ^ n = 2 ^ (n - 1) -> Z.odd (M / 2 ^ n) = true))) /\
    binary_round_aux prec emax false M ez loc_Exact =
      if q' <? 2 ^ 53 then finite_or_inf q' (ez + n)
      else finite_or_inf (2 ^ 52) (ez + n + 1).
Proof.
  intros Hn HM Hez.
  assert (Hq : 2 ^ 52 <= M / 2 ^ n < 2 ^ 53).
  { rewrite !Z.pow_add_r in HM by lia.
    assert (0 < 2 ^ n) by (apply Z.pow_pos_nonneg; lia).
    split; [apply Z.div_le_lower_bound | apply Z.div_lt_upper_bound]; lia. }
  unfold binary_round_aux, shr_fexp.
  rewrite (Zdigits2_unique M (53 + n)) by (replace (53 + n - 1) with (52 + n) by lia; lia).
  replace (fexp prec emax (53 + n + ez) - ez) with n
    by (unfold fexp, SpecFloat.emin, prec, emax; lia).
  destruct n as [|p|p]; try lia. cbn [shr shr_record_of_loc].
  rewrite iter_pos_nat.
  destruct (Pos2Nat.is_succ p) as (k & Hk). rewrite Hk.
  rewrite shr_iter_spec by (pose proof (Z.pow_pos_nonneg 2 (52 + Z.pos p)); lia).
  assert (Hp : Z.pos p = Z.of_nat (S k)) by lia.
  rewrite <- Hp.
  set (q := M / 2 ^ Z.pos p) in *.
  set (rbit := Z.testbit M (Z.of_nat k)).
  set (sticky := negb (M mod 2 ^ Z.of_nat k =? 0)).
  cbn [shr_m].
  set (q' := round_nearest_even q (loc_of_shr_record (Build_shr_record q rbit sticky))).
  assert (Hq' : q' = q \/
     (q' = q + 1 /\ 2 ^ (Z.pos p - 1) <= M mod 2 ^ Z.pos p /\
      (M mod 2 ^ Z.pos p = 2 ^ (Z.pos p - 1) -> Z.odd q = true))).
  { replace (Z.pos p - 1) with (Z.of_nat k) by lia.
    replace (Z.pos p) with (Z.of_nat k + 1) by lia.
    rewrite mod_pow2_succ by lia. fold rbit.
    pose proof (Z.mod_pos_bound M (2 ^ Z.of_nat k) ltac:(apply Z.pow_pos_nonneg; lia)) as Hb.
    subst q' sticky. cbn [loc_of_shr_record].
    destruct rbit; destruct (M mod 2 ^ Z.of_nat k =? 0) eqn:Es; cbn [negb round_nearest_even].
    - apply Z.eqb_eq in Es. destruct (Z.even q) eqn:Ev; [now left|].
      right. repeat split; [lia|]. intros _. now rewrite <- Z.negb_even, Ev.
    - apply Z.eqb_neq in Es. right. repeat split; lia.
    - now left.
    - now left. }
  exists q'. split; [exact Hq'|].
  assert (Hq'b : 2 ^ 52 <= q' <= 2 ^ 53) by lia.
  destruct (q' <? 2 ^ 53) eqn:Elt.
  - apply Z.ltb_lt in Elt.
    rewrite (Zdigits2_unique q' 53) by lia.
    replace (fexp prec emax (53 + (ez + Z.pos p)) - (ez + Z.pos p)) with 0
      by (unfold fexp, SpecFloat.emin, prec, emax; lia).
    cbn [shr shr_record_of_loc shr_m]. unfold finite_or_inf.
    destruct q'; try lia. reflexivity.
  - apply Z.ltb_ge in Elt. assert (Eq' : q' = 2 ^ 53) by lia.
    rewrite Eq'. change (Zdigits2 (2 ^ 53)) with 54.
    replace (fexp prec emax (54 + (ez + Z.pos p)) - (ez + Z.pos p)) with 1
      by (unfold fexp, SpecFloat.emin, prec, emax; lia).
    reflexivity.
Qed.

Lemma pos_iter_xO (m d : positive) : Z.pos (Pos.iter xO m d) = Z.pos m * 2 ^ Z.pos d.
Proof.
  rewrite Pos2Nat.inj_iter, <- (positive_nat_Z d).
  induction (Pos.to_nat d) as [|k IH].
  - cbn [nat_rect]. change (Z.of_nat 0) with 0. rewrite Z.pow_0_r. lia.
  - rewrite Nat2Z.inj_succ, Z.pow_succ_r by lia. cbn [nat_rect].
    rewrite Pos2Z.pos_xO, IH. lia.
Qed.

Lemma shl_align_fst (m : positive) (e e' : Z) :
  e' <= e -> Z.pos (fst (shl_align m e e')) = Z.pos m * 2 ^ (e - e').
Proof.
  intros He. unfold shl_align. destruct (e' - e) as [|d|d] eqn:E; try lia; cbn [fst].
  - replace (e - e') with 0 by lia. lia.
  - rewrite pos_iter_xO. f_equal. f_equal. lia.
Qed.

Lemma shl_align_id (m : positive) (e e' : Z) : e <= e' -> shl_align m e e' = (m, e).
Proof. intros He. unfold shl_align. destruct (e' - e) eqn:E; try lia; reflexivity. Qed.

Lemma weight_acc (y : spec_float) : weight_sf y -> acc_sf y.
Proof.
  destruct y as [s|s| |s m e]; cbn; try tauto.
  intros (-> & Hm & He & Hv). repeat split; try lia.
Qed.

Lemma pow2_le_inv (a b : Z) : 0 <= a -> 2 ^ a <= 2 ^ b -> a <= b.
Proof.
  intros Ha H. destruct (Z.le_gt_cases a b) as [|Hgt]; [assumption|].
  destruct (Z.lt_ge_cases b 0) as [Hb|Hb].
  - rewrite (Z.pow_neg_r 2 b Hb) in H. pose proof (Z.pow_pos_nonneg 2 a). lia.
  - pose proof (Z.pow_lt_mono_r 2 b a). lia.
Qed.

(** The arithmetic of one rounding: cutting [n] bits off a sum of at most
    [2^53 + 1] (in units of [2^-59]) gives at most [2^53]: the only sum
    above [2^53] is the tie [2^53 + 1], which goes to the even [2^52]. *)
Lemma round_value_bound (M q q' rem n ez : Z) :
  0 < n -> -59 <= ez ->
  M = 2 ^ n * q + rem -> 0 <= rem < 2 ^ n -> 2 ^ 52 <= q < 2 ^ 53 ->
  M * 2 ^ (ez + 59) <= 2 ^ 112 + 2 ^ 59 ->
  (q' = q \/ (q' = q + 1 /\ 2 ^ (n - 1) <= rem /\ (rem = 2 ^ (n - 1) -> Z.odd q = true))) ->
  ez + n + 59 <= 60 /\ q' * 2 ^ (ez + n + 59) <= 2 ^ 112.
Proof.
  intros Hn Hez HM Hrem Hq HS Hq'.
  assert (HW : 2 ^ (ez + n + 59) = 2 ^ n * 2 ^ (ez + 59)).
  { rewrite <- Z.pow_add_r by lia. f_equal. lia. }
  assert (HH : 2 ^ (ez + n + 59) = 2 * (2 ^ (n - 1) * 2 ^ (ez + 59))).
  { rewrite <- Z.pow_add_r, <- Z.pow_succ_r by lia. f_equal. lia. }
  remember (2 ^ (ez + n + 59)) as W eqn:EW.
  remember (2 ^ (ez + 59)) as U eqn:EU.
  remember (2 ^ n) as P eqn:EP.
  remember (2 ^ (n - 1)) as H eqn:EH.
  assert (HU : 0 < U) by (subst U; apply Z.pow_pos_nonneg; lia).
  assert (HP : 0 < P) by (subst P; apply Z.pow_pos_nonneg; lia).
  assert (HRU : 0 <= rem * U) by (apply Z.mul_nonneg_nonneg; lia).
  assert (HSW : M * U = q * W + rem * U) by (rewrite HM, HW; ring).
  assert (HE : ez + n + 59 <= 60).
  { destruct (Z.le_gt_cases (ez + n + 59) 60) as [|Hgt]; [assumption|]. exfalso.
    pose proof (Z.pow_le_mono_r 2 61 (ez + n + 59) ltac:(lia) ltac:(lia)) as Hmono.
    rewrite <- EW in Hmono.
    pose proof (Z.mul_le_mono_nonneg (2 ^ 52) q (2 ^ 61) W ltac:(lia) ltac:(lia)
                  ltac:(lia) Hmono) as Hmul.
    change (2 ^ 52 * 2 ^ 61) with (2 ^ 113) in Hmul. lia. }
  split; [exact HE|].
  destruct (Z.le_gt_cases (q' * W) (2 ^ 112)) as [|Hgt]; [assumption|]. exfalso.
  assert (Hq'le : 0 <= q' <= 2 ^ 53) by lia.
  assert (HE60 : ez + n + 59 = 60).
  { destruct (Z.le_gt_cases (ez + n + 59) 59) as [Hle|]; [|lia]. exfalso.
    pose proof (Z.pow_le_mono_r 2 (ez + n + 59) 59 ltac:(lia) Hle) as Hmono.
    rewrite <- EW in Hmono.
    assert (0 <= W) by (subst W; apply Z.pow_nonneg; lia).
    pose proof (Z.mul_le_mono_nonneg q' (2 ^ 53) W (2 ^ 59) ltac:(lia) ltac:(lia)
                  ltac:(lia) Hmono) as Hmul.
    change (2 ^ 53 * 2 ^ 59) with (2 ^ 112) in Hmul. lia. }
  rewrite HE60 in EW. subst W.
  destruct Hq' as [->|(-> & Hhalf & Htie)].
  - lia.
  - assert (Hru : H * U <= rem * U) by (apply Z.mul_le_mono_nonneg_r; lia).
    assert (Eq : q = 2 ^ 52) by lia.
    assert (Eru : rem * U = H * U) by lia.
    apply Z.mul_reg_r in Eru; [|lia].
    specialize (Htie Eru). rewrite Eq in Htie. discriminate Htie.
Qed.

Lemma SFadd_acc (x y : spec_float) :
  acc_sf x -> weight_sf y ->
  acc_sf (SF64add x y) /\ (pos_sf x \/ pos_sf y -> pos_sf (SF64add x y)).
Proof.
  destruct x as [sx|sx| |sx mx ex]; cbn [acc_sf]; try tauto;
  destruct y as [sy|sy| |sy my ey]; cbn [weight_sf]; try tauto.
  - intros -> ->. cbn. tauto.
  - intros -> (-> & Hm & He & Hv).
    change (SF64add (S754_zero false) (S754_finite false my ey))
      with (S754_finite false my ey).
    split; [|now intros _]. apply weight_acc. cbn [weight_sf]. tauto.
  - intros (-> & Hm & He & Hv) ->.
    change (SF64add (S754_finite false mx ex) (S754_zero false))
      with (S754_finite false mx ex).
    split; [|now intros _]. cbn [acc_sf]. tauto.
  - intros (-> & Hmx & Hex & Hvx) (-> & Hmy & Hey & Hvy).
    unfold SF64add, SFadd. cbn [cond_Zopp].
    set (ez := Z.min ex ey).
    rewrite !shl_align_fst by lia.
    set (M := Z.pos mx * 2 ^ (ex - ez) + Z.pos my * 2 ^ (ey - ez)).
    assert (Hpa : 1 <= 2 ^ (ex - ez)) by (pose proof (Z.pow_pos_nonneg 2 (ex - ez)); lia).
    assert (Hpb : 1 <= 2 ^ (ey - ez)) by (pose proof (Z.pow_pos_nonneg 2 (ey - ez)); lia).
    assert (HM52 : 2 ^ 52 <= M) by nia.
    destruct M as [|Mp|Mp] eqn:EM; try lia. cbn [binary_normalize].
    unfold binary_round.
    pose proof (digits2_bounds Mp) as Hd.
    set (d := Z.pos (digits2_pos Mp)) in *.
    assert (Hd53 : 53 <= d).
    { destruct (Z.lt_ge_cases d 53) as [Hlt|]; [|assumption].
      pose proof (Z.pow_le_mono_r 2 d 52 ltac:(lia) ltac:(lia)). lia. }
    rewrite shl_align_id by (unfold fexp, SpecFloat.emin, prec, emax; lia).
    (* the exact sum, scaled by 2^59 *)
    set (U := 2 ^ (ez + 59)).
    assert (HU : 1 <= U) by (subst U; pose proof (Z.pow_pos_nonneg 2 (ez + 59)); lia).
    assert (HS : Z.pos Mp * U <= 2 ^ 112 + 2 ^ 59).
    { rewrite <- EM. subst M U. rewrite Z.mul_add_distr_r, <- !Z.mul_assoc.
      rewrite <- !Z.pow_add_r by lia.
      replace (ex - ez + (ez + 59)) with (ex + 59) by lia.
      replace (ey - ez + (ez + 59)) with (ey + 59) by lia. lia. }
    destruct (Z.eq_dec d 53) as [E53|N53].
    + rewrite binary_round_aux_exact by (rewrite E53 in Hd; cbn in Hd; lia).
      cbn [finite_or_inf]. unfold emax, prec.
      rewrite (proj2 (Z.leb_le ez (1024 - 53))) by lia.
      split; [|now intros _]. cbn [acc_sf]. rewrite E53 in Hd.
      assert (2 ^ (ez + 59) <= 2 ^ 7) by (apply Z.pow_le_mono_r; lia).
      change (53 - 1) with 52 in Hd.
      split; [reflexivity|]. split; [lia|]. split; [lia|]. nia.
    + set (n := d - 53).
      assert (HdM : 2 ^ (52 + n) <= Z.pos Mp < 2 ^ (53 + n)).
      { replace (52 + n) with (d - 1) by lia. replace (53 + n) with d by lia. exact Hd. }
      destruct (binary_round_aux_round (Z.pos Mp) ez n ltac:(lia) HdM ltac:(lia))
        as (q' & Hq' & ->).
      set (q := Z.pos Mp / 2 ^ n) in *.
      set (rem := Z.pos Mp mod 2 ^ n) in *.
      set (P := 2 ^ n).
      assert (HP : 0 < P) by (apply Z.pow_pos_nonneg; lia).
      assert (Hdm : Z.pos Mp = P * q + rem) by (apply Z.div_mod; lia).
      assert (Hrem : 0 <= rem < P) by (apply Z.mod_pos_bound; lia).
      assert (Hq : 2 ^ 52 <= q < 2 ^ 53).
      { replace d with (53 + n) in Hd by lia. replace (53 + n - 1) with (52 + n) in Hd by lia.
        rewrite !Z.pow_add_r in Hd by lia. fold P in Hd. fold P.
        split; [apply Z.div_le_lower_bound | apply Z.div_lt_upper_bound]; lia. }
      destruct (round_value_bound (Z.pos Mp) q q' rem n ez ltac:(lia) ltac:(lia)
                  Hdm Hrem Hq HS Hq') as (HE & Hval).
      assert (Hq'b : 2 ^ 52 <= q' <= 2 ^ 53) by lia.
      destruct (q' <? 2 ^ 53) eqn:Elt.
      * apply Z.ltb_lt in Elt. destruct q' as [|q'p|q'p]; try lia.
        cbn [finite_or_inf]. unfold emax, prec.
        rewrite (proj2 (Z.leb_le (ez + n) (1024 - 53))) by lia.
        split; [|now intros _]. cbn [acc_sf].
        repeat split; lia.
      * apply Z.ltb_ge in Elt. assert (q' = 2 ^ 53) by lia. subst q'.
        change (finite_or_inf (2 ^ 52) (ez + n + 1))
          with (if ez + n + 1 <=? emax - prec
                then S754_finite false 4503599627370496 (ez + n + 1)
                else S754_infinity false).
        unfold emax, prec.
        rewrite (proj2 (Z.leb_le (ez + n + 1) (1024 - 53))) by lia.
        split; [|now intros _]. cbn [acc_sf].
        replace (ez + n + 1 + 59) with (Z.succ (ez + n + 59)) by lia.
        rewrite Z.pow_succ_r by lia.
        change (Z.pos 4503599627370496) with (2 ^ 52).
        change (2 ^ 53) with (2 * 2 ^ 52) in Hval.
        repeat split; lia.
Qed.

Lemma weight_sfb_true (y : spec_float) : weight_sfb y = true -> weight_sf y.
Proof.
  destruct y as [s|s| |s m e]; cbn [weight_sfb weight_sf]; try discriminate.
  - now intros ->%negb_true_iff.
  - rewrite !andb_true_iff, negb_true_iff, !Z.leb_le, !Z.ltb_lt. tauto.
Qed.

Lemma pos_sfb_true (x : spec_float) : pos_sfb x = true -> pos_sf x.
Proof. destruct x as [s|s| |[|] m e]; cbn; congruence || tauto. Qed.

End Rounding.

Section Sums.

Local Open Scope float_scope.

(** A sum of weights from zero stays within the invariant, and is
    positive as soon as one weight is. *)
Lemma sum_acc (ws : list float) (a : float) :
  acc_sf (Prim2SF a) ->
  Forall (fun w => weight_sf (Prim2SF w)) ws ->
  acc_sf (Prim2SF (fold_left PrimFloat.add ws a)) /\
  (pos_sf (Prim2SF a) \/ Exists (fun w => pos_sf (Prim2SF w)) ws ->
   pos_sf (Prim2SF (fold_left PrimFloat.add ws a))).
Proof.
  revert a. induction ws as [|w ws IH]; intros a Ha Hws; cbn [fold_left].
  - split; [exact Ha|]. intros [H|H]; [exact H | inversion H].
  - inversion Hws as [|? ? Hw Hws']; subst.
    destruct (SFadd_acc (Prim2SF a) (Prim2SF w) Ha Hw) as (Hacc & Hpos).
    rewrite <- FloatAxioms.add_spec in Hacc, Hpos.
    destruct (IH (a + w) Hacc Hws') as (IHacc & IHpos).
    split; [exact IHacc|]. intros [H|H]; apply IHpos.
    + left. apply Hpos. now left.
    + inversion H as [? ? Hw'|? ? Hex]; subst.
      * left. apply Hpos. now right.
      * now right.
Qed.

(** A positive finite number is above zero and below infinity. *)
Lemma pos_sf_ltb (x : float) :
  pos_sf (Prim2SF x) -> (0 <? x) = true /\ (x <? infinity) = true.
Proof.
  rewrite !FloatAxioms.ltb_spec.
  destruct (Prim2SF x) as [s|s| |[|] m e]; cbn [pos_sf]; intros H;
    try contradiction; split; reflexivity.
Qed.

End Sums.

(** ** The claims about the quality gate *)

(** [verify] answers with [verdict_of] on the counted votes. *)
Lemma verify_verdict (self : agent) (result : value) (r : verdict) :
  verify self result = Ok r ->
  exists vs v, multi_agent_verification result 3 = Ok vs /\
               apply_voting result vs = Ok v /\ r = verdict_of self vs v.
Proof.
  unfold verify. destruct (multi_agent_verification result 3) as [vs|]; [|discriminate].
  cbn [bind]. destruct (apply_voting result vs) as [v|] eqn:Ev; [|discriminate].
  cbn [bind]. intros [= <-]. now exists vs, v.
Qed.

(** C4: [verify] scores the outcome of its verification round with
    [_calculate_quality_score] and answers from that score.  Whenever
    [verify] returns, its answer is the verdict of the round it ran:
    the quality score is [min(1.0, consensus_strength + bonus)] with a
    bonus of 0.1 when all verifiers agree and 0 otherwise, and the result
    is verified exactly when the score is at least 0.7; whenever the
    round returns, [verify] returns that verdict.  For every outcome of
    a round, a strength of exactly 0.7 without unanimity is verified and
    any score below 0.7 is not. *)
Theorem quality_gate (id : string) :
  let self := QualityAgent.init id in
  (forall (result : value) (r : verdict),
     verify self result = Ok r ->
     exists vs v,
       multi_agent_verification result 3 = Ok vs /\
       apply_voting result vs = Ok v /\
       r = verdict_of self vs v /\
       verification_details r = v /\
       verification_count r = len vs /\
       quality_score r = _calculate_quality_score v /\
       quality_score r =
         Py.min 1.0 (consensus_strength v + (if all_agree v then 0.1 else 0))%float /\
       confidence r = quality_score r /\
       (verified r = true <-> (0.7 <=? quality_score r)%float = true) /\
       ((quality_score r <? 0.7)%float = true -> verified r = false)) /\
  (forall (result : value) (vs : list verification) (v : voting),
     multi_agent_verification result 3 = Ok vs ->
     apply_voting result vs = Ok v ->
     verify self result = Ok (verdict_of self vs v)) /\
  (forall (vs : list verification) (v : voting),
     let r := verdict_of self vs v in
     quality_score r =
       Py.min 1.0 (consensus_strength v + (if all_agree v then 0.1 else 0))%float /\
     (verified r = true <-> (0.7 <=? quality_score r)%float = true) /\
     (consensus_strength v = 0.7%float -> all_agree v = false -> verified r = true) /\
     ((quality_score r <? 0.7)%float = true -> verified r = false)).
Proof.
  cbn zeta. split; [|split].
  - intros result r Hr.
    destruct (verify_verdict _ _ _ Hr) as (vs & v & Hvs & Hv & ->).
    exists vs, v. split; [exact Hvs|]. split; [exact Hv|].
    split; [reflexivity|]. split; [reflexivity|]. split; [reflexivity|].
    split; [reflexivity|]. split; [reflexivity|]. split; [reflexivity|].
    split; [reflexivity|].
    intros Hlt. cbn in *. now apply ltb_leb_false.
  - intros result vs v Hvs Hv. unfold verify. rewrite Hvs. cbn [bind].
    rewrite Hv. reflexivity.
  - intros vs v. split; [reflexivity|]. split; [reflexivity|]. split.
    + intros Hcs Hagree. cbn. unfold _calculate_quality_score.
      rewrite Hcs, Hagree. reflexivity.
    + intros Hlt. cbn in *. now apply ltb_leb_false.
Qed.

(** [verify] on the dict [{"data": "test"}]: the answer is verified, since
    its score is not below the gate; then a round at the boundary and a
    round below it. *)
Lemma quality_gate_witness :
  let self := QualityAgent.init "quality-001" in
  let at_boundary := Voting "a" 7 10 0.7 [("a", 7); ("b", 3)] false in
  let below := Voting "a" 2 3 (2 / 3) [("a", 2); ("b", 1)] false in
  (exists r, verify self (VDict [(KStr "data", VStr "test")]) = Ok r /\
             verified r = true /\ quality_score r = 1.0%float) /\
  verified (verdict_of self [] at_boundary) = true /\
  verified (verdict_of self [] below) = false.
Proof.
  cbn zeta. split; [|split].
  - destruct (verify (QualityAgent.init "quality-001")
                     (VDict [(KStr "data", VStr "test")])) as [r|e] eqn:Hr.
    + destruct (proj1 (quality_gate "quality-001") _ _ Hr)
        as (vs & v & _ & _ & _ & _ & _ & _ & _ & _ & Hiff & _).
      exists r. split; [reflexivity|].
      vm_compute in Hr. injection Hr as <-.
      split; [apply Hiff|]; reflexivity.
    + vm_compute in Hr. discriminate Hr.
  - apply (proj2 (proj2 (quality_gate "quality-001")) []); reflexivity.
  - apply (proj2 (proj2 (quality_gate "quality-001")) []). reflexivity.
Defined.

(** ** The claims about the reputation-weighted vote *)

Lemma sum_filter_weight (P : ballot -> bool) (votes : list ballot) :
  Py.sum (map weight (List.filter P votes)) = weight_sum P votes.
Proof.
  unfold Py.sum, weight_sum. generalize 0%float as acc.
  induction votes as [|v votes IH]; intros acc; cbn; [reflexivity|].
  destruct (P v); cbn; apply IH.
Qed.

Lemma sum_weight (votes : list ballot) :
  Py.sum (map weight votes) = weight_sum every_vote votes.
Proof.
  rewrite <- sum_filter_weight. do 2 f_equal.
  induction votes as [|v votes IH]; cbn; congruence.
Qed.

(** [_calculate_consensus] on a non-empty list, in terms of the two sums. *)
Lemma calculate_consensus_cons (v : ballot) (votes : list ballot) :
  let tw := weight_sum every_vote (v :: votes) in
  let aw := weight_sum is_approve (v :: votes) in
  let s := (if 0 <? tw then aw / tw else 0)%float in
  _calculate_consensus (v :: votes) =
    Ok {| strength := s;
          result := if (0.66 <=? s)%float then "approved" else "rejected";
          approve_votes := Some (len (List.filter is_approve (v :: votes)));
          total_votes := Some (len (v :: votes)) |}.
Proof.
  cbn zeta. unfold _calculate_consensus.
  rewrite sum_weight, sum_filter_weight.
  destruct (0 <? weight_sum every_vote (v :: votes))%float eqn:Hpos.
  - now rewrite fdiv_pos.
  - reflexivity.
Qed.

Lemma generate_vote_ok (self : orchestrator) (results : list value) (i : Z) :
  _generate_vote self results i =
    Ok {| voter_id := "voter-" +:+ str i;
          result_hash := prefix 16 (SHA256.hexdigest (utf8_encode (repr (VList results))));
          vote_choice := "approve";
          reputation := default 50 (reputation_scores self !! ("voter-" +:+ str i));
          weight := PrimFloat.div
                      (float_of_Z (default 50 (reputation_scores self !! ("voter-" +:+ str i))))
                      100.0%float |}.
Proof. reflexivity. Qed.

(** The orchestrator starts with a table within bounds and
    [update_reputation] keeps it so. *)
Lemma ledger_ok_init (hydra : bool) : ledger_ok (MAKEROrchestrator.init hydra).
Proof. apply map_Forall_empty. Qed.

Lemma ledger_ok_update (self : orchestrator) (agent_id : string) (score : Z) :
  ledger_ok self -> ledger_ok (update_reputation self agent_id score).
Proof.
  intros H. unfold ledger_ok, update_reputation. cbn [reputation_scores].
  apply map_Forall_insert_2; [lia | exact H].
Qed.

Lemma reputation_of_bounds (self : orchestrator) (i : Z) :
  ledger_ok self -> 0 <= reputation_of self i <= 100.
Proof.
  intros H. unfold reputation_of.
  destruct (reputation_scores self !! ("voter-" +:+ str i)) as [r|] eqn:E; cbn; [|lia].
  exact (H _ _ E).
Qed.

(** C6: with the scores of the table within [0, 100], a vote weighs its
    voter's reputation divided by 100.0, so a reputation of 0 weighs
    nothing; the consensus strength of a round
    whose total weight is positive is the approving weight divided by the
    total weight; the result is "approved" exactly when the strength is at
    least 0.66; one approving vote of weight 1.0 against one opposing vote
    of weight 0.0 has strength 1.0. *)
Theorem weighted_consensus :
  (forall (self : orchestrator) (results : list value) (i : Z),
     ledger_ok self ->
     exists b, _generate_vote self results i = Ok b /\
       reputation b = default 50 (reputation_scores self !! ("voter-" +:+ str i)) /\
       0 <= reputation b <= 100 /\
       weight b = (float_of_Z (reputation b) / 100.0)%float /\
       (reputation b = 0 -> weight b = 0%float)) /\
  (forall votes : list ballot,
     exists c, _calculate_consensus votes = Ok c /\
       ((0 <? weight_sum every_vote votes)%float = true ->
        strength c = (weight_sum is_approve votes / weight_sum every_vote votes)%float) /\
       (result c = "approved" <-> (0.66 <=? strength c)%float = true)) /\
  (forall h : string,
     exists c, _calculate_consensus
                 [Ballot "voter-0" h "approve" 100 1.0; Ballot "voter-1" h "reject" 0 0.0]
               = Ok c /\ strength c = 1.0%float /\ result c = "approved").
Proof.
  split; [|split].
  - intros self results i Hok. rewrite generate_vote_ok. eexists. split; [reflexivity|].
    cbn [reputation weight]. split; [reflexivity|].
    split; [exact (reputation_of_bounds self i Hok)|].
    split; [reflexivity|]. now intros ->.
  - intros [|v votes].
    + eexists. split; [reflexivity|]. cbn. split; [discriminate|]. split; discriminate.
    + rewrite calculate_consensus_cons. eexists. split; [reflexivity|].
      cbn [strength result]. split.
      * now intros ->.
      * destruct (0.66 <=? _)%float; split; (reflexivity || discriminate).
  - intros h. eexists. split; [reflexivity|]. split; reflexivity.
Qed.

(** A fresh orchestrator weighs an unknown voter 0.5; a round of weights
    0.8 for and 0.2 against has strength 0.8. *)
Lemma weighted_consensus_witness :
  (exists b, _generate_vote (MAKEROrchestrator.init false) [VInt 1] 0 = Ok b /\
     reputation b = 50 /\ weight b = 0.5%float) /\
  exists c, _calculate_consensus
              [Ballot "voter-0" "0f" "approve" 80 0.8; Ballot "voter-1" "0f" "reject" 20 0.2]
            = Ok c /\ strength c = 0.8%float /\ result c = "approved".
Proof.
  split.
  - destruct (proj1 weighted_consensus (MAKEROrchestrator.init false) [VInt 1] 0
                (ledger_ok_init false)) as (b & Hb & Hr & _ & Hw & _).
    exists b. split; [exact Hb|]. split; [exact Hr|].
    rewrite Hw, Hr. reflexivity.
  - destruct (proj1 (proj2 weighted_consensus)
                [Ballot "voter-0" "0f" "approve" 80 0.8; Ballot "voter-1" "0f" "reject" 20 0.2])
      as (c & Hc & Hs & Hr).
    exists c. split; [exact Hc|].
    assert (E : strength c = 0.8%float) by (rewrite Hs; reflexivity).
    split; [exact E|]. apply Hr. rewrite E. reflexivity.
Defined.

(** ** The claims about an empty round *)

(** C1 at its failing input: with no verification at all [apply_voting]
    raises the [ValueError] of [max] on an empty sequence, also when
    reached through [verify_with_voting]; [_calculate_consensus] returns
    strength 0.0 and "no_consensus" on no votes. *)
Theorem empty_round (self : agent) (original_result : value)
    (subtask : list (key * value)) :
  apply_voting original_result [] = Raise ValueError /\
  verify_with_voting self subtask [] = Raise ValueError /\
  _calculate_consensus [] =
    Ok {| strength := 0.0%float; result := "no_consensus";
          approve_votes := None; total_votes := None |}.
Proof. repeat split. Qed.

(** ** The claims about [verify] with the default verifiers *)

Lemma multi_agent_verification_three (result : value) (h : string) :
  hash_result result = Ok h ->
  let v i := {| v_agent_id := "verifier-" +:+ str i; v_hash := h; v_output := result;
                v_is_valid := Some (0 <? len (list_ascii_of_string h));
                v_confidence :=
                  Some (if 0 <? len (list_ascii_of_string h)
                        then 0.9%float else 0.1%float) |} in
  multi_agent_verification result 3 = Ok [v 0; v 1; v 2].
Proof.
  intros Hh. cbn zeta. unfold multi_agent_verification.
  change (range 3) with [0; 1; 2]. cbn [for_each].
  unfold verify_with_agent. rewrite Hh. reflexivity.
Qed.

Lemma group_append_head (h : string) (v : verification) (g : list verification)
    (rest : list (string * list verification)) :
  group_append h v ((h, g) :: rest) = (h, g ++ [v]) :: rest.
Proof. cbn. now rewrite String.eqb_refl. Qed.

Lemma group_append_nil (h : string) (v : verification) :
  group_append h v [] = [(h, [v])].
Proof. reflexivity. Qed.

(** C9: every result that [json.dumps] can serialise is verified by the
    default round with quality score 1.0: the three verifiers hash the
    same input, so the three hashes form one group. *)
Theorem verify_default_unanimous (id : string) (result : value) (h : string) :
  hash_result result = Ok h ->
  exists r, verify (QualityAgent.init id) result = Ok r /\
    verified r = true /\
    quality_score r = 1.0%float /\
    verification_count r = 3 /\
    all_agree (verification_details r) = true /\
    majority_hash (verification_details r) = h /\
    majority_count (verification_details r) = 3.
Proof.
  intros Hh. unfold verify.
  rewrite (multi_agent_verification_three result h Hh). cbn [bind].
  match goal with
  | |- context [apply_voting _ [?v0; ?v1; ?v2]] =>
      assert (Hg : group_by_hash [v0; v1; v2] = [(h, [v0; v1; v2])])
        by (unfold group_by_hash; cbn [fold_left v_hash];
            rewrite group_append_nil, !group_append_head; reflexivity)
  end.
  unfold apply_voting. rewrite Hg.
  cbn [map fst max_by max_from bind group_of]. rewrite String.eqb_refl.
  eexists. split; [reflexivity|]. repeat split.
Qed.

Lemma verify_default_unanimous_witness :
  exists r,
    verify (QualityAgent.init "quality-001")
           (VDict [(KStr "data", VStr "test"); (KStr "value", VInt 42)]) = Ok r /\
    verified r = true /\
    quality_score r = 1.0%float /\
    verification_count r = 3 /\
    all_agree (verification_details r) = true /\
    majority_hash (verification_details r) =
      "9f3a1dc234ad8799aea3984736a10463e921cdff3dd1d824c4ce6a488c6ec6fe" /\
    majority_count (verification_details r) = 3.
Proof.
  apply (verify_default_unanimous "quality-001"
           (VDict [(KStr "data", VStr "test"); (KStr "value", VInt 42)])).
  vm_compute. reflexivity.
Defined.

(** ** The claims about the majority of a round *)

Section Voting.

Implicit Types (h : string) (v : verification) (vs : list verification)
  (groups : list (string * list verification)).

Lemma group_of_append h h' v groups :
  group_of h (group_append h' v groups) =
    if String.eqb h' h then group_of h groups ++ [v] else group_of h groups.
Proof.
  induction groups as [|[k g] rest IH]; cbn.
  - now destruct (String.eqb h' h).
  - destruct (String.eqb k h') eqn:Ek; cbn.
    + apply String.eqb_eq in Ek. subst k.
      now destruct (String.eqb h' h).
    + destruct (String.eqb k h) eqn:Ekh.
      * apply String.eqb_eq in Ekh. subst k. now rewrite String.eqb_sym, Ek.
      * exact IH.
Qed.

(** The group of [h] collects the verifications with hash [h], in order. *)
Lemma group_of_fold h vs groups :
  group_of h (fold_left add_vote vs groups) =
    group_of h groups ++ List.filter (fun v => String.eqb (v_hash v) h) vs.
Proof.
  revert groups. induction vs as [|v vs IH]; intros groups; cbn.
  - now rewrite app_nil_r.
  - rewrite IH. unfold add_vote. rewrite group_of_append.
    destruct (String.eqb (v_hash v) h); [now rewrite <- app_assoc | reflexivity].
Qed.

Lemma len_group_of h vs : len (group_of h (group_by_hash vs)) = count h vs.
Proof.
  unfold group_by_hash, count.
  change (fun groups v => group_append (v_hash v) v groups) with add_vote.
  now rewrite group_of_fold.
Qed.

Lemma keys_append h v groups :
  map fst (group_append h v groups) =
    if existsb (fun k => String.eqb k h) (map fst groups)
    then map fst groups else map fst groups ++ [h].
Proof.
  induction groups as [|[k g] rest IH]; cbn; [reflexivity|].
  destruct (String.eqb k h); cbn; [reflexivity|].
  rewrite IH. now destruct (existsb _ _).
Qed.

Lemma existsb_eqb_In h (ks : list string) :
  existsb (fun k => String.eqb k h) ks = true <-> In h ks.
Proof.
  rewrite existsb_exists. split.
  - intros (k & Hk & ->%String.eqb_eq). exact Hk.
  - intros Hin. exists h. split; [exact Hin | apply String.eqb_refl].
Qed.

Lemma snoc_or_nil {A : Type} (l : list A) :
  l = [] \/ exists l' x, l = l' ++ [x].
Proof.
  induction l as [|x l IH] using rev_ind; [now left|]. right. now exists l, x.
Qed.

Lemma first_seen_order_snoc (ks hs : list string) h :
  first_seen_order ks hs ->
  first_seen_order (if existsb (fun k => String.eqb k h) ks then ks else ks ++ [h])
                   (hs ++ [h]).
Proof.
  intros (Hnd & Hin & Hord).
  destruct (existsb (fun k => String.eqb k h) ks) eqn:E.
  - apply existsb_eqb_In in E. split; [exact Hnd|]. split.
    + intros k. rewrite in_app_iff, <- Hin. cbn. split; [tauto|].
      intros [Hk|[<-|[]]]; assumption.
    + intros kp k kq Hsplit.
      destruct (Hord kp k kq Hsplit) as (pre & post & -> & Hpre & Hsub).
      exists pre, (post ++ [h]). split; [now rewrite <- app_assoc|]. now split.
  - assert (Hnew : ~ In h ks).
    { intros Hk%existsb_eqb_In. congruence. }
    split; [|split].
    + apply NoDup_app. split; [exact Hnd|]. split; [|apply NoDup_singleton].
      intros k Hk%list_elem_of_In Hk'%list_elem_of_In. destruct Hk' as [<-|[]]. tauto.
    + intros k. rewrite !in_app_iff, <- Hin. reflexivity.
    + intros kp k kq Hsplit.
      destruct (snoc_or_nil kq) as [->|(kq' & k' & ->)].
      * (* the key is the new one *)
        apply app_inj_tail in Hsplit as [-> ->].
        exists hs, []. split; [reflexivity|]. split.
        -- intros Hk. apply Hnew. now apply Hin.
        -- intros h' Hh'. now apply Hin.
      * rewrite app_comm_cons, app_assoc in Hsplit.
        apply app_inj_tail in Hsplit as [-> <-].
        destruct (Hord kp k kq' eq_refl) as (pre & post & -> & Hpre & Hsub).
        exists pre, (post ++ [h]). split; [now rewrite <- app_assoc|]. now split.
Qed.

Lemma keys_fold vs groups (hs : list string) :
  first_seen_order (map fst groups) hs ->
  first_seen_order (map fst (fold_left add_vote vs groups)) (hs ++ map v_hash vs).
Proof.
  revert groups hs. induction vs as [|v vs IH]; intros groups hs H; cbn.
  - now rewrite app_nil_r.
  - replace (hs ++ v_hash v :: map v_hash vs) with ((hs ++ [v_hash v]) ++ map v_hash vs)
      by now rewrite <- app_assoc.
    apply IH. unfold add_vote. rewrite keys_append.
    now apply first_seen_order_snoc.
Qed.

Lemma keys_group_by_hash vs :
  first_seen_order (map fst (group_by_hash vs)) (map v_hash vs).
Proof.
  unfold group_by_hash.
  change (fun groups v => group_append (v_hash v) v groups) with add_vote.
  apply (keys_fold vs [] []). split; [apply NoDup_nil_2|]. split.
  - intros k. reflexivity.
  - intros kp k kq Hsplit. now destruct kp.
Qed.

(** [max] with a key returns the first element of maximal key. *)
Lemma max_from_spec {A : Type} (key : A -> Z) (best : A) (xs : list A) :
  key best <= key (max_from key best xs) /\
  (forall y, In y xs -> key y <= key (max_from key best xs)) /\
  (max_from key best xs = best \/
   exists p s, xs = p ++ max_from key best xs :: s /\
               key best < key (max_from key best xs) /\
               forall y, In y p -> key y < key (max_from key best xs)).
Proof.
  revert best. induction xs as [|x xs IH]; intros best; cbn [max_from].
  - split; [lia|]. split; [intros y []|now left].
  - destruct (key best <? key x) eqn:E.
    + apply Z.ltb_lt in E. destruct (IH x) as (Hb & Hall & Hfirst).
      split; [lia|]. split.
      * intros y [<-|Hy]; [lia | now apply Hall].
      * right. destruct Hfirst as [Em|(p & s & Exs & Hlt & Hp)].
        -- exists [], xs. rewrite Em. split; [reflexivity|]. split; [exact E | intros y []].
        -- exists (x :: p), s. split; [cbn; now rewrite <- Exs|]. split; [lia|].
           intros y [<-|Hy]; [lia | now apply Hp].
    + apply Z.ltb_ge in E. destruct (IH best) as (Hb & Hall & Hfirst).
      split; [lia|]. split.
      * intros y [<-|Hy]; [lia | now apply Hall].
      * destruct Hfirst as [Em|(p & s & Exs & Hlt & Hp)]; [now left|].
        right. exists (x :: p), s. split; [cbn; now rewrite <- Exs|]. split; [lia|].
        intros y [<-|Hy]; [lia | now apply Hp].
Qed.

Lemma max_by_spec {A : Type} (key : A -> Z) (xs : list A) :
  xs <> [] ->
  exists m p s, max_by key xs = Ok m /\ xs = p ++ m :: s /\
    (forall y, In y xs -> key y <= key m) /\
    (forall y, In y p -> key y < key m).
Proof.
  destruct xs as [|x xs]; [congruence|]. intros _. cbn [max_by].
  destruct (max_from_spec key x xs) as (Hb & Hall & Hfirst).
  destruct Hfirst as [E|(p & s & E & Hlt & Hp)].
  - exists (max_from key x xs), [], xs. split; [reflexivity|].
    split; [cbn; now rewrite E|]. split.
    + intros y [<-|Hy]; [lia | now apply Hall].
    + intros y [].
  - exists (max_from key x xs), (x :: p), s. split; [reflexivity|].
    split; [cbn; now rewrite <- E|]. split.
    + intros y [<-|Hy]; [lia | now apply Hall].
    + intros y [<-|Hy]; [lia | now apply Hp].
Qed.

Lemma count_nonneg h vs : 0 <= count h vs.
Proof. unfold count, len. lia. Qed.

Lemma count_absent h vs : ~ In h (map v_hash vs) -> count h vs = 0.
Proof.
  intros Hh. unfold count. replace (List.filter _ vs) with (@nil verification); [reflexivity|].
  symmetry. induction vs as [|v vs IH]; cbn; [reflexivity|].
  destruct (String.eqb (v_hash v) h) eqn:E.
  - apply String.eqb_eq in E. exfalso. apply Hh. now left.
  - apply IH. intros Hin. apply Hh. now right.
Qed.

End Voting.

(** C8: on a non-empty round [apply_voting] returns; its majority hash
    has the largest group, and every hash met before the first
    verification of the majority hash has a strictly smaller group, so a
    tie goes to the hash met first; the strength is the majority count
    divided by the number of verifications; and [all_agree] holds exactly
    when the round has one distinct hash. *)
Theorem apply_voting_majority (original_result : value) (vs : list verification) :
  vs <> [] ->
  exists r, apply_voting original_result vs = Ok r /\
    (forall h, count h vs <= majority_count r) /\
    (exists pre post,
       map v_hash vs = pre ++ majority_hash r :: post /\
       ~ In (majority_hash r) pre /\
       forall h, In h pre -> count h vs < majority_count r) /\
    majority_count r = count (majority_hash r) vs /\
    total_verifiers r = len vs /\
    consensus_strength r = (float_of_Z (majority_count r) / float_of_Z (len vs))%float /\
    (all_agree r = true <-> length (remove_dups (map v_hash vs)) = 1%nat).
Proof.
  intros Hvs.
  destruct (keys_group_by_hash vs) as (Hnd & Hin & Hord).
  assert (Hkeys : map fst (group_by_hash vs) <> []).
  { destruct vs as [|v vs']; [congruence|].
    intros E. assert (Hv : In (v_hash v) (map fst (group_by_hash (v :: vs'))))
      by (apply Hin; now left).
    rewrite E in Hv. destruct Hv. }
  destruct (max_by_spec (fun h => len (group_of h (group_by_hash vs))) _ Hkeys)
    as (m & kp & kq & Hmax & Hsplit & Hall & Hfirst).
  unfold apply_voting. rewrite Hmax. cbn [bind].
  unfold truediv.
  assert (Hlen : (len vs =? 0) = false).
  { apply Z.eqb_neq. destruct vs; [congruence | unfold len; cbn; lia]. }
  rewrite Hlen. cbn [bind]. eexists. split; [reflexivity|].
  cbn [majority_hash majority_count total_verifiers consensus_strength all_agree].
  rewrite len_group_of.
  split; [|split; [|split; [|split; [|split]]]]; try reflexivity.
  - intros h. destruct (in_dec string_dec h (map v_hash vs)) as [Hh|Hh].
    + apply Hin in Hh. specialize (Hall h Hh). cbn beta in Hall.
      now rewrite !len_group_of in Hall.
    + rewrite (count_absent h vs Hh). apply count_nonneg.
  - destruct (Hord kp m kq Hsplit) as (pre & post & E & Hpre & Hsub).
    exists pre, post. repeat split; [exact E | exact Hpre |].
    intros h Hh. specialize (Hfirst h (Hsub h Hh)). cbn beta in Hfirst.
    now rewrite !len_group_of in Hfirst.
  - assert (Hperm : map fst (group_by_hash vs) ≡ₚ remove_dups (map v_hash vs)).
    { apply NoDup_Permutation; [exact Hnd | apply NoDup_remove_dups |].
      intros h. rewrite elem_of_remove_dups, !list_elem_of_In. apply Hin. }
    rewrite <- (Permutation_length Hperm), length_map.
    unfold len. rewrite Z.eqb_eq. lia.
Qed.

(** Two hashes with two verifications each: the one met first wins. *)
Lemma apply_voting_majority_witness :
  let v h := Verification "agent" h VNone None None in
  exists r, apply_voting VNone [v "bb"; v "aa"; v "aa"; v "bb"; v "cc"] = Ok r /\
    majority_hash r = "bb" /\ majority_count r = 2 /\
    consensus_strength r = 0.4%float /\ all_agree r = false.
Proof.
  cbn zeta.
  destruct (apply_voting_majority VNone
              [Verification "agent" "bb" VNone None None;
               Verification "agent" "aa" VNone None None;
               Verification "agent" "aa" VNone None None;
               Verification "agent" "bb" VNone None None;
               Verification "agent" "cc" VNone None None])
    as (r & Hr & _); [discriminate|].
  exists r. split; [exact Hr|].
  vm_compute in Hr. injection Hr as <-. repeat split.
Defined.

(** ** Sorting the items of a dict *)

Section KeyOrder.

Lemma string_ltb_lt (s1 s2 : string) :
  String.ltb s1 s2 = true <-> OrderedTypeEx.String_as_OT.lt s1 s2.
Proof.
  rewrite <- OrderedTypeEx.String_as_OT.cmp_lt.
  unfold String.ltb, OrderedTypeEx.String_as_OT.cmp.
  destruct (String.compare s1 s2); split; congruence.
Qed.

Lemma string_ltb_trans (s1 s2 s3 : string) :
  String.ltb s1 s2 = true -> String.ltb s2 s3 = true -> String.ltb s1 s3 = true.
Proof.
  rewrite !string_ltb_lt. apply OrderedTypeEx.String_as_OT.lt_trans.
Qed.

Lemma string_ltb_irrefl (s : string) : String.ltb s s = false.
Proof.
  unfold String.ltb.
  pose proof (proj2 (OrderedTypeEx.String_as_OT.cmp_eq s s) eq_refl) as E.
  unfold OrderedTypeEx.String_as_OT.cmp in E. now rewrite E.
Qed.

Lemma string_ltb_total (s1 s2 : string) :
  s1 <> s2 -> String.ltb s1 s2 = false -> String.ltb s2 s1 = true.
Proof.
  unfold String.ltb. intros Hne. rewrite (String.compare_antisym s2 s1).
  destruct (String.compare s1 s2) eqn:E; cbn; try congruence.
  apply String.compare_eq_iff in E. congruence.
Qed.

Lemma key_lt_same_kind (c : kind) (k1 k2 : key) :
  kind_of k1 = Some c -> kind_of k2 = Some c -> key_lt k1 k2 = Ok (key_ltb k1 k2).
Proof.
  unfold key_ltb. destruct k1, k2, c; cbn; congruence.
Qed.

Lemma key_lt_other_kind (k1 k2 : key) :
  kind_of k1 = None \/ kind_of k1 <> kind_of k2 -> key_lt k1 k2 = Raise TypeError.
Proof.
  destruct k1, k2; cbn; intros [H|H]; congruence.
Qed.

Lemma key_ltb_trans (c : kind) (k1 k2 k3 : key) :
  kind_of k1 = Some c -> kind_of k2 = Some c -> kind_of k3 = Some c ->
  key_ltb k1 k2 = true -> key_ltb k2 k3 = true -> key_ltb k1 k3 = true.
Proof.
  unfold key_ltb.
  destruct k1 as [s1|n1|[|]|], k2 as [s2|n2|[|]|], k3 as [s3|n3|[|]|], c; cbn;
    try congruence; intros _ _ _; try apply string_ltb_trans;
    rewrite ?Z.ltb_lt; lia.
Qed.

Lemma key_ltb_irrefl (k1 k2 : key) :
  key_id k1 = key_id k2 -> key_ltb k1 k2 = false.
Proof.
  unfold key_ltb.
  destruct k1 as [s1|n1|[|]|], k2 as [s2|n2|[|]|]; cbn; try congruence;
    intros [= <-]; try apply string_ltb_irrefl; apply Z.ltb_irrefl.
Qed.

Lemma key_ltb_total (c : kind) (k1 k2 : key) :
  kind_of k1 = Some c -> kind_of k2 = Some c -> key_id k1 <> key_id k2 ->
  key_ltb k1 k2 = false -> key_ltb k2 k1 = true.
Proof.
  unfold key_ltb.
  destruct k1 as [s1|n1|[|]|], k2 as [s2|n2|[|]|], c; cbn; try congruence;
    intros _ _ Hne; try (apply string_ltb_total; congruence);
    rewrite Z.ltb_ge, Z.ltb_lt; intros Hle;
    match goal with
    | |- ?a < ?b => destruct (Z.eq_dec a b) as [Heq|Hneq]; [|lia]
    end;
    exfalso; apply Hne; f_equal; lia.
Qed.

End KeyOrder.

Section SortItems.

Context {V : Type}.
Implicit Types (kv : key * V) (items sorted : list (key * V)) (c : kind).

Lemma insert_pure_perm kv sorted : Permutation (kv :: sorted) (insert_pure kv sorted).
Proof.
  induction sorted as [|kv' rest IH]; cbn; [reflexivity|].
  destruct (key_ltb (fst kv) (fst kv')); [reflexivity|].
  rewrite perm_swap. now apply perm_skip.
Qed.

Lemma sort_pure_perm items : Permutation items (sort_pure items).
Proof.
  induction items as [|kv rest IH]; cbn; [reflexivity|].
  rewrite <- insert_pure_perm. now apply perm_skip.
Qed.

Lemma uniform_perm c items items' :
  Permutation items items' -> uniform c items -> uniform c items'.
Proof. intros Hp. unfold uniform. now rewrite Hp. Qed.

(** On keys of one kind no comparison raises, and the sort is the pure
    insertion sort. *)
Lemma insert_item_uniform c kv sorted :
  kind_of (fst kv) = Some c -> uniform c sorted ->
  insert_item kv sorted = Ok (insert_pure kv sorted).
Proof.
  intros Hkv. induction sorted as [|kv' rest IH]; intros Hu; cbn; [reflexivity|].
  inversion Hu as [|? ? Hkv' Hrest]; subst.
  rewrite (key_lt_same_kind c) by assumption. cbn [bind].
  destruct (key_ltb (fst kv) (fst kv')); [reflexivity|].
  now rewrite IH.
Qed.

Lemma sort_items_uniform c items :
  uniform c items -> sort_items items = Ok (sort_pure items).
Proof.
  induction items as [|kv rest IH]; intros Hu; cbn; [reflexivity|].
  inversion Hu as [|? ? Hkv Hrest]; subst.
  rewrite IH by assumption. cbn [bind].
  apply (insert_item_uniform c); [assumption|].
  apply (uniform_perm c rest); [apply sort_pure_perm | assumption].
Qed.

Lemma key_lt_ok_kind (k1 k2 : key) (b : bool) :
  key_lt k1 k2 = Ok b -> exists c, kind_of k1 = Some c /\ kind_of k2 = Some c.
Proof.
  destruct k1, k2; cbn; try discriminate; intros _;
    (now exists KindStr) || (now exists KindNum).
Qed.

Lemma key_lt_raise (k1 k2 : key) (e : exn) : key_lt k1 k2 = Raise e -> e = TypeError.
Proof. destruct k1, k2; cbn; congruence. Qed.

Lemma insert_item_raise kv sorted (e : exn) :
  insert_item kv sorted = Raise e -> e = TypeError.
Proof.
  induction sorted as [|kv' rest IH]; cbn; [discriminate|].
  destruct (key_lt (fst kv) (fst kv')) as [[|]|e'] eqn:Hlt; cbn [bind].
  - discriminate.
  - destruct (insert_item kv rest); cbn [bind]; [discriminate|].
    intros [= <-]. now apply IH.
  - intros [= <-]. now apply key_lt_raise in Hlt.
Qed.

(** The only exception of the sort is the [TypeError] of a comparison. *)
Lemma sort_items_raise items (e : exn) :
  sort_items items = Raise e -> e = TypeError.
Proof.
  induction items as [|kv rest IH]; cbn; [discriminate|].
  destruct (sort_items rest) as [sorted|e']; cbn [bind].
  - apply insert_item_raise.
  - intros [= <-]. now apply IH.
Qed.

Lemma insert_item_ok_perm kv sorted sorted' :
  insert_item kv sorted = Ok sorted' -> Permutation (kv :: sorted) sorted'.
Proof.
  revert sorted'. induction sorted as [|kv' rest IH]; intros sorted'; cbn.
  - now intros [= <-].
  - destruct (key_lt (fst kv) (fst kv')) as [[|]|e']; cbn [bind]; try discriminate.
    + now intros [= <-].
    + destruct (insert_item kv rest) as [rest'|]; cbn [bind]; [|discriminate].
      intros [= <-]. rewrite perm_swap. apply perm_skip. now apply IH.
Qed.

Lemma sort_items_ok_perm items sorted :
  sort_items items = Ok sorted -> Permutation items sorted.
Proof.
  revert sorted. induction items as [|kv rest IH]; intros sorted; cbn.
  - now intros [= <-].
  - destruct (sort_items rest) as [sorted0|]; cbn [bind]; [|discriminate].
    intros Hins%insert_item_ok_perm. rewrite <- Hins. apply perm_skip. now apply IH.
Qed.

(** When the sort returns on two items or more, all keys are of one
    kind. *)
Lemma sort_items_ok_uniform items sorted :
  sort_items items = Ok sorted ->
  (length items <= 1)%nat \/ exists c, uniform c items.
Proof.
  revert sorted. induction items as [|kv rest IH]; intros sorted; cbn.
  - left. lia.
  - destruct (sort_items rest) as [sorted0|] eqn:Hrest; cbn [bind]; [|discriminate].
    intros Hins.
    pose proof (sort_items_ok_perm _ _ Hrest) as Hperm.
    destruct sorted0 as [|first sorted1].
    { apply Permutation_sym, Permutation_nil in Hperm. subst rest. left. cbn. lia. }
    right. cbn [insert_item] in Hins.
    destruct (key_lt (fst kv) (fst first)) as [b|] eqn:Hlt; [|discriminate].
    destruct (key_lt_ok_kind _ _ _ Hlt) as (c & Hkv & Hfirst).
    exists c. constructor; [exact Hkv|].
    assert (Hin : In first rest).
    { eapply Permutation_in; [symmetry; exact Hperm | now left]. }
    destruct (IH _ eq_refl) as [Hlen|(c' & Hu)].
    + destruct rest as [|r [|r' rest']]; cbn in Hlen; try lia; [destruct Hin|].
      destruct Hin as [->|[]]. now constructor.
    + assert (Hc : kind_of (fst first) = Some c').
      { unfold uniform in Hu. rewrite List.Forall_forall in Hu. now apply Hu. }
      assert (c' = c) as -> by congruence. exact Hu.
Qed.

(** With two items or more whose keys are not all of one kind, a
    comparison across kinds raises. *)
Lemma sort_items_mixed items :
  (2 <= length items)%nat -> (forall c, ~ uniform c items) ->
  sort_items items = Raise TypeError.
Proof.
  intros Hlen Hmixed. destruct (sort_items items) as [sorted|e] eqn:Hsort.
  - destruct (sort_items_ok_uniform _ _ Hsort) as [Hle|(c & Hu)]; [lia|].
    now destruct (Hmixed c).
  - f_equal. now apply sort_items_raise in Hsort.
Qed.

(** Two insertions of distinct keys of one kind commute. *)
Lemma insert_pure_comm c kv1 kv2 sorted :
  uniform c (kv1 :: kv2 :: sorted) ->
  key_id (fst kv1) <> key_id (fst kv2) ->
  insert_pure kv1 (insert_pure kv2 sorted) = insert_pure kv2 (insert_pure kv1 sorted).
Proof.
  intros Hu Hne.
  inversion Hu as [|? ? H1 Hu']; subst. inversion Hu' as [|? ? H2 Hs]; subst.
  clear Hu Hu'.
  assert (H12 : key_ltb (fst kv1) (fst kv2) = true -> key_ltb (fst kv2) (fst kv1) = false).
  { intros H. destruct (key_ltb (fst kv2) (fst kv1)) eqn:H'; [|reflexivity].
    pose proof (key_ltb_trans c _ _ _ H1 H2 H1 H H') as Hrefl.
    now rewrite key_ltb_irrefl in Hrefl. }
  induction sorted as [|kv rest IH]; cbn.
  - destruct (key_ltb (fst kv1) (fst kv2)) eqn:E12.
    + now rewrite (H12 eq_refl).
    + now rewrite (key_ltb_total c _ _ H1 H2 Hne E12).
  - inversion Hs as [|? ? Hk Hrest]; subst.
    destruct (key_ltb (fst kv2) (fst kv)) eqn:E2, (key_ltb (fst kv1) (fst kv)) eqn:E1;
      cbn; rewrite ?E1, ?E2.
    + destruct (key_ltb (fst kv1) (fst kv2)) eqn:E12.
      * now rewrite (H12 eq_refl).
      * now rewrite (key_ltb_total c _ _ H1 H2 Hne E12).
    + destruct (key_ltb (fst kv1) (fst kv2)) eqn:E12; [|reflexivity].
      now rewrite (key_ltb_trans c _ _ _ H1 H2 Hk E12 E2) in E1.
    + destruct (key_ltb (fst kv2) (fst kv1)) eqn:E21; [|reflexivity].
      now rewrite (key_ltb_trans c _ _ _ H2 H1 Hk E21 E1) in E2.
    + f_equal. now apply IH.
Qed.

(** The pure sort does not depend on the order of its input. *)
Lemma sort_pure_perm_eq c items items' :
  uniform c items -> NoDup (key_ids items) -> Permutation items items' ->
  sort_pure items = sort_pure items'.
Proof.
  intros Hu Hnd Hp. induction Hp as [|kv l l' Hp IH|kv1 kv2 l|l l' l'' Hp1 IH1 Hp2 IH2].
  - reflexivity.
  - cbn. inversion Hu; subst. apply NoDup_cons_1_2 in Hnd. now rewrite IH.
  - cbn. apply (insert_pure_comm c).
    + inversion Hu as [|? ? H1 Hu']; subst. inversion Hu' as [|? ? H2 Hs]; subst.
      constructor; [exact H1|]. constructor; [exact H2|].
      apply (uniform_perm c l); [apply sort_pure_perm | assumption].
    + cbn in Hnd. apply NoDup_cons_1_1 in Hnd. intros E. apply Hnd.
      rewrite E. now left.
  - rewrite IH1 by assumption. apply IH2.
    + apply (uniform_perm c l); assumption.
    + unfold key_ids. now rewrite <- Hp1.
Qed.

(** [sorted(d.items())] does not depend on the insertion order of [d]:
    the same sorted list, or the same [TypeError]. *)
Lemma sort_items_perm items items' :
  NoDup (key_ids items) -> Permutation items items' ->
  sort_items items = sort_items items'.
Proof.
  intros Hnd Hp.
  destruct (sort_items items) as [sorted|e] eqn:Hsort.
  - destruct (sort_items_ok_uniform _ _ Hsort) as [Hle|(c & Hu)].
    + (* at most one item: the two lists are equal *)
      destruct items as [|kv [|kv' rest]]; cbn in Hle; try lia.
      * apply Permutation_nil in Hp. now subst.
      * apply Permutation_length_1_inv in Hp. now subst.
    + rewrite (sort_items_uniform c) in Hsort by assumption.
      rewrite (sort_items_uniform c items')
        by (apply (uniform_perm c items); assumption).
      injection Hsort as <-. f_equal. now apply (sort_pure_perm_eq c).
  - assert (e = TypeError) as -> by (eapply sort_items_raise; eassumption).
    destruct (sort_items items') as [sorted'|e'] eqn:Hsort'.
    + exfalso. destruct (sort_items_ok_uniform _ _ Hsort') as [Hle|(c & Hu)].
      * destruct items' as [|kv [|kv' rest]]; cbn in Hle; try lia.
        -- apply Permutation_sym, Permutation_nil in Hp. subst. discriminate.
        -- apply Permutation_sym, Permutation_length_1_inv in Hp. subst.
           cbn in Hsort. discriminate.
      * rewrite (sort_items_uniform c) in Hsort; [discriminate|].
        apply (uniform_perm c items'); [now apply Permutation_sym | assumption].
    + f_equal. symmetry. now apply sort_items_raise in Hsort'.
Qed.

End SortItems.

(** ** Structural equality of results and the fingerprint *)

Section Fingerprint.

Lemma dumps_dict (items : list (key * value)) :
  dumps (VDict items) =
    let* sorted := sort_items (map encoded items) in
    let* parts := for_each sorted member in
    Ok ("{" +:+ join ", " parts +:+ "}").
Proof. reflexivity. Qed.

Lemma key_ids_encoded (items : list (key * value)) :
  key_ids (map encoded items) = key_ids items.
Proof. unfold key_ids. rewrite map_map. reflexivity. Qed.

Lemma map_dumps_same (xs ys : list value) :
  Forall2 (fun a b => well_formed a -> dumps a = dumps b) xs ys ->
  Forall well_formed xs -> map dumps xs = map dumps ys.
Proof.
  induction 1 as [|x y xs ys Hxy Hxs IH]; intros Hall; cbn; [reflexivity|].
  inversion Hall; subst. f_equal; [now apply Hxy | now apply IH].
Qed.

Lemma map_encoded_same (l l' : list (key * value)) :
  Forall2 (fun kv kv' => fst kv = fst kv' /\
                         (well_formed (snd kv) -> dumps (snd kv) = dumps (snd kv'))) l l' ->
  Forall (fun kv => well_formed (snd kv)) l -> map encoded l = map encoded l'.
Proof.
  induction 1 as [|kv kv' l l' [Hk Hv] Hl IH]; intros Hall; cbn; [reflexivity|].
  inversion Hall; subst. f_equal; [|now apply IH].
  unfold encoded. rewrite Hk. f_equal. now apply Hv.
Qed.

(** Results that are identical up to key order have the same canonical
    text. *)
Lemma dumps_same (a b : value) : same a b -> well_formed a -> dumps a = dumps b.
Proof.
  intros H. induction H as [v|xs ys Hxs|xs ys Hxs|items items' reordered Hperm Hitems]
    using same_nested_ind; intros Hwf.
  - reflexivity.
  - inversion Hwf as [| | | | |? Hall| |]; subst. cbn [dumps].
    now rewrite (map_dumps_same xs ys Hxs Hall).
  - inversion Hwf as [| | | | | |? Hall|]; subst. cbn [dumps].
    now rewrite (map_dumps_same xs ys Hxs Hall).
  - inversion Hwf as [| | | | | | |? Hnd Hall]; subst. rewrite !dumps_dict.
    rewrite (sort_items_perm (map encoded items) (map encoded reordered)).
    + rewrite (map_encoded_same reordered items' Hitems); [reflexivity|].
      now rewrite <- Hperm.
    + now rewrite key_ids_encoded.
    + now apply Permutation_map.
Qed.

End Fingerprint.

(** C2, as amended: results that are identical up to the insertion order
    of the keys of their dicts, at every depth (the same keys with the
    same values, in type as well as in value), have the same fingerprint:
    [hash_result] returns the same SHA-256 hex digest for both, or raises
    [TypeError] for both.  The results are those [value] describes: built
    from [None], bools, ints, strings, lists, tuples, dicts and objects
    the encoder rejects, without floats.  Neither a wider equality nor
    the converse holds. *)
Theorem hash_result_order_independent (a b : value) :
  well_formed a -> same a b -> hash_result a = hash_result b.
Proof.
  intros Hwf Hsame. unfold hash_result. now rewrite (dumps_same a b Hsame Hwf).
Qed.

(** The fixture of the tests: one dict written in its two key orders. *)
Lemma hash_result_order_independent_witness :
  hash_result (VDict [(KStr "a", VInt 1); (KStr "b", VInt 2)]) =
  hash_result (VDict [(KStr "b", VInt 2); (KStr "a", VInt 1)]).
Proof.
  apply hash_result_order_independent.
  - constructor.
    + cbn. apply NoDup_cons_2; [rewrite list_elem_of_In; intros [H|[]]; discriminate H|].
      apply NoDup_singleton.
    + repeat constructor.
  - apply (same_dict _ _ [(KStr "b", VInt 2); (KStr "a", VInt 1)]).
    + apply perm_swap.
    + repeat constructor.
Defined.

(** C2 as stated fails in both directions.  The int key [1] and the
    string key ["1"] make two structurally different dicts with one
    canonical text, hence one fingerprint.  And equality as Python's [==]
    has it does not give equal fingerprints: [{True: "a"}] and
    [{1: "a"}] have one key for the dict, [{"a": 1}] and [{"a": True}]
    compare equal, and each pair has two fingerprints. *)
Lemma hash_result_key_coercion_collision :
  (well_formed (VDict [(KInt 1, VStr "a")]) /\
   well_formed (VDict [(KStr "1", VStr "a")]) /\
   ~ same (VDict [(KInt 1, VStr "a")]) (VDict [(KStr "1", VStr "a")]) /\
   hash_result (VDict [(KInt 1, VStr "a")]) =
     Ok "6b4863423a37114c1e4c0d4c90236f5094a0f6030f62e666a17694312b05b52c" /\
   hash_result (VDict [(KStr "1", VStr "a")]) =
     Ok "6b4863423a37114c1e4c0d4c90236f5094a0f6030f62e666a17694312b05b52c") /\
  (key_id (KBool true) = key_id (KInt 1) /\
   hash_result (VDict [(KBool true, VStr "a")]) =
     Ok "7534d589071238d7542ca80e9bd04d22f28a9a7b7ec446063d0e9fd5de42baf5" /\
   hash_result (VDict [(KInt 1, VStr "a")]) =
     Ok "6b4863423a37114c1e4c0d4c90236f5094a0f6030f62e666a17694312b05b52c" /\
   hash_result (VDict [(KBool true, VStr "a")]) <>
     hash_result (VDict [(KInt 1, VStr "a")])) /\
  (hash_result (VDict [(KStr "a", VInt 1)]) =
     Ok "f9d86028c6e0d64e225186f96acb69338b2c59764df79162107f5c4bb34d1310" /\
   hash_result (VDict [(KStr "a", VBool true)]) =
     Ok "d2d7b967cd9d8bcb81a32005588f45b254aca48e26ff95a8749774df421680b9" /\
   hash_result (VDict [(KStr "a", VInt 1)]) <>
     hash_result (VDict [(KStr "a", VBool true)])).
Proof.
  split; [split; [|split; [|split; [|split]]] | split; [split; [|split; [|split]] | split; [|split]]].
  - constructor; [apply NoDup_singleton | repeat constructor].
  - constructor; [apply NoDup_singleton | repeat constructor].
  - intros H. inversion H as [| | |? ? reordered Hperm Hitems]; subst.
    apply Permutation_length_1_inv in Hperm. subst reordered.
    inversion Hitems as [|? ? ? ? [Hk _] _]; subst. cbn in Hk. discriminate Hk.
  - vm_compute. reflexivity.
  - vm_compute. reflexivity.
  - reflexivity.
  - vm_compute. reflexivity.
  - vm_compute. reflexivity.
  - vm_compute. intros H. discriminate H.
  - vm_compute. reflexivity.
  - vm_compute. reflexivity.
  - vm_compute. intros H. discriminate H.
Qed.

(** ** The claims about the task-level vote *)

Section TaskVote.

Variable self : orchestrator.
Variable results : list value.

Lemma generate_vote_ballot (i : Z) : _generate_vote self results i = Ok (ballot_of self results i).
Proof. reflexivity. Qed.

Lemma for_each_map {A B : Type} (f : A -> B) (xs : list A) :
  for_each xs (fun x => Ok (f x)) = Ok (map f xs).
Proof. induction xs as [|x xs IH]; cbn; [reflexivity|]. now rewrite IH. Qed.

Lemma votes_all_approve (voters : list Z) :
  List.filter is_approve (map (ballot_of self results) voters) = map (ballot_of self results) voters.
Proof. induction voters as [|i voters IH]; cbn; [reflexivity|]. now rewrite IH. Qed.

Lemma votes_weights (voters : list Z) :
  map weight (map (ballot_of self results) voters) = map (weight_of self) voters.
Proof. rewrite map_map. reflexivity. Qed.

Lemma calculate_consensus_nonempty (votes : list ballot) :
  votes <> [] ->
  _calculate_consensus votes =
    let total_weight := Py.sum (map weight votes) in
    let approve_weight := Py.sum (map weight (List.filter is_approve votes)) in
    let* consensus_strength :=
      if (0 <? total_weight)%float then fdiv approve_weight total_weight
      else Ok 0%float in
    Ok {| strength := consensus_strength;
          result := if (0.66 <=? consensus_strength)%float
                    then "approved" else "rejected";
          approve_votes := Some (len (List.filter is_approve votes));
          total_votes := Some (len votes) |}.
Proof. destruct votes; [congruence | reflexivity]. Qed.

(** [vote] in closed form: every vote approves, so the approving weight
    is the total weight, and the strength is that total divided by
    itself when it is positive. *)
Lemma vote_closed_form (n : Z) (use_hydra : bool) :
  1 <= n ->
  let s := (if 0 <? total_weight self n
            then total_weight self n / total_weight self n else 0)%float in
  vote self results n use_hydra =
    Ok {| vr_total_votes := n;
          vr_consensus :=
            {| strength := s;
               result := if (0.66 <=? s)%float then "approved" else "rejected";
               approve_votes := Some n;
               total_votes := Some n |};
          vr_consensus_strength := s;
          voting_method := if use_hydra then "hydra" else "local";
          votes := map (ballot_of self results) (range n) |}.
Proof.
  intros Hn. cbn zeta. unfold vote.
  change (_generate_vote self results) with (fun i => Ok (ballot_of self results i)).
  rewrite for_each_map. cbn [bind].
  assert (Hlen : len (map (ballot_of self results) (range n)) = n).
  { unfold len. rewrite length_map, range_length. lia. }
  rewrite calculate_consensus_nonempty.
  2: { intros E. rewrite E in Hlen. unfold len in Hlen. cbn in Hlen. lia. }
  cbv zeta. rewrite votes_all_approve, votes_weights, Hlen.
  fold (total_weight self n).
  destruct (0 <? total_weight self n)%float eqn:Hpos.
  - rewrite fdiv_pos by exact Hpos. reflexivity.
  - reflexivity.
Qed.

End TaskVote.

(** Every score within [0, 100] gives a weight between zero and one, and
    a positive score a positive weight: checked on the 101 scores. *)
Lemma weights_of_scores :
  forallb (fun r => weight_sfb (Prim2SF (float_of_Z r / 100.0)%float) &&
                    implb (0 <? r) (pos_sfb (Prim2SF (float_of_Z r / 100.0)%float)))
          (range 101) = true.
Proof. vm_compute. reflexivity. Qed.

Lemma weight_of_class (self : orchestrator) (i : Z) :
  ledger_ok self ->
  weight_sf (Prim2SF (weight_of self i)) /\
  (0 < reputation_of self i -> pos_sf (Prim2SF (weight_of self i))).
Proof.
  intros Hok. pose proof (reputation_of_bounds self i Hok) as Hr.
  pose proof weights_of_scores as Hall. rewrite forallb_forall in Hall.
  specialize (Hall (reputation_of self i) ltac:(apply in_range; lia)).
  cbn beta in Hall. apply andb_true_iff in Hall as [Hw Hp]. unfold weight_of.
  split; [now apply weight_sfb_true|].
  intros Hpos. apply pos_sfb_true.
  now rewrite (proj2 (Z.ltb_lt 0 _) Hpos) in Hp.
Qed.

(** With scores within bounds and one voter of positive score, the total
    weight is a positive finite number. *)
Lemma total_weight_positive (self : orchestrator) (n : Z) :
  ledger_ok self ->
  (exists i, 0 <= i < n /\ 0 < reputation_of self i) ->
  pos_sf (Prim2SF (total_weight self n)).
Proof.
  intros Hok (i & Hi & Hpos). unfold total_weight, Py.sum.
  apply sum_acc.
  - reflexivity.
  - apply List.Forall_forall. intros w Hw. apply in_map_iff in Hw as (j & <- & _).
    now apply weight_of_class.
  - right. apply List.Exists_exists. exists (weight_of self i). split.
    + apply in_map, in_range. exact Hi.
    + now apply weight_of_class.
Qed.

(** C10: every vote [_generate_vote] produces is "approve"; hence, for
    every list of results and every number of voters of at least one, as
    long as one of the voters has a positive reputation score (scores
    being within [0, 100], 50 for a voter the table does not know),
    [vote] returns consensus strength 1.0 and the result "approved". *)
Theorem maker_vote_never_rejects (self : orchestrator) (results : list value)
    (n : Z) (use_hydra : bool) :
  ledger_ok self ->
  1 <= n ->
  (exists i, 0 <= i < n /\ 0 < reputation_of self i) ->
  (forall i, exists b, _generate_vote self results i = Ok b /\ vote_choice b = "approve") /\
  exists r, vote self results n use_hydra = Ok r /\
    vr_total_votes r = n /\
    vr_consensus_strength r = 1.0%float /\
    strength (vr_consensus r) = 1.0%float /\
    result (vr_consensus r) = "approved".
Proof.
  intros Hok Hn Hvoter.
  destruct (pos_sf_ltb _ (total_weight_positive self n Hok Hvoter)) as (Hpos & Hfin).
  split.
  - intros i. exists (ballot_of self results i). split; reflexivity.
  - rewrite (vote_closed_form self results n use_hydra Hn). cbv zeta.
    rewrite Hpos, (div_self _ Hpos Hfin).
    eexists. split; [reflexivity|]. repeat split.
Qed.

(** Five voters the table does not know, as in a fresh orchestrator. *)
Lemma maker_vote_never_rejects_witness :
  exists r, vote (MAKEROrchestrator.init false) [VDict [(KStr "answer", VInt 42)]] 5 true
            = Ok r /\
    vr_total_votes r = 5 /\
    vr_consensus_strength r = 1.0%float /\
    strength (vr_consensus r) = 1.0%float /\
    result (vr_consensus r) = "approved".
Proof.
  apply (maker_vote_never_rejects (MAKEROrchestrator.init false)
           [VDict [(KStr "answer", VInt 42)]] 5 true).
  - apply ledger_ok_init.
  - lia.
  - exists 0. split; [lia|]. vm_compute. reflexivity.
Defined.

(** ** The reputation table *)

Lemma str_inj (a b : Z) : str a = str b -> a = b.
Proof.
  unfold str. intros H.
  apply (f_equal NilZero.int_of_string) in H.
  assert (N : forall z, NilZero.int_of_string (NilZero.string_of_int (Z.to_int z)) = Some (Z.to_int z)).
  { intros z. apply NilZero.isi; destruct z; cbn; try discriminate.
    all: intros E; injection E as E; revert E; apply Unsigned.to_uint_nonnil. }
  rewrite !N in H. injection H as H. now apply DecimalZ.to_int_inj.
Qed.

Lemma app_inj_l (p a b : string) : p +:+ a = p +:+ b -> a = b.
Proof. induction p as [|c p IH]; cbn; [tauto|]. intros H. injection H as H. auto. Qed.

Lemma voter_key_inj (i j : Z) : "voter-" +:+ str i = "voter-" +:+ str j -> i = j.
Proof. intros H. apply str_inj. exact (app_inj_l _ _ _ H). Qed.

Lemma replay_snoc hydra updates u :
  replay hydra (updates ++ [u]) = update_reputation (replay hydra updates) (fst u) (snd u).
Proof. unfold replay. now rewrite fold_left_app. Qed.

(** X1: after any sequence of calls to [update_reputation] on a fresh
    orchestrator, every score of the table is within [0, 100], the Hydra
    client is unchanged, and the score of an agent is the clamped score of
    its last update (no entry for an agent never updated). *)
Theorem update_reputation_history (hydra : bool) (updates : list (string * Z))
    (agent_id : string) :
  let self := replay hydra updates in
  ledger_ok self /\
  hydra_client self = hydra /\
  reputation_scores self !! agent_id = option_map clamp (last_update agent_id updates) /\
  (forall score, reputation_scores self !! agent_id = Some score -> 0 <= score <= 100).
Proof.
  cbn zeta.
  assert (H : ledger_ok (replay hydra updates) /\ hydra_client (replay hydra updates) = hydra /\
              reputation_scores (replay hydra updates) !! agent_id =
                option_map clamp (last_update agent_id updates)).
  { induction updates as [|u updates IH] using rev_ind.
    - split; [apply ledger_ok_init|]. split; reflexivity.
    - destruct IH as (Hok & Hh & Hl). rewrite replay_snoc. split; [|split].
      + now apply ledger_ok_update.
      + exact Hh.
      + unfold last_update. rewrite rev_app_distr. cbn [rev app List.find].
        cbn [update_reputation reputation_scores].
        destruct (String.eqb (fst u) agent_id) eqn:E.
        * apply String.eqb_eq in E. subst agent_id. now rewrite lookup_insert_eq.
        * apply String.eqb_neq in E. rewrite lookup_insert_ne by exact E. exact Hl. }
  destruct H as (Hok & Hh & Hl).
  split; [exact Hok|]. split; [exact Hh|]. split; [exact Hl|].
  intros score Hs. exact (Hok _ _ Hs).
Qed.

(** ** The outcomes of the task-level vote *)

Lemma range_nonpos (n : Z) : n <= 0 -> range n = [].
Proof. intros H. unfold range. now replace (Z.to_nat n) with 0%nat by lia. Qed.

Lemma sum_zeros (ws : list float) :
  Forall (fun w => w = 0%float) ws -> Py.sum ws = 0%float.
Proof.
  unfold Py.sum. induction 1 as [|w ws -> _ IH]; cbn; [reflexivity|].
  exact IH.
Qed.

Lemma total_weight_zero (self : orchestrator) (n : Z) :
  (forall i, 0 <= i < n -> reputation_of self i = 0) ->
  total_weight self n = 0%float.
Proof.
  intros H. unfold total_weight. apply sum_zeros.
  apply List.Forall_forall. intros w Hw. apply in_map_iff in Hw as (i & <- & Hi).
  apply in_range in Hi. unfold weight_of. rewrite (H i Hi). reflexivity.
Qed.

(** X2: [vote] on a reputation table with scores within [0, 100], for
    every list of results and every number of voters: it returns one
    approving ballot per voter; without voters the result is
    "no_consensus" with strength 0.0; with a voter of positive reputation
    it is "approved" with strength 1.0; and when every voter has
    reputation 0 it is "rejected" with strength 0, although every ballot
    approves. *)
Theorem vote_outcome (self : orchestrator) (results : list value) (n : Z)
    (use_hydra : bool) :
  ledger_ok self ->
  exists r, vote self results n use_hydra = Ok r /\
    vr_total_votes r = Z.max 0 n /\
    len (votes r) = Z.max 0 n /\
    Forall (fun b => vote_choice b = "approve") (votes r) /\
    vr_consensus_strength r = strength (vr_consensus r) /\
    (n <= 0 ->
       strength (vr_consensus r) = 0.0%float /\ result (vr_consensus r) = "no_consensus") /\
    (1 <= n -> some_reputation self n = true ->
       strength (vr_consensus r) = 1.0%float /\ result (vr_consensus r) = "approved") /\
    (1 <= n -> some_reputation self n = false ->
       strength (vr_consensus r) = 0%float /\ result (vr_consensus r) = "rejected" /\
       approve_votes (vr_consensus r) = Some n).
Proof.
  intros Hok. destruct (Z.le_gt_cases n 0) as [Hn|Hn].
  - unfold vote. rewrite (range_nonpos n Hn). cbn [for_each bind _calculate_consensus].
    eexists. split; [reflexivity|].
    cbn [vr_total_votes votes vr_consensus vr_consensus_strength strength result approve_votes].
    rewrite Z.max_l by exact Hn.
    split; [reflexivity|]. split; [reflexivity|]. split; [constructor|].
    split; [reflexivity|].
    split; [split; reflexivity|]. split; intros; lia.
  - assert (Hn1 : 1 <= n) by lia.
    rewrite (vote_closed_form self results n use_hydra Hn1). cbv zeta.
    eexists. split; [reflexivity|].
    cbn [vr_total_votes votes vr_consensus vr_consensus_strength strength result approve_votes].
    split; [lia|].
    split; [unfold len; rewrite length_map, range_length; lia|].
    split; [apply List.Forall_forall; intros b Hb; apply in_map_iff in Hb as (i & <- & _);
            reflexivity|].
    split; [reflexivity|].
    split; [intros; lia|]. split.
    + intros _ Hsome. unfold some_reputation in Hsome.
      apply existsb_exists in Hsome as (i & Hi & Hpos).
      apply in_range in Hi. apply Z.ltb_lt in Hpos.
      destruct (pos_sf_ltb _ (total_weight_positive self n Hok (ex_intro _ i (conj Hi Hpos))))
        as (Hp & Hf).
      rewrite Hp, (div_self _ Hp Hf). split; reflexivity.
    + intros _ Hnone. rewrite total_weight_zero.
      * split; [reflexivity|]. split; reflexivity.
      * intros i Hi. pose proof (reputation_of_bounds self i Hok) as Hb.
        destruct (Z.eq_dec (reputation_of self i) 0) as [E|E]; [exact E|].
        exfalso. unfold some_reputation in Hnone.
        assert (existsb (fun i => 0 <? reputation_of self i) (range n) = true).
        { apply existsb_exists. exists i. split; [now apply in_range|]. apply Z.ltb_lt. lia. }
        congruence.
Qed.

(** One voter whose reputation was set to 0. *)
Lemma vote_outcome_witness :
  exists r, vote (update_reputation (MAKEROrchestrator.init true) "voter-0" 0)
                 [VStr "answer"] 1 true = Ok r /\
    strength (vr_consensus r) = 0%float /\ result (vr_consensus r) = "rejected" /\
    approve_votes (vr_consensus r) = Some 1.
Proof.
  destruct (vote_outcome (update_reputation (MAKEROrchestrator.init true) "voter-0" 0)
              [VStr "answer"] 1 true
              (ledger_ok_update _ _ _ (ledger_ok_init true)))
    as (r & Hr & _ & _ & _ & _ & _ & _ & Hrej).
  exists r. split; [exact Hr|]. apply Hrej; [lia | vm_compute; reflexivity].
Defined.

(** X3: after [update_reputation] on the id of voter [i], the ballot of
    voter [i] carries the clamped score and its hundredth as weight, and
    the ballot of every other voter is what it was before. *)
Theorem update_reputation_generate_vote (self : orchestrator) (results : list value)
    (i j score : Z) :
  exists b, _generate_vote (update_reputation self ("voter-" +:+ str i) score) results j = Ok b /\
    vote_choice b = "approve" /\
    (j = i -> reputation b = clamp score /\
              weight b = (float_of_Z (clamp score) / 100.0)%float /\
              0 <= reputation b <= 100) /\
    (j <> i -> _generate_vote self results j = Ok b).
Proof.
  rewrite generate_vote_ok. eexists. split; [reflexivity|].
  cbn [vote_choice reputation weight update_reputation reputation_scores].
  split; [reflexivity|]. split.
  - intros ->. rewrite lookup_insert_eq. cbn [default]. fold (clamp score).
    split; [reflexivity|]. split; [reflexivity|].
    change (0 <= clamp score <= 100). unfold clamp. lia.
  - intros Hne. rewrite generate_vote_ok.
    rewrite lookup_insert_ne; [reflexivity|].
    intros E. apply voter_key_inj in E. congruence.
Qed.

(** A score of 250 is stored as 100 and weighs 1.0. *)
Lemma update_reputation_generate_vote_witness :
  exists b, _generate_vote (update_reputation (MAKEROrchestrator.init false) "voter-3" 250)
                           [VInt 7] 3 = Ok b /\
    reputation b = 100 /\ weight b = 1.0%float.
Proof.
  destruct (update_reputation_generate_vote (MAKEROrchestrator.init false) [VInt 7] 3 3 250)
    as (b & Hb & _ & Hsame & _).
  exists b. split; [exact Hb|].
  destruct (Hsame eq_refl) as (Hr & Hw & _).
  split; [exact Hr|]. rewrite Hw. reflexivity.
Defined.

(** ** The text of a fingerprint *)

Section Digest.

Lemma hex_digit_is_hex (n : Z) : is_hex (SHA256.hex_digit n) = true.
Proof.
  unfold SHA256.hex_digit.
  match goal with |- context [nth ?i ?l ?d] => destruct (nth_in_or_default i l d) as [H| ->] end.
  - cbn [In] in H. repeat (destruct H as [<-|H]; [reflexivity|]). destruct H.
  - reflexivity.
Qed.

Lemma hex_of_bytes_hex (bs : list Z) :
  hex_string (2 * length bs) (SHA256.hex_of_bytes bs).
Proof.
  unfold hex_string. induction bs as [|b bs [IHl IHh]]; [split; reflexivity|].
  cbn [SHA256.hex_of_bytes fold_right String.length list_ascii_of_string forallb].
  fold (SHA256.hex_of_bytes bs). rewrite IHl, IHh, !hex_digit_is_hex.
  split; [cbn [length]; lia | reflexivity].
Qed.

Lemma digest_length (data : list Z) : length (SHA256.digest data) = 32%nat.
Proof.
  unfold SHA256.digest. cbv zeta.
  match goal with |- context [fold_left SHA256.compress ?b ?i] =>
    generalize (fold_left SHA256.compress b i) end.
  intros s. reflexivity.
Qed.

Lemma hexdigest_hex (data : list Z) : hex_string 64 (SHA256.hexdigest data).
Proof.
  unfold SHA256.hexdigest.
  pose proof (hex_of_bytes_hex (SHA256.digest data)) as H.
  now rewrite digest_length in H.
Qed.

Lemma prefix_hex (n m : nat) (s : string) :
  (n <= m)%nat -> hex_string m s -> hex_string n (prefix n s).
Proof.
  unfold hex_string. revert m s. induction n as [|n IH]; intros m s Hle [Hl Hh].
  - split; reflexivity.
  - destruct s as [|c s]; cbn [String.length] in Hl; [lia|].
    cbn [list_ascii_of_string forallb] in Hh. apply andb_true_iff in Hh as [Hc Hs].
    destruct m as [|m]; [lia|].
    destruct (IH m s) as [IHl IHh]; [lia | split; [lia | exact Hs] |].
    cbn [prefix String.length list_ascii_of_string forallb].
    rewrite IHl, Hc, IHh. split; reflexivity.
Qed.

Lemma hash_result_length (result : value) (h : string) :
  hash_result result = Ok h -> String.length h = 64%nat.
Proof.
  unfold hash_result. destruct (dumps result) as [s|e]; cbn [bind]; [|discriminate].
  intros H. injection H as <-. apply hexdigest_hex.
Qed.

Lemma verify_with_agent_spec (result : value) (agent_id : Z) :
  match hash_result result with
  | Ok h =>
      verify_with_agent result agent_id =
        Ok {| v_agent_id := "verifier-" +:+ str agent_id;
              v_hash := h;
              v_output := result;
              v_is_valid := Some true;
              v_confidence := Some 0.9%float |}
  | Raise e => verify_with_agent result agent_id = Raise e
  end.
Proof.
  unfold verify_with_agent. destruct (hash_result result) as [h|e] eqn:E; cbn [bind]; [|reflexivity].
  pose proof (hash_result_length result h E) as Hl.
  assert (Hv : (0 <? len (list_ascii_of_string h)) = true).
  { apply Z.ltb_lt. unfold len.
    replace (length (list_ascii_of_string h)) with (String.length h).
    - rewrite Hl. lia.
    - clear. induction h as [|c h IH]; cbn; [reflexivity | now rewrite IH]. }
  now rewrite Hv.
Qed.

End Digest.

(** X4: when [hash_result] returns, the fingerprint is a string of 64
    lower-case hexadecimal digits, the text of a SHA-256 digest; it is
    never empty. *)
Theorem hash_result_format (result : value) (h : string) :
  hash_result result = Ok h -> hex_string 64 h /\ h <> EmptyString.
Proof.
  unfold hash_result. destruct (dumps result) as [s|e]; cbn [bind]; [|discriminate].
  intros H. injection H as <-. pose proof (hexdigest_hex (utf8_encode s)) as Hx.
  split; [exact Hx|]. intros E. rewrite E in Hx. destruct Hx as [Hl _]. discriminate.
Qed.

(** The fingerprint of [{"data": "test"}]. *)
Lemma hash_result_format_witness :
  hash_result (VDict [(KStr "data", VStr "test")]) =
    Ok "a499ad8863be5751cd3509bd8c6928df9cde248adcdc604f985fd0d2288b2462" /\
  hex_string 64 "a499ad8863be5751cd3509bd8c6928df9cde248adcdc604f985fd0d2288b2462".
Proof.
  assert (E : hash_result (VDict [(KStr "data", VStr "test")]) =
              Ok "a499ad8863be5751cd3509bd8c6928df9cde248adcdc604f985fd0d2288b2462")
    by (vm_compute; reflexivity).
  split; [exact E|]. exact (proj1 (hash_result_format _ _ E)).
Defined.

(** X5: a verifier answers with the fingerprint [hash_result] returns and
    always finds it valid, with confidence 0.9 (a fingerprint is never
    empty, so the 0.1 branch is never taken); it raises exactly what
    [hash_result] raises. *)
Theorem verify_with_agent_valid (result : value) (agent_id : Z) :
  (forall h, hash_result result = Ok h ->
     verify_with_agent result agent_id =
       Ok {| v_agent_id := "verifier-" +:+ str agent_id;
             v_hash := h;
             v_output := result;
             v_is_valid := Some true;
             v_confidence := Some 0.9%float |}) /\
  (forall e, hash_result result = Raise e -> verify_with_agent result agent_id = Raise e) /\
  (forall v, verify_with_agent result agent_id = Ok v ->
     hash_result result = Ok (v_hash v) /\
     v_is_valid v = Some true /\ v_confidence v = Some 0.9%float).
Proof.
  pose proof (verify_with_agent_spec result agent_id) as H.
  destruct (hash_result result) as [h|e].
  - split; [|split].
    + intros h' E. injection E as <-. exact H.
    + discriminate.
    + intros v Hv. rewrite H in Hv. injection Hv as <-. repeat split.
  - split; [|split].
    + discriminate.
    + intros e' E. injection E as <-. exact H.
    + intros v Hv. rewrite H in Hv. discriminate.
Qed.

(** X6: the ["result_hash"] of a ballot is the first 16 hexadecimal
    digits of the SHA-256 digest of [str(results)]: it is the same for
    every voter and every reputation table; the voter ids of two
    different voters differ. *)
Theorem generate_vote_result_hash (self other : orchestrator) (results : list value)
    (i j : Z) :
  exists b b', _generate_vote self results i = Ok b /\
               _generate_vote other results j = Ok b' /\
    result_hash b = result_hash b' /\
    hex_string 16 (result_hash b) /\
    result_hash b = prefix 16 (SHA256.hexdigest (utf8_encode (repr (VList results)))) /\
    voter_id b = "voter-" +:+ str i /\
    (voter_id b = voter_id b' -> i = j).
Proof.
  rewrite !generate_vote_ok. do 2 eexists. split; [reflexivity|]. split; [reflexivity|].
  cbn [result_hash voter_id]. split; [reflexivity|].
  split; [apply (prefix_hex 16 64); [lia | apply hexdigest_hex]|].
  split; [reflexivity|]. split; [reflexivity|]. apply voter_key_inj.
Qed.

(** ** What [hash_result] accepts *)

Section Serializable.

Lemma for_each_id_ok (ps : list (res string)) :
  Forall (fun p => exists s, p = Ok s) ps -> exists ss, for_each ps (fun p => p) = Ok ss.
Proof.
  induction 1 as [|p ps [s ->] _ [ss IH]]; cbn; [eauto|]. rewrite IH. cbn. eauto.
Qed.

Lemma for_each_id_inv (ps : list (res string)) :
  match for_each ps (fun p => p) with
  | Ok _ => Forall (fun p => exists s, p = Ok s) ps
  | Raise e => In (Raise e) ps
  end.
Proof.
  induction ps as [|p ps IH]; cbn; [constructor|].
  destruct p as [s|e]; cbn; [|now left].
  destruct (for_each ps (fun p => p)) as [ss|e]; cbn.
  - constructor; eauto.
  - now right.
Qed.

Lemma for_each_member_ok (kps : list (key * res string)) :
  Forall (fun kp => exists s, snd kp = Ok s) kps -> exists ss, for_each kps member = Ok ss.
Proof.
  induction 1 as [|[k p] kps [s Hs] _ [ss IH]]; cbn; [eauto|].
  cbn in Hs. subst p. unfold member at 1. cbn. rewrite IH. cbn. eauto.
Qed.

Lemma for_each_member_inv (kps : list (key * res string)) :
  match for_each kps member with
  | Ok _ => Forall (fun kp => exists s, snd kp = Ok s) kps
  | Raise e => exists kp, In kp kps /\ snd kp = Raise e
  end.
Proof.
  induction kps as [|[k p] kps IH]; cbn; [constructor|].
  unfold member at 1. cbn [fst snd].
  destruct p as [s|e]; cbn; [|exists (k, Raise e); split; [now left | reflexivity]].
  destruct (for_each kps member) as [ss|e]; cbn.
  - constructor; cbn; eauto.
  - destruct IH as (kp & Hin & Hkp). exists kp. split; [now right | exact Hkp].
Qed.

Lemma uniform_encoded (c : kind) (items : list (key * value)) :
  uniform c (map encoded items) <-> uniform c items.
Proof. unfold uniform. rewrite List.Forall_map. reflexivity. Qed.

Lemma dumps_list (xs : list value) :
  dumps (VList xs) =
    let* parts := for_each (map dumps xs) (fun p => p) in
    Ok ("[" +:+ join ", " parts +:+ "]").
Proof. reflexivity. Qed.

Lemma dumps_tuple (xs : list value) :
  dumps (VTuple xs) =
    let* parts := for_each (map dumps xs) (fun p => p) in
    Ok ("[" +:+ join ", " parts +:+ "]").
Proof. reflexivity. Qed.

Lemma dumps_serializable (v : value) :
  serializable v -> exists s, dumps v = Ok s.
Proof.
  induction v as [| [|] | n | s | xs IH | xs IH | items IH | r] using value_nested_ind;
    intros Hs; try (cbn; eauto; fail).
  - inversion Hs as [| | | |xs' Hxs| |]; subst.
    rewrite dumps_list.
    destruct (for_each_id_ok (map dumps xs)) as [ss ->]; [|cbn; eauto].
    apply List.Forall_map. rewrite List.Forall_forall in *. intros x Hx. apply IH; auto.
  - inversion Hs as [| | | | |xs' Hxs|]; subst.
    rewrite dumps_tuple.
    destruct (for_each_id_ok (map dumps xs)) as [ss ->]; [|cbn; eauto].
    apply List.Forall_map. rewrite List.Forall_forall in *. intros x Hx. apply IH; auto.
  - inversion Hs as [| | | | | |items' Hkeys Hitems]; subst.
    rewrite dumps_dict. cbv zeta.
    assert (Hsort : exists sorted, sort_items (map encoded items) = Ok sorted).
    { destruct Hkeys as [Hlen|[c Hc]].
      - destruct items as [|kv [|kv' items]]; cbn in Hlen; [cbn; eauto | cbn; eauto | lia].
      - rewrite (sort_items_uniform c); [eauto|]. now apply uniform_encoded. }
    destruct Hsort as [sorted Hsort]. rewrite Hsort. cbn [bind].
    destruct (for_each_member_ok sorted) as [ss ->]; [|cbn; eauto].
    apply sort_items_ok_perm in Hsort.
    eapply Permutation_Forall; [exact Hsort|].
    apply List.Forall_map. rewrite List.Forall_forall in *. intros kv Hkv.
    cbn. apply IH; auto.
  - inversion Hs.
Qed.

Lemma dumps_inv (v : value) :
  match dumps v with
  | Ok _ => serializable v
  | Raise e => e = TypeError
  end.
Proof.
  induction v as [| [|] | n | s | xs IH | xs IH | items IH | r] using value_nested_ind;
    try (cbn; constructor; fail).
  - rewrite dumps_list. pose proof (for_each_id_inv (map dumps xs)) as H.
    destruct (for_each (map dumps xs) (fun p => p)) as [ss|e]; cbn [bind].
    + constructor. rewrite List.Forall_map in H. rewrite List.Forall_forall in *.
      intros x Hx. specialize (IH x Hx). destruct (H x Hx) as [s Hs]. now rewrite Hs in IH.
    + apply in_map_iff in H as (x & Hx & Hin). rewrite List.Forall_forall in IH.
      specialize (IH x Hin). now rewrite Hx in IH.
  - rewrite dumps_tuple. pose proof (for_each_id_inv (map dumps xs)) as H.
    destruct (for_each (map dumps xs) (fun p => p)) as [ss|e]; cbn [bind].
    + constructor. rewrite List.Forall_map in H. rewrite List.Forall_forall in *.
      intros x Hx. specialize (IH x Hx). destruct (H x Hx) as [s Hs]. now rewrite Hs in IH.
    + apply in_map_iff in H as (x & Hx & Hin). rewrite List.Forall_forall in IH.
      specialize (IH x Hin). now rewrite Hx in IH.
  - rewrite dumps_dict. cbv zeta.
    destruct (sort_items (map encoded items)) as [sorted|e] eqn:Hsort; cbn [bind].
    2: { eapply sort_items_raise; eassumption. }
    pose proof (sort_items_ok_perm _ _ Hsort) as Hperm.
    pose proof (for_each_member_inv sorted) as H.
    destruct (for_each sorted member) as [ss|e]; cbn [bind].
    + constructor.
      * apply sort_items_ok_uniform in Hsort. rewrite length_map in Hsort.
        destruct Hsort as [Hl|[c Hc]]; [now left | right; exists c; now apply uniform_encoded].
      * apply (Permutation_Forall (Permutation_sym Hperm)) in H.
        rewrite List.Forall_map in H. rewrite List.Forall_forall in *.
        intros kv Hkv. specialize (IH kv Hkv). destruct (H kv Hkv) as [s Hs].
        cbn in Hs. now rewrite Hs in IH.
    + destruct H as (kp & Hin & Hkp).
      apply (Permutation_in _ (Permutation_sym Hperm)) in Hin.
      apply in_map_iff in Hin as (kv & <- & Hin). rewrite List.Forall_forall in IH.
      specialize (IH kv Hin). cbn in Hkp. now rewrite Hkp in IH.
Qed.

End Serializable.

(** X7: on the results [value] describes (finite trees of [None],
    bools, ints, strings, lists, tuples, dicts and objects the encoder
    has no rule for; no float, no container that contains itself),
    [hash_result] returns a fingerprint exactly on those the JSON encoder
    accepts (no object it has no rule for, and no dict of two items or
    more with keys of different kinds), and raises [TypeError] on the
    others; on these results it raises no other exception. *)
Theorem hash_result_serializable (result : value) :
  (serializable result <-> exists h, hash_result result = Ok h) /\
  (~ serializable result <-> hash_result result = Raise TypeError) /\
  (forall e, hash_result result = Raise e -> e = TypeError).
Proof.
  unfold hash_result. pose proof (dumps_inv result) as Hinv.
  split; [|split].
  - split.
    + intros Hs. destruct (dumps_serializable result Hs) as [s ->]. cbn. eauto.
    + intros [h Hh]. destruct (dumps result); [exact Hinv | discriminate].
  - split.
    + intros Hn. destruct (dumps result) as [s|e]; [contradiction | now subst e].
    + intros Hr Hs. destruct (dumps_serializable result Hs) as [s Hd].
      rewrite Hd in Hr. discriminate.
  - intros e He. destruct (dumps result) as [s|e']; [discriminate|].
    cbn in He. congruence.
Qed.

(** ** Ints as binary64 numbers *)

Section Conversion.

Lemma shl_align_snd (m : positive) (e e' : Z) : snd (shl_align m e e') = Z.min e e'.
Proof.
  unfold shl_align. destruct (e' - e) eqn:E; cbn [snd]; lia.
Qed.

Lemma finite_or_inf_pos (m e : Z) : 0 < m -> e <= emax - prec -> pos_sf (finite_or_inf m e).
Proof.
  intros Hm He. destruct m as [|p|p]; try lia. cbn.
  apply Z.leb_le in He. rewrite He. exact I.
Qed.

(** [float(n)] is a positive finite number for [1 <= n < 2^63]. *)
Lemma float_of_Z_pos (n : Z) : 1 <= n < 2 ^ 63 -> pos_sf (Prim2SF (float_of_Z n)).
Proof.
  intros Hn. unfold float_of_Z.
  replace (n <? 0) with false by (symmetry; apply Z.ltb_ge; lia).
  rewrite FloatAxioms.of_uint63_spec, Uint63.of_Z_spec.
  change Uint63.wB with (2 ^ 63). rewrite Z.mod_small by lia.
  destruct n as [|p|p]; try lia. cbn [binary_normalize]. unfold binary_round.
  pose proof (digits2_bounds p) as Hd.
  set (d := Z.pos (digits2_pos p)) in *.
  assert (Hd63 : 1 <= d <= 63).
  { split; [subst d; lia|].
    destruct (Z.le_gt_cases d 63) as [H|H]; [exact H|].
    assert (2 ^ 63 <= 2 ^ (d - 1)) by (apply Z.pow_le_mono_r; lia). lia. }
  replace (fexp prec emax (d + 0)) with (d - 53)
    by (unfold fexp, emin, emax, prec; lia).
  destruct (shl_align p 0 (d - 53)) as [mz ez] eqn:Hal.
  destruct (Z.le_gt_cases d 53) as [Hle|Hgt].
  - pose proof (shl_align_fst p 0 (d - 53) ltac:(lia)) as Hfst.
    pose proof (shl_align_snd p 0 (d - 53)) as Hsnd.
    rewrite Hal in Hfst, Hsnd. cbn [fst snd] in Hfst, Hsnd.
    assert (Hez : ez = d - 53) by lia.
    assert (HM : 2 ^ 52 <= Z.pos mz < 2 ^ 53).
    { rewrite Hfst. replace (0 - (d - 53)) with (53 - d) by lia.
      replace (2 ^ 52) with (2 ^ (d - 1) * 2 ^ (53 - d))
        by (rewrite <- Z.pow_add_r by lia; f_equal; lia).
      replace (2 ^ 53) with (2 ^ d * 2 ^ (53 - d))
        by (rewrite <- Z.pow_add_r by lia; f_equal; lia).
      assert (0 < 2 ^ (53 - d)) by (apply Z.pow_pos_nonneg; lia).
      split; [apply Z.mul_le_mono_nonneg_r; lia | apply Z.mul_lt_mono_pos_r; lia]. }
    rewrite binary_round_aux_exact by (try exact HM; lia).
    apply finite_or_inf_pos; [lia | unfold emax, prec; lia].
  - rewrite shl_align_id in Hal by lia. injection Hal as <- <-.
    destruct (binary_round_aux_round (Z.pos p) 0 (d - 53)) as (q' & Hq & ->); try lia.
    { replace (52 + (d - 53)) with (d - 1) by lia. replace (53 + (d - 53)) with d by lia.
      exact Hd. }
    assert (Hq52 : 2 ^ 52 <= Z.pos p / 2 ^ (d - 53)).
    { apply Z.div_le_lower_bound; [apply Z.pow_pos_nonneg; lia|].
      rewrite Z.mul_comm, <- Z.pow_add_r by lia.
      replace (52 + (d - 53)) with (d - 1) by lia. lia. }
    destruct (q' <? 2 ^ 53).
    + apply finite_or_inf_pos; [|unfold emax, prec; lia].
      destruct Hq as [->|[-> _]]; lia.
    + apply finite_or_inf_pos; [lia | unfold emax, prec; lia].
Qed.

Lemma float_of_Z_div_self (n : Z) :
  1 <= n < 2 ^ 63 -> truediv n n = Ok 1.0%float.
Proof.
  intros Hn. unfold truediv.
  replace (n =? 0) with false by (symmetry; apply Z.eqb_neq; lia).
  destruct (pos_sf_ltb _ (float_of_Z_pos n Hn)) as (Hp & Hf).
  now rewrite (div_self _ Hp Hf).
Qed.

End Conversion.

(** ** Unanimous rounds *)

Section Unanimity.

Lemma group_fold_one (h : string) (g vs : list verification) :
  Forall (fun v => v_hash v = h) vs ->
  fold_left (fun groups v => group_append (v_hash v) v groups) vs [(h, g)] = [(h, g ++ vs)].
Proof.
  intros H. revert g. induction H as [|v vs Hv _ IH]; intros g; cbn [fold_left].
  - now rewrite app_nil_r.
  - rewrite Hv, group_append_head, IH, <- app_assoc. reflexivity.
Qed.

Lemma group_by_hash_one (h : string) (vs : list verification) :
  vs <> [] -> Forall (fun v => v_hash v = h) vs -> group_by_hash vs = [(h, vs)].
Proof.
  intros Hne H. destruct vs as [|v vs]; [congruence|].
  inversion H as [|? ? Hv Hvs]; subst. unfold group_by_hash. cbn [fold_left].
  rewrite group_append_nil. now rewrite group_fold_one.
Qed.

Lemma apply_voting_one_hash (original_result : value) (h : string) (vs : list verification) :
  vs <> [] -> len vs < 2 ^ 63 -> Forall (fun v => v_hash v = h) vs ->
  apply_voting original_result vs = Ok (unanimous h (len vs)).
Proof.
  intros Hne Hlen H. unfold apply_voting. rewrite (group_by_hash_one h vs Hne H).
  cbn [map fst snd max_by max_from bind group_of]. rewrite String.eqb_refl.
  rewrite float_of_Z_div_self.
  - reflexivity.
  - split; [|exact Hlen]. destruct vs; [congruence|]. unfold len. cbn [length]. lia.
Qed.

Lemma for_each_ext_map {A B : Type} (f : A -> B) (body : A -> res B) (xs : list A) :
  (forall x, In x xs -> body x = Ok (f x)) -> for_each xs body = Ok (map f xs).
Proof.
  induction xs as [|x xs IH]; intros H; cbn; [reflexivity|].
  rewrite (H x) by now left. cbn. rewrite IH by (intros; apply H; now right). reflexivity.
Qed.

Lemma for_each_raise_first {A B : Type} (body : A -> res B) (x : A) (xs : list A) (e : exn) :
  body x = Raise e -> for_each (x :: xs) body = Raise e.
Proof. intros H. cbn. now rewrite H. Qed.

End Unanimity.

(** X8: [multi_agent_verification] with any number of verifiers, and
    the vote on its answers.  Without verifiers the list is empty,
    whatever the result.  With one verifier or more, an exception of
    [hash_result] is raised again; otherwise (for fewer than [2^63]
    verifiers) every verifier returns the fingerprint of the result,
    under the ids "verifier-0", "verifier-1", ..., so [apply_voting] is
    unanimous with strength 1.0 and the quality score is 1.0. *)
Theorem multi_agent_verification_unanimous (result : value) (num_verifiers : Z) :
  (num_verifiers <= 0 -> multi_agent_verification result num_verifiers = Ok []) /\
  (1 <= num_verifiers ->
   forall e, hash_result result = Raise e ->
             multi_agent_verification result num_verifiers = Raise e) /\
  (1 <= num_verifiers < 2 ^ 63 ->
   forall h, hash_result result = Ok h ->
   exists vs,
     multi_agent_verification result num_verifiers = Ok vs /\
     len vs = num_verifiers /\
     map v_agent_id vs = map (fun i => "verifier-" +:+ str i) (range num_verifiers) /\
     Forall (fun v => v_hash v = h /\ v_output v = result /\ v_is_valid v = Some true) vs /\
     apply_voting result vs = Ok (unanimous h num_verifiers) /\
     _calculate_quality_score (unanimous h num_verifiers) = 1.0%float).
Proof.
  unfold multi_agent_verification. split; [|split].
  - intros Hn. now rewrite range_nonpos.
  - intros Hn e He. unfold range.
    destruct (Z.to_nat num_verifiers) as [|k] eqn:Hk; [lia|].
    cbn [seq map]. apply for_each_raise_first.
    pose proof (verify_with_agent_spec result (Z.of_nat 0)) as Hv. now rewrite He in Hv.
  - intros Hn h Hh.
    set (f := fun i : Z => {| v_agent_id := "verifier-" +:+ str i; v_hash := h;
                              v_output := result; v_is_valid := Some true;
                              v_confidence := Some 0.9%float |}).
    rewrite (for_each_ext_map f).
    2: { intros i _. pose proof (verify_with_agent_spec result i) as Hv.
         now rewrite Hh in Hv. }
    assert (Hlen : len (map f (range num_verifiers)) = num_verifiers).
    { unfold len. rewrite length_map, range_length. lia. }
    eexists. split; [reflexivity|]. split; [exact Hlen|].
    split; [now rewrite map_map|].
    split; [apply List.Forall_map, List.Forall_forall; intros i _; repeat split|].
    split; [|reflexivity].
    rewrite <- Hlen at 2. apply apply_voting_one_hash.
    + intros E. rewrite E in Hlen. unfold len in Hlen. cbn in Hlen. lia.
    + lia.
    + apply List.Forall_map, List.Forall_forall. intros i _. reflexivity.
Qed.

(** Five verifiers on [{"data": "test"}]. *)
Lemma multi_agent_verification_unanimous_witness :
  exists vs,
    multi_agent_verification (VDict [(KStr "data", VStr "test")]) 5 = Ok vs /\
    len vs = 5 /\
    apply_voting (VDict [(KStr "data", VStr "test")]) vs =
      Ok (unanimous "a499ad8863be5751cd3509bd8c6928df9cde248adcdc604f985fd0d2288b2462" 5).
Proof.
  destruct (proj2 (proj2 (multi_agent_verification_unanimous
                            (VDict [(KStr "data", VStr "test")]) 5))
              ltac:(lia)
              "a499ad8863be5751cd3509bd8c6928df9cde248adcdc604f985fd0d2288b2462"
              ltac:(vm_compute; reflexivity))
    as (vs & Hvs & Hlen & _ & _ & Hvote & _).
  exists vs. split; [exact Hvs|]. split; [exact Hlen | exact Hvote].
Defined.

(** X9: [verify_with_voting] on results that are all identical to the
    first up to the insertion order of the keys of their dicts, at every
    depth (the same keys with the same values, in type as well as in
    value; fewer than [2^63] results, the first serialisable): the vote
    is unanimous, the confidence is 1.0 and the subtask is verified. *)
Theorem verify_with_voting_agreeing (id : string) (subtask : list (key * value))
    (r : value) (rs : list value) (h : string) :
  well_formed r -> Forall (same r) rs -> hash_result r = Ok h ->
  len (r :: rs) < 2 ^ 63 ->
  exists sv, verify_with_voting (QualityAgent.init id) subtask (r :: rs) = Ok sv /\
    sv_verified sv = true /\
    sv_confidence sv = 1.0%float /\
    voting_result sv = unanimous h (len (r :: rs)) /\
    result_count sv = len (r :: rs) /\
    subtask_id sv = dict_get subtask "id".
Proof.
  intros Hwf Hsame Hh Hlen. unfold verify_with_voting.
  set (f := fun ir : Z * value =>
              {| v_agent_id := "agent-" +:+ str (fst ir); v_hash := h;
                 v_output := snd ir; v_is_valid := None; v_confidence := None |}).
  rewrite (for_each_ext_map f).
  2: { intros [i x] Hin. apply in_combine_r in Hin. cbn [snd fst].
       assert (Hx : hash_result x = Ok h).
       { destruct Hin as [<-|Hin]; [exact Hh|].
         rewrite List.Forall_forall in Hsame. unfold hash_result in *.
         rewrite <- (dumps_same r x (Hsame x Hin) Hwf). exact Hh. }
       rewrite Hx. reflexivity. }
  cbn [bind].
  assert (Hl : len (map f (combine (range (len (r :: rs))) (r :: rs))) = len (r :: rs)).
  { unfold len at 1. rewrite length_map, length_combine, range_length.
    unfold len. rewrite Nat2Z.id. lia. }
  rewrite (apply_voting_one_hash _ h).
  - cbn [bind]. rewrite Hl. eexists. split; [reflexivity|].
    cbn [sv_verified sv_confidence voting_result result_count subtask_id unanimous
         consensus_strength verification_threshold QualityAgent.init].
    repeat split.
  - intros E. rewrite E in Hl. unfold len in Hl. cbn in Hl. lia.
  - now rewrite Hl.
  - apply List.Forall_map, List.Forall_forall. intros ir _. reflexivity.
Qed.

(** Two results with the same items in two orders. *)
Lemma verify_with_voting_agreeing_witness :
  exists sv,
    verify_with_voting (QualityAgent.init "quality-001") [(KStr "id", VStr "task-7")]
      [VDict [(KStr "a", VInt 1); (KStr "b", VInt 2)];
       VDict [(KStr "b", VInt 2); (KStr "a", VInt 1)]] = Ok sv /\
    sv_verified sv = true /\ sv_confidence sv = 1.0%float /\ result_count sv = 2.
Proof.
  destruct (verify_with_voting_agreeing "quality-001" [(KStr "id", VStr "task-7")]
              (VDict [(KStr "a", VInt 1); (KStr "b", VInt 2)])
              [VDict [(KStr "b", VInt 2); (KStr "a", VInt 1)]]
              "d8497d9d82770a70729261095aa98f7ef5154d7af499f8037b6ca250296785a6")
    as (sv & Hsv & Hv & Hc & _ & Hn & _).
  - constructor; [|repeat constructor].
    cbn. apply NoDup_cons_2; [|apply NoDup_singleton].
    intros H. apply list_elem_of_In in H. cbn in H. destruct H as [H|[]]. discriminate.
  - constructor; [|constructor].
    apply (same_dict _ _ [(KStr "b", VInt 2); (KStr "a", VInt 1)]).
    + apply perm_swap.
    + repeat constructor.
  - vm_compute. reflexivity.
  - vm_compute. reflexivity.
  - exists sv. split; [exact Hsv|]. split; [exact Hv|]. split; [exact Hc | exact Hn].
Defined.

(** ** [verify] and [execute_task] *)

Section Verify.

Lemma verify_of_hash (self : agent) (result : value) (h : string) :
  hash_result result = Ok h ->
  verify self result = Ok (unanimous_verdict (verification_threshold self) h).
Proof.
  intros Hh. unfold verify. rewrite (multi_agent_verification_three result h Hh).
  cbv zeta. cbn [bind]. rewrite (apply_voting_one_hash _ h).
  - reflexivity.
  - discriminate.
  - reflexivity.
  - repeat constructor.
Qed.

Lemma verify_raise (self : agent) (result : value) (e : exn) :
  hash_result result = Raise e -> verify self result = Raise e.
Proof.
  intros Hh. unfold verify, multi_agent_verification.
  change (range 3) with [0; 1; 2]. cbn [for_each]. unfold verify_with_agent at 1.
  now rewrite Hh.
Qed.

Lemma hash_result_cases (result : value) :
  (serializable result /\ exists h, hash_result result = Ok h) \/
  (~ serializable result /\ hash_result result = Raise TypeError).
Proof.
  unfold hash_result. pose proof (dumps_inv result) as Hinv.
  destruct (dumps result) as [s|e] eqn:E.
  - left. split; [exact Hinv | cbn; eauto].
  - right. subst e. split; [|reflexivity].
    intros Hs. destruct (dumps_serializable result Hs) as [s Hs']. congruence.
Qed.

End Verify.

(** X10: [verify] reads its argument through the fingerprint only: two
    results of the same fingerprint get the same verdict, for any agent;
    its score is 1.0, its vote is the unanimous one of three verifiers,
    and it is verified exactly when the threshold of the agent is at
    most 1.0. *)
Theorem verify_reads_fingerprint (self : agent) (a b : value) (h : string) :
  hash_result a = Ok h -> hash_result b = Ok h ->
  verify self a = verify self b /\
  exists r, verify self a = Ok r /\
    quality_score r = 1.0%float /\
    verified r = (verification_threshold self <=? 1.0)%float /\
    verification_details r = unanimous h 3.
Proof.
  intros Ha Hb. rewrite (verify_of_hash self a h Ha), (verify_of_hash self b h Hb).
  split; [reflexivity|]. eexists. split; [reflexivity|]. repeat split.
Qed.

(** [{1: "a"}] and [{"1": "a"}] have one fingerprint, hence one verdict. *)
Lemma verify_reads_fingerprint_witness :
  verify (QualityAgent.init "quality-001") (VDict [(KInt 1, VStr "a")]) =
  verify (QualityAgent.init "quality-001") (VDict [(KStr "1", VStr "a")]).
Proof.
  apply (verify_reads_fingerprint (QualityAgent.init "quality-001")
           (VDict [(KInt 1, VStr "a")]) (VDict [(KStr "1", VStr "a")])
           "6b4863423a37114c1e4c0d4c90236f5094a0f6030f62e666a17694312b05b52c");
    vm_compute; reflexivity.
Defined.

(** X11: [execute_task] of the default agent, whatever the clock and
    the text of exceptions: when the results of the context can be
    serialised it answers with the verdict of [verify], verified with
    score 1.0, and the agent, its id, the time and the request; otherwise
    with the error answer, not verified, with score 0.0.  So the answer is
    verified exactly when the results can be serialised. *)
Theorem execute_task_outcome (utcnow : string) (message : exn -> string)
    (id request : string) (context : option (list (key * value))) :
  let self := QualityAgent.init id in
  let report := execute_task utcnow message self request context in
  (serializable (results_to_verify context) ->
   exists h, hash_result (results_to_verify context) = Ok h /\
     report = Completed (unanimous_verdict 0.7 h) "quality" id utcnow request /\
     report_verified report = true /\ report_quality_score report = 1.0%float) /\
  (~ serializable (results_to_verify context) ->
   report = Failed "quality" id (message TypeError) false 0.0 /\
   report_verified report = false /\ report_quality_score report = 0.0%float) /\
  (report_verified report = true <-> serializable (results_to_verify context)).
Proof.
  cbv zeta. unfold execute_task. fold (results_to_verify context).
  destruct (hash_result_cases (results_to_verify context)) as [[Hs [h Hh]]|[Hn Hr]].
  - rewrite (verify_of_hash _ _ h Hh). cbn [QualityAgent.init agent_type agent_id
                                            verification_threshold].
    split; [|split].
    + intros _. exists h. repeat split. exact Hh.
    + intros Hn. contradiction.
    + split; [intros _; exact Hs | intros _; reflexivity].
  - rewrite (verify_raise _ _ _ Hr). cbn [QualityAgent.init agent_type agent_id].
    split; [|split].
    + intros Hs. contradiction.
    + intros _. repeat split.
    + split; [discriminate | intros Hs; contradiction].
Qed.

(** X12: without results to verify ([context] is [None], or a dict
    without the key ["results"], empty or not) [execute_task] verifies the
    empty dict and reports it verified with score 1.0. *)
Theorem execute_task_without_results (utcnow : string) (message : exn -> string)
    (id request : string) (context : option (list (key * value))) :
  match context with
  | Some d => Forall (fun kv => fst kv <> KStr "results") d
  | None => True
  end ->
  execute_task utcnow message (QualityAgent.init id) request context =
    Completed (unanimous_verdict 0.7
                 "44136fa355b3678a1146ad16f7e8649e94fb4fc21fe77e8310c060f61caaff8a")
              "quality" id utcnow request.
Proof.
  intros Hctx. unfold execute_task.
  assert (E : match context with
              | Some d => if 0 <? len d then dict_get_default d "results" (VDict [])
                          else VDict []
              | None => VDict []
              end = VDict []).
  { destruct context as [d|]; [|reflexivity].
    destruct (0 <? len d); [|reflexivity].
    unfold dict_get_default.
    induction Hctx as [|[k v] d Hk _ IH]; [reflexivity|].
    cbn [List.find fst]. destruct k as [s| | |]; try exact IH.
    destruct (String.eqb s "results") eqn:Es; [|exact IH].
    apply String.eqb_eq in Es. subst s. now contradiction Hk. }
  rewrite E.
  rewrite (verify_of_hash _ _ "44136fa355b3678a1146ad16f7e8649e94fb4fc21fe77e8310c060f61caaff8a")
    by (vm_compute; reflexivity).
  reflexivity.
Qed.

(** A context with another key only. *)
Lemma execute_task_without_results_witness :
  report_verified
    (execute_task "2024-01-01T00:00:00" (fun _ => "error") (QualityAgent.init "quality-001")
                  "Verify results" (Some [(KStr "other", VInt 1)])) = true.
Proof.
  rewrite (execute_task_without_results "2024-01-01T00:00:00" (fun _ => "error")
             "quality-001" "Verify results" (Some [(KStr "other", VInt 1)])).
  - reflexivity.
  - repeat constructor. discriminate.
Defined.

(** ** [flag_errors] *)

Section Flags.

Local Open Scope float_scope.

Lemma half_sf : Prim2SF 0.5 = S754_finite false 4503599627370496 (-53).
Proof. vm_compute. reflexivity. Qed.

Lemma threshold_sf : Prim2SF 0.7 = S754_finite false 6305039478318694 (-53).
Proof. vm_compute. reflexivity. Qed.

Lemma one_sf : Prim2SF 1.0 = S754_finite false 4503599627370496 (-52).
Proof. vm_compute. reflexivity. Qed.

Lemma zero_sf : Prim2SF 0 = S754_zero false.
Proof. vm_compute. reflexivity. Qed.

(** Below [m5 * 2^-53] is below [m7 * 2^-53] and below [m5 * 2^-52]. *)
Lemma SFltb_below (x : spec_float) (m5 m7 : positive) :
  (m5 < m7)%positive ->
  SFltb x (S754_finite false m5 (-53)) = true ->
  SFltb (SF64add x (S754_zero false)) (S754_finite false m7 (-53)) = true /\
  SFltb (SF64add x (S754_zero false)) (S754_finite false m5 (-52)) = true.
Proof.
  intros H57 Hc. destruct x as [s|s| |s m e]; try discriminate.
  - destruct s; split; reflexivity.
  - destruct s; [split; reflexivity | discriminate].
  - change (SF64add (S754_finite s m e) (S754_zero false)) with (S754_finite s m e).
    unfold SFltb, SFcompare in *. destruct s; [split; reflexivity|].
    destruct (e ?= -53)%Z eqn:E.
    + apply Z.compare_eq in E. subst e.
      change (-53 ?= -52)%Z with Lt.
      rewrite Pos.compare_cont_spec in *. unfold Pos.switch_Eq in *.
      destruct (m ?= m5)%positive eqn:Em; try discriminate.
      rewrite Pos.compare_lt_iff in Em.
      replace (m ?= m7)%positive with Lt; [split; reflexivity|].
      symmetry. apply Pos.compare_lt_iff. lia.
    + rewrite Z.compare_lt_iff in E.
      replace (e ?= -52)%Z with Lt by (symmetry; apply Z.compare_lt_iff; lia).
      split; reflexivity.
    + discriminate.
Qed.

(** A strength below 0.5 with no bonus is a score below 0.7. *)
Lemma low_strength_score (c : float) :
  (c <? 0.5) = true -> (Py.min 1.0 (c + 0) <? 0.7) = true.
Proof.
  intros Hc. unfold Py.min.
  assert (H : (c + 0 <? 0.7) = true /\ (c + 0 <? 1.0) = true).
  { rewrite !FloatAxioms.ltb_spec, FloatAxioms.add_spec in *.
    rewrite half_sf in Hc. rewrite threshold_sf, one_sf, zero_sf.
    apply SFltb_below; [lia | exact Hc]. }
  destruct H as [H7 H1]. now rewrite H1.
Qed.

End Flags.

Section VotingAgreement.

Lemma apply_voting_nonempty (original_result : value) (vs : list verification) (v : voting) :
  apply_voting original_result vs = Ok v -> vs <> [].
Proof. intros H ->. discriminate. Qed.

Lemma apply_voting_fields (original_result : value) (vs : list verification) (v : voting) :
  apply_voting original_result vs = Ok v ->
  all_agree v = (len (group_by_hash vs) =? 1)%Z.
Proof.
  unfold apply_voting.
  destruct (max_by _ _) as [h|e]; cbn [bind]; [|discriminate].
  destruct (truediv _ _) as [s|e]; cbn [bind]; [|discriminate].
  intros H. injection H as <-. reflexivity.
Qed.

(** When all agree the vote is the unanimous one. *)
Lemma apply_voting_all_agree (original_result : value) (vs : list verification) (v : voting) :
  (len vs < 2 ^ 63)%Z -> apply_voting original_result vs = Ok v -> all_agree v = true ->
  exists h, v = unanimous h (len vs) /\ Forall (fun x => v_hash x = h) vs.
Proof.
  intros Hlen Hv Hall. pose proof (apply_voting_nonempty _ _ _ Hv) as Hne.
  rewrite (apply_voting_fields _ _ _ Hv) in Hall. apply Z.eqb_eq in Hall.
  destruct (group_by_hash vs) as [|[h g] [|hg rest]] eqn:Hg;
    unfold len in Hall; cbn [length] in Hall; try lia.
  destruct (keys_group_by_hash vs) as (_ & Hkeys & _). rewrite Hg in Hkeys. cbn [map fst] in Hkeys.
  assert (Hh : Forall (fun x => v_hash x = h) vs).
  { apply List.Forall_forall. intros x Hx.
    assert (In (v_hash x) [h]) as [E|[]] by (apply Hkeys; now apply in_map).
    now symmetry. }
  exists h. split; [|exact Hh].
  rewrite (apply_voting_one_hash original_result h vs Hne Hlen Hh) in Hv. congruence.
Qed.

End VotingAgreement.

Section FlagTypes.

Lemma default_strength_not_low : lt_float (NInt 1) 0.5 = false.
Proof. vm_compute. reflexivity. Qed.

Lemma flag_errors_types (result : option (list (key * value))) (v : verification_dict) :
  flag_types (flag_errors result v) =
    (if default false (vd_verified v) then [] else ["verification_failed"]) ++
    (if match vd_verification_details v with
        | Some {| d_consensus_strength := Some c |} => (c <? 0.5)%float
        | _ => false
        end then ["low_consensus"] else []) ++
    (if match result with None => true | Some items => len items =? 0 end
     then ["empty_result"] else []).
Proof.
  unfold flag_errors. cbv zeta.
  destruct (match result with None => true | Some items => len items =? 0 end);
    destruct (vd_verified v) as [[|]|];
    destruct (vd_verification_details v) as [[[c|]]|];
    unfold default; cbn [from_option id negb d_consensus_strength];
    rewrite ?default_strength_not_low; unfold lt_float;
    try destruct (c <? 0.5)%float; reflexivity.
Qed.

End FlagTypes.

(** X13: [flag_errors] on a dict and the verdict [verify] gave for it,
    for the default agent: no flag when the dict is not empty, the
    empty-result flag alone when it is empty. *)
Theorem flag_errors_of_verify (id : string) (items : list (key * value)) (r : verdict) :
  verify (QualityAgent.init id) (VDict items) = Ok r ->
  flag_errors (Some items) (verdict_dict r) =
    match items with
    | [] => [empty_result_flag]
    | _ :: _ => []
    end.
Proof.
  intros Hr.
  destruct (hash_result_cases (VDict items)) as [[_ [h Hh]]|[_ Hraise]].
  - rewrite (verify_of_hash _ _ h Hh) in Hr. injection Hr as <-.
    destruct items; reflexivity.
  - rewrite (verify_raise _ _ _ Hraise) in Hr. discriminate.
Qed.

(** The dict of the repository's tests has no flag. *)
Lemma flag_errors_of_verify_witness :
  exists r, verify (QualityAgent.init "quality-001")
                   (VDict [(KStr "data", VStr "test"); (KStr "value", VInt 42)]) = Ok r /\
    flag_errors (Some [(KStr "data", VStr "test"); (KStr "value", VInt 42)])
                (verdict_dict r) = [].
Proof.
  destruct (verify (QualityAgent.init "quality-001")
                   (VDict [(KStr "data", VStr "test"); (KStr "value", VInt 42)]))
    as [r|e] eqn:E; [|vm_compute in E; discriminate].
  exists r. split; [reflexivity|].
  exact (flag_errors_of_verify "quality-001" _ r E).
Defined.

(** X14: for every vote [apply_voting] counts (fewer than [2^63]
    verifications) and the verdict the default agent draws from it,
    [flag_errors] reports "low_consensus" exactly when the strength is
    below 0.5, "verification_failed" exactly when the verdict is not
    verified, and never the first without the second. *)
Theorem low_consensus_is_failed (id : string) (original_result : value)
    (vs : list verification) (v : voting) (result : option (list (key * value))) :
  len vs < 2 ^ 63 -> apply_voting original_result vs = Ok v ->
  let r := verdict_of (QualityAgent.init id) vs v in
  let flags := flag_errors result (verdict_dict r) in
  (In "low_consensus" (flag_types flags) <-> (consensus_strength v <? 0.5)%float = true) /\
  (In "verification_failed" (flag_types flags) <-> verified r = false) /\
  (In "low_consensus" (flag_types flags) -> In "verification_failed" (flag_types flags)).
Proof.
  intros Hlen Hv. cbv zeta. rewrite flag_errors_types.
  set (r := verdict_of (QualityAgent.init id) vs v).
  change (default false (vd_verified (verdict_dict r))) with (verified r).
  change (vd_verification_details (verdict_dict r))
    with (Some {| d_consensus_strength := Some (consensus_strength v) |}).
  cbv iota.
  assert (Hlow : (consensus_strength v <? 0.5)%float = true -> verified r = false).
  { intros Hc. subst r. unfold verdict_of. cbn [verified QualityAgent.init verification_threshold].
    apply ltb_leb_false. unfold _calculate_quality_score.
    destruct (all_agree v) eqn:Hall.
    - destruct (apply_voting_all_agree _ _ _ Hlen Hv Hall) as (h & -> & _).
      cbn in Hc. discriminate.
    - now apply low_strength_score. }
  assert (H1 : In "low_consensus"
                 ((if verified r then [] else ["verification_failed"]) ++
                  (if (consensus_strength v <? 0.5)%float then ["low_consensus"] else []) ++
                  (if match result with None => true | Some items => len items =? 0 end
                   then ["empty_result"] else []))
               <-> (consensus_strength v <? 0.5)%float = true).
  { rewrite !in_app_iff.
    destruct (verified r), (consensus_strength v <? 0.5)%float,
      (match result with None => true | Some items => len items =? 0 end); cbn;
      intuition discriminate. }
  assert (H2 : In "verification_failed"
                 ((if verified r then [] else ["verification_failed"]) ++
                  (if (consensus_strength v <? 0.5)%float then ["low_consensus"] else []) ++
                  (if match result with None => true | Some items => len items =? 0 end
                   then ["empty_result"] else []))
               <-> verified r = false).
  { rewrite !in_app_iff.
    destruct (verified r), (consensus_strength v <? 0.5)%float,
      (match result with None => true | Some items => len items =? 0 end); cbn;
      intuition discriminate. }
  split; [exact H1|]. split; [exact H2|].
  intros H. apply H2, Hlow, H1, H.
Qed.

(** Three verifiers, three fingerprints: strength 1/3. *)
Lemma low_consensus_is_failed_witness :
  let v h := Verification "agent" h VNone None None in
  let r := Voting "aa" 1 3 (1 / 3) [("aa", 1); ("bb", 1); ("cc", 1)] false in
  flag_types (flag_errors (Some [(KStr "data", VInt 1)])
                (verdict_dict (verdict_of (QualityAgent.init "quality-001")
                                          [v "aa"; v "bb"; v "cc"] r)))
  = ["verification_failed"; "low_consensus"] /\
  In "verification_failed"
     (flag_types (flag_errors (Some [(KStr "data", VInt 1)])
                    (verdict_dict (verdict_of (QualityAgent.init "quality-001")
                                              [v "aa"; v "bb"; v "cc"] r)))).
Proof.
  cbv zeta. split; [vm_compute; reflexivity|].
  destruct (low_consensus_is_failed "quality-001" VNone
              [Verification "agent" "aa" VNone None None;
               Verification "agent" "bb" VNone None None;
               Verification "agent" "cc" VNone None None]
              (Voting "aa" 1 3 (1 / 3) [("aa", 1); ("bb", 1); ("cc", 1)] false)
              (Some [(KStr "data", VInt 1)]))
    as (_ & _ & H).
  - vm_compute. reflexivity.
  - vm_compute. reflexivity.
  - apply H. vm_compute. right. left. reflexivity.
Defined.

(** ** [verify_with_quality_agent] *)

Section DictSet.

Lemma dict_get_set_same (d : list (key * value)) (k : string) (v : value) :
  dict_get (dict_set d k v) k = v.
Proof.
  unfold dict_get. induction d as [|[k' v'] d IH]; cbn [dict_set List.find fst snd].
  - now rewrite String.eqb_refl.
  - destruct k' as [s| | |]; try exact IH.
    destruct (String.eqb s k) eqn:E; cbn [List.find fst snd]; rewrite E; [reflexivity | exact IH].
Qed.

Lemma dict_get_set_other (d : list (key * value)) (k k' : string) (v : value) :
  k' <> k -> dict_get (dict_set d k v) k' = dict_get d k'.
Proof.
  intros Hne. unfold dict_get.
  induction d as [|[k0 v0] d IH]; cbn [dict_set List.find fst snd].
  - replace (String.eqb k k') with false; [reflexivity|].
    symmetry. apply String.eqb_neq. congruence.
  - destruct k0 as [s| | |]; cbn [List.find fst snd]; try exact IH.
    destruct (String.eqb s k) eqn:E; cbn [List.find fst snd].
    + apply String.eqb_eq in E. subst s.
      replace (String.eqb k k') with false; [reflexivity|].
      symmetry. apply String.eqb_neq. congruence.
    + destruct (String.eqb s k'); [reflexivity | exact IH].
Qed.

End DictSet.

(** X15: [verify_with_quality_agent] answers with the verdict of
    [verify] when there is a quality agent and the result can be
    serialised; otherwise with the result itself, where ["verified"] is
    [False], the reason is under ["verification_error"] (the text of the
    [TypeError]) or ["verification_note"] (no agent), and every other key
    is as it was. *)
Theorem verify_with_quality_agent_outcome (message : exn -> string)
    (quality_agent : option agent) (result : list (key * value)) :
  match verify_with_quality_agent message quality_agent result with
  | inl r =>
      exists qa h, quality_agent = Some qa /\ hash_result (VDict result) = Ok h /\
                   r = unanimous_verdict (verification_threshold qa) h
  | inr d =>
      dict_get d "verified" = VBool false /\
      match quality_agent with
      | Some _ => ~ serializable (VDict result) /\
                  dict_get d "verification_error" = VStr (message TypeError)
      | None => dict_get d "verification_note" = VStr "Quality agent not available"
      end /\
      forall k, k <> "verified" -> k <> "verification_error" -> k <> "verification_note" ->
                dict_get d k = dict_get result k
  end.
Proof.
  unfold verify_with_quality_agent. destruct quality_agent as [qa|].
  - destruct (hash_result_cases (VDict result)) as [[_ [h Hh]]|[Hn Hraise]].
    + rewrite (verify_of_hash qa _ h Hh). exists qa, h. repeat split. exact Hh.
    + rewrite (verify_raise qa _ _ Hraise). split; [|split; [split|]].
      * rewrite dict_get_set_other by discriminate. apply dict_get_set_same.
      * exact Hn.
      * apply dict_get_set_same.
      * intros k H1 H2 _. now rewrite !dict_get_set_other.
  - split; [|split].
    + rewrite dict_get_set_other by discriminate. apply dict_get_set_same.
    + apply dict_get_set_same.
    + intros k H1 _ H3. now rewrite !dict_get_set_other.
Qed.

(** ** [execute] *)

Section Execution.

Lemma confidences_of_components (cs : list component) :
  map (fun r => default 0.5%float (cr_confidence r)) (map _execute_component cs) =
  repeat 0.85%float (length cs).
Proof. induction cs as [|c cs IH]; cbn; [reflexivity | now rewrite <- IH]. Qed.

Lemma calculate_confidence_components (cs : list component) :
  len cs <= 10 ->
  _calculate_confidence (map _execute_component cs) = Ok (mean_confidence (len cs)).
Proof.
  intros Hlen. unfold _calculate_confidence.
  destruct cs as [|c cs]; [reflexivity|].
  change (map _execute_component (c :: cs))
    with (_execute_component c :: map _execute_component cs) at 1.
  cbv iota. rewrite confidences_of_components.
  unfold len in *. rewrite repeat_length.
  do 10 (destruct cs as [|? cs]; [vm_compute; reflexivity|]).
  cbn [length] in Hlen. lia.
Qed.

Lemma execute_components (d : decomposition) :
  len (components d) <= 10 ->
  execute d =
    Ok {| ex_status := "completed";
          ex_original_task := original_task d;
          ex_total_steps := total_steps d;
          components_completed := len (components d);
          ex_results := map _execute_component (components d);
          ex_confidence := mean_confidence (len (components d)) |}.
Proof.
  intros Hlen. unfold execute. rewrite for_each_map. cbn [bind].
  rewrite (calculate_confidence_components _ Hlen). cbn [bind].
  unfold len. now rewrite length_map.
Qed.

End Execution.

(** X16: [execute] on what [decompose] returns, for every task, level
    and depth: it completes every component, keeps the task and the step
    total, counts the subtasks of each component, and reports as
    confidence the binary64 mean of the components' 0.85, which is 0.0
    without components (level below 10), 0.85 up to six components and
    0.8499999999999999 from seven components on (level 70 and above). *)
Theorem execute_after_decompose (task : string) (level depth : Z) :
  exists d r, decompose task level depth = Ok d /\ execute d = Ok r /\
    ex_status r = "completed" /\
    ex_original_task r = task /\
    ex_total_steps r = total_steps d /\
    components_completed r = component_count level /\
    map component_id (ex_results r) = map comp_id (components d) /\
    Forall (fun cr => cr_status cr = "completed" /\
                      subtasks_completed cr = subtask_count level depth /\
                      cr_confidence cr = Some 0.85%float)
           (ex_results r) /\
    ex_confidence r =
      if level <? 10 then 0.0%float
      else if level <? 70 then 0.85%float else 0.8499999999999999%float.
Proof.
  destruct (decompose_shape task level depth)
    as (d & Hd & Htask & _ & _ & _ & Hlen & Hw & _).
  assert (H10 : len (components d) <= 10) by (rewrite Hlen; unfold component_count; lia).
  exists d. eexists. split; [exact Hd|]. split; [apply (execute_components d H10)|].
  cbn [ex_status ex_original_task ex_total_steps components_completed ex_results
       ex_confidence].
  split; [reflexivity|]. split; [exact Htask|]. split; [reflexivity|].
  split; [exact Hlen|]. split; [now rewrite map_map|]. split.
  - apply List.Forall_map. unfold widths in Hw.
    eapply List.Forall_impl; [|exact Hw]. intros c [Hc _]. cbn. repeat split. exact Hc.
  - rewrite Hlen. unfold mean_confidence, component_count.
    destruct (level <? 10) eqn:E10.
    + apply Z.ltb_lt in E10.
      assert (level / 10 <= 0) by (apply Z.lt_succ_r, Z.div_lt_upper_bound; lia).
      replace (Z.max 0 (Z.min (level / 10) 10) <=? 0) with true; [reflexivity|].
      symmetry. apply Z.leb_le. lia.
    + apply Z.ltb_ge in E10.
      assert (1 <= level / 10) by (apply Z.div_le_lower_bound; lia).
      replace (Z.max 0 (Z.min (level / 10) 10) <=? 0) with false
        by (symmetry; apply Z.leb_gt; lia).
      destruct (level <? 70) eqn:E70.
      * apply Z.ltb_lt in E70.
        assert (level / 10 <= 6) by (apply Z.lt_succ_r, Z.div_lt_upper_bound; lia).
        replace (Z.max 0 (Z.min (level / 10) 10) <=? 6) with true; [reflexivity|].
        symmetry. apply Z.leb_le. lia.
      * apply Z.ltb_ge in E70.
        assert (7 <= level / 10) by (apply Z.div_le_lower_bound; lia).
        replace (Z.max 0 (Z.min (level / 10) 10) <=? 6) with false; [reflexivity|].
        symmetry. apply Z.leb_gt. lia.
Qed.

(** ** The tree of [decompose] in closed form *)

Section ClosedForm.

Variable task : string.
Variables level depth : Z.

Lemma make_subtask_closed (major sub_count i j : Z) :
  1 <= major -> 1 <= sub_count ->
  make_subtask level depth major sub_count i j =
    Ok (subtask_of level depth major sub_count i j).
Proof.
  intros Hm Hs. unfold make_subtask, subtask_of.
  destruct (2 <? depth); [|reflexivity].
  rewrite floordiv_ok by nia. cbn [bind]. now rewrite for_each_map.
Qed.

Lemma make_component_closed (major i : Z) :
  1 <= major ->
  make_component task level depth major i = Ok (component_of task level depth major i).
Proof.
  intros Hm. unfold make_component, component_of.
  destruct (1 <? depth); [|reflexivity].
  rewrite floordiv_ok by lia. cbn [bind].
  rewrite (for_each_ext_map (subtask_of level depth major (Z.min (level / major) 20) i)).
  - reflexivity.
  - intros j Hj. apply in_range in Hj. apply make_subtask_closed; lia.
Qed.

Lemma decompose_closed :
  let major := Z.min (level / 10) 10 in
  let cs := map (component_of task level depth major) (range major) in
  decompose task level depth =
    Ok {| original_task := task;
          decomposition_level := level;
          max_depth := depth;
          components := cs;
          total_steps := fold_left Z.add (map component_steps cs) 0;
          status := "decomposed" |}.
Proof.
  cbv zeta. unfold decompose. rewrite floordiv_ok by lia. cbn [bind].
  rewrite (for_each_ext_map (component_of task level depth (Z.min (level / 10) 10))).
  - reflexivity.
  - intros i Hi. apply in_range in Hi. apply make_component_closed. lia.
Qed.

End ClosedForm.

(** ** The ids of a decomposition *)

Section Digits.

Lemma string_of_uint_digits (d : Decimal.uint) : digits_only (NilEmpty.string_of_uint d).
Proof. unfold digits_only. induction d; cbn; auto. Qed.

Lemma str_digits (n : Z) : 0 <= n -> digits_only (str n).
Proof.
  intros Hn. unfold str. destruct n as [|p|p]; try lia.
  - reflexivity.
  - cbn [Z.to_int NilZero.string_of_int]. unfold NilZero.string_of_uint.
    destruct (Pos.to_uint p) eqn:E; try apply string_of_uint_digits. reflexivity.
Qed.

(** A run of digits ends at the first dash. *)
Lemma dash_split (a b r r' : string) :
  digits_only a -> digits_only b ->
  a +:+ String "-" r = b +:+ String "-" r' -> a = b /\ r = r'.
Proof.
  unfold digits_only. revert b. induction a as [|c a IH]; intros [|c' b] Ha Hb H; cbn in H.
  - injection H as H. now split.
  - injection H as Hc _. subst c'. cbn in Hb. discriminate.
  - injection H as Hc _. subst c. cbn in Ha. discriminate.
  - injection H as Hc H. subst c'.
    cbn [list_ascii_of_string forallb] in Ha, Hb.
    apply andb_true_iff in Ha as [_ Ha]. apply andb_true_iff in Hb as [_ Hb].
    destruct (IH b Ha Hb H) as [-> ->]. now split.
Qed.

Lemma component_id_inj (i i' : Z) :
  "component-" +:+ str i = "component-" +:+ str i' -> i = i'.
Proof. intros H. apply str_inj. exact (app_inj_l _ _ _ H). Qed.

Lemma subtask_id_inj (i j i' j' : Z) :
  0 <= i -> 0 <= i' ->
  "subtask-" +:+ str i +:+ "-" +:+ str j = "subtask-" +:+ str i' +:+ "-" +:+ str j' ->
  i = i' /\ j = j'.
Proof.
  intros Hi Hi' H. apply app_inj_l in H.
  change ("-" +:+ str j) with (String "-" (str j)) in H.
  change ("-" +:+ str j') with (String "-" (str j')) in H.
  apply dash_split in H as [Ha Hb]; try now apply str_digits.
  split; now apply str_inj.
Qed.

Lemma step_id_inj (i j k i' j' k' : Z) :
  0 <= i -> 0 <= i' -> 0 <= j -> 0 <= j' ->
  step_id (step_of i j k) = step_id (step_of i' j' k') -> i = i' /\ j = j' /\ k = k'.
Proof.
  intros Hi Hi' Hj Hj' H. cbn [step_of step_id] in H. apply app_inj_l in H.
  change ("-" +:+ str j +:+ "-" +:+ str k) with (String "-" (str j +:+ String "-" (str k))) in H.
  change ("-" +:+ str j' +:+ "-" +:+ str k')
    with (String "-" (str j' +:+ String "-" (str k'))) in H.
  apply dash_split in H as [Ha H]; try now apply str_digits.
  apply dash_split in H as [Hb Hc]; try now apply str_digits.
  repeat split; now apply str_inj.
Qed.

End Digits.

Section Distinct.

Lemma NoDup_range (n : Z) : NoDup (range n).
Proof.
  unfold range. change (map Z.of_nat ?l) with (Z.of_nat <$> l).
  apply NoDup_fmap_2_strong; [|apply NoDup_seq].
  intros x y _ _. apply Nat2Z.inj.
Qed.

Lemma NoDup_map_range {B : Type} (f : Z -> B) (n : Z) :
  (forall x y, 0 <= x -> 0 <= y -> f x = f y -> x = y) -> NoDup (map f (range n)).
Proof.
  intros Hf. change (map f ?l) with (f <$> l).
  apply NoDup_fmap_2_strong; [|apply NoDup_range].
  intros x y Hx Hy. apply list_elem_of_In, in_range in Hx. apply list_elem_of_In, in_range in Hy.
  apply Hf; lia.
Qed.

Lemma NoDup_flat_map {A B : Type} (f : A -> list B) (l : list A) :
  (forall x, In x l -> NoDup (f x)) ->
  (forall x1 x2 y, In x1 l -> In x2 l -> In y (f x1) -> In y (f x2) -> x1 = x2) ->
  NoDup l -> NoDup (flat_map f l).
Proof.
  intros Hf Hd Hl. induction Hl as [|x l Hx Hl IH]; cbn [flat_map]; [constructor|].
  apply NoDup_app. split; [apply Hf; now left|]. split.
  - intros y Hy Hy'. apply list_elem_of_In in Hy. apply list_elem_of_In, in_flat_map in Hy'.
    destruct Hy' as (x' & Hx' & Hy').
    assert (x = x') by (apply (Hd x x' y); auto; [now left | now right]).
    subst x'. apply Hx. now apply list_elem_of_In.
  - apply IH.
    + intros x' Hx'. apply Hf. now right.
    + intros x1 x2 y H1 H2. apply Hd; now right.
Qed.

Lemma flat_map_map {A B C : Type} (g : A -> B) (f : B -> list C) (l : list A) :
  flat_map f (map g l) = flat_map (fun x => f (g x)) l.
Proof. induction l as [|x l IH]; cbn; [reflexivity | now rewrite IH]. Qed.

End Distinct.

(** X17: the ids of a decomposition are pairwise distinct, for every
    task, level and depth: those of the components, those of the subtasks
    and those of the steps. *)
Theorem decompose_ids_unique (task : string) (level depth : Z) :
  exists d, decompose task level depth = Ok d /\
    NoDup (map comp_id (components d)) /\
    NoDup (subtask_ids d) /\
    NoDup (step_ids d).
Proof.
  rewrite decompose_closed. cbv zeta. eexists. split; [reflexivity|].
  unfold subtask_ids, step_ids. cbn [components].
  set (major := Z.min (level / 10) 10).
  split; [|split].
  - rewrite map_map. cbn [component_of comp_id].
    apply NoDup_map_range. intros x y _ _. apply component_id_inj.
  - rewrite flat_map_map. cbn [component_of subtasks].
    destruct (1 <? depth).
    2: { induction (range major); [constructor | assumption]. }
    apply NoDup_flat_map; [| |apply NoDup_range].
    + intros i Hi. apply in_range in Hi. rewrite map_map. cbn [subtask_of sub_id].
      apply NoDup_map_range. intros x y _ _ H.
      now apply subtask_id_inj in H as [_ H]; try lia.
    + intros i1 i2 y Hi1 Hi2 Hy1 Hy2. apply in_range in Hi1. apply in_range in Hi2.
      rewrite map_map in Hy1, Hy2. cbn [subtask_of sub_id] in Hy1, Hy2.
      apply in_map_iff in Hy1 as (j1 & <- & _). apply in_map_iff in Hy2 as (j2 & H & _).
      now apply subtask_id_inj in H as [H _]; try lia.
  - rewrite flat_map_map. cbn [component_of subtasks].
    destruct (1 <? depth).
    2: { induction (range major); [constructor | assumption]. }
    set (sc := Z.min (level / major) 20).
    assert (Hin : forall i y,
               In y (flat_map (fun s => map step_id (steps s))
                              (map (subtask_of level depth major sc i) (range sc))) ->
               exists j k, 0 <= j /\ y = step_id (step_of i j k)).
    { intros i y Hy. rewrite flat_map_map in Hy. apply in_flat_map in Hy as (j & Hj & Hy).
      apply in_range in Hj. cbn [subtask_of steps] in Hy.
      destruct (2 <? depth); [|destruct Hy].
      rewrite map_map in Hy. apply in_map_iff in Hy as (k & <- & _).
      exists j, k. split; [lia | reflexivity]. }
    apply NoDup_flat_map; [| |apply NoDup_range].
    + intros i Hi. apply in_range in Hi. rewrite flat_map_map.
      apply NoDup_flat_map; [| |apply NoDup_range].
      * intros j Hj. apply in_range in Hj. cbn [subtask_of steps].
        destruct (2 <? depth); [|constructor].
        rewrite map_map. apply NoDup_map_range. intros x y _ _ H.
        apply step_id_inj in H; lia.
      * intros j1 j2 y Hj1 Hj2 Hy1 Hy2. apply in_range in Hj1. apply in_range in Hj2.
        cbn [subtask_of steps] in Hy1, Hy2.
        destruct (2 <? depth); [|destruct Hy1].
        rewrite map_map in Hy1, Hy2.
        apply in_map_iff in Hy1 as (k1 & <- & _). apply in_map_iff in Hy2 as (k2 & H & _).
        apply step_id_inj in H; lia.
    + intros i1 i2 y Hi1 Hi2 Hy1 Hy2. apply in_range in Hi1. apply in_range in Hi2.
      apply Hin in Hy1 as (j1 & k1 & Hj1 & ->). apply Hin in Hy2 as (j2 & k2 & Hj2 & H).
      apply step_id_inj in H; lia.
Qed.

(** ** The steps of a decomposition *)

Section Leaves.

Lemma len_app {A : Type} (l k : list A) : len (l ++ k) = len l + len k.
Proof. unfold len. rewrite length_app. lia. Qed.

Lemma len_flat_map_const {A B : Type} (f : A -> list B) (w : Z) (l : list A) :
  Forall (fun x => len (f x) = w) l -> len (flat_map f l) = len l * w.
Proof.
  induction 1 as [|x l Hx _ IH]; cbn [flat_map]; [reflexivity|].
  rewrite len_app, IH, Hx. unfold len. cbn [length]. lia.
Qed.

Lemma leaves_widths (w2 w3 : Z) (d : decomposition) :
  widths w2 w3 d -> leaves d = len (components d) * (w2 * w3).
Proof.
  intros Hw. unfold leaves, step_ids. apply len_flat_map_const.
  eapply List.Forall_impl; [|exact Hw]. intros c [Hc Hs]. cbn beta.
  rewrite <- Hc. apply len_flat_map_const.
  eapply List.Forall_impl; [|exact Hs]. intros s Hs'. cbn beta.
  unfold len in *. now rewrite length_map.
Qed.

End Leaves.

(** X18: ["total_steps"] of a decomposition, for every task, level and
    depth: for a depth of two or more it is the number of steps in the
    tree (none at depth two); for a depth of one or less the tree has no
    step and it counts one per component.  It never exceeds the requested
    level, nor 2000. *)
Theorem decompose_total_steps (task : string) (level depth : Z) :
  exists d, decompose task level depth = Ok d /\
    leaves d = component_count level * (subtask_count level depth * step_count level depth) /\
    (2 <= depth -> total_steps d = leaves d) /\
    (depth = 2 -> total_steps d = 0) /\
    (depth <= 1 -> total_steps d = len (components d) /\ leaves d = 0) /\
    0 <= total_steps d <= 2000 /\
    total_steps d <= Z.max 0 level.
Proof.
  destruct (decompose_shape task level depth)
    as (d & Hd & _ & _ & _ & _ & Hlen & Hw & Htotal).
  exists d. split; [exact Hd|].
  pose proof (leaves_widths _ _ d Hw) as Hleaves. rewrite Hlen in Hleaves.
  split; [exact Hleaves|].
  set (cc := component_count level) in *.
  set (sc := subtask_count level depth) in *.
  set (stc := step_count level depth) in *.
  assert (Hcc : 0 <= cc <= 10) by (subst cc; unfold component_count; lia).
  assert (Hccl : cc <= Z.max 0 level).
  { subst cc. unfold component_count.
    destruct (Z.le_gt_cases level 0) as [Hl|Hl].
    - assert (level / 10 <= 0) by (apply Z.lt_succ_r, Z.div_lt_upper_bound; lia). lia.
    - assert (level / 10 <= level) by (apply Z.div_le_upper_bound; lia). lia. }
  assert (Hsc : 0 <= sc <= 20) by (subst sc; unfold subtask_count; destruct (1 <? depth); lia).
  assert (Hstc : 0 <= stc <= 10) by (subst stc; unfold step_count; destruct (2 <? depth); lia).
  assert (Hsc1 : 1 <= cc -> 2 <= depth -> 1 <= sc).
  { intros H1 H2. subst sc. unfold subtask_count.
    replace (1 <? depth) with true by (symmetry; apply Z.ltb_lt; lia).
    fold cc. assert (1 <= level / cc); [|lia].
    apply Z.div_le_lower_bound; [lia|]. lia. }
  assert (Hprod : cc * (sc * stc) <= Z.max 0 level).
  { destruct (Z.eq_dec (cc * sc) 0) as [E|E].
    - rewrite Z.mul_assoc, E. lia.
    - assert (Hpos : 0 < cc * sc) by nia.
      assert (Hle : cc * sc <= Z.max 0 level).
      { subst sc. unfold subtask_count in *. destruct (1 <? depth); [|lia].
        fold cc in E, Hpos |- *. assert (0 < cc) by nia.
        pose proof (Z.mul_div_le level cc ltac:(lia)) as Hm.
        assert (Z.max 0 (Z.min (level / cc) 20) <= level / cc) by nia.
        nia. }
      assert (Hst : stc <= level / (cc * sc) \/ stc = 0).
      { subst stc. unfold step_count. destruct (2 <? depth); [|now right].
        fold cc sc. lia. }
      destruct Hst as [Hst| ->]; [|lia].
      pose proof (Z.mul_div_le level (cc * sc) Hpos) as Hm.
      rewrite Z.mul_assoc.
      assert (cc * sc * stc <= cc * sc * (level / (cc * sc)))
        by (apply Z.mul_le_mono_nonneg_l; lia).
      lia. }
  assert (Hcase : (1 <= sc /\ total_steps d = cc * (sc * stc)) \/
                  (sc = 0 /\ total_steps d = cc)).
  { destruct (Z.eq_dec sc 0) as [E|E].
    - right. split; [exact E|]. rewrite Htotal.
      rewrite E in Hw. pose proof (widths_zero_component_steps _ d Hw) as H.
      rewrite (fold_add_const component_steps 1).
      + rewrite Hlen. lia.
      + eapply List.Forall_impl; [|exact H]. now intros c [_ Hc].
    - left. split; [lia|]. rewrite Htotal.
      rewrite (fold_add_const component_steps (sc * stc)).
      + rewrite Hlen. lia.
      + apply (widths_component_steps sc stc d); [lia | exact Hw]. }
  assert (Hdepth1 : depth <= 1 -> sc = 0).
  { intros H. subst sc. unfold subtask_count.
    now replace (1 <? depth) with false by (symmetry; apply Z.ltb_ge; lia). }
  assert (Hdepth2 : depth <= 2 -> stc = 0).
  { intros H. subst stc. unfold step_count.
    now replace (2 <? depth) with false by (symmetry; apply Z.ltb_ge; lia). }
  assert (Hbound : 0 <= cc * (sc * stc) <= 2000).
  { assert (0 <= sc * stc) by (apply Z.mul_nonneg_nonneg; lia).
    split; [apply Z.mul_nonneg_nonneg; lia|].
    assert (sc * stc <= 20 * 10) by (apply Z.mul_le_mono_nonneg; lia).
    assert (cc * (sc * stc) <= 10 * (20 * 10)).
    { apply Z.mul_le_mono_nonneg; lia. }
    lia. }
  split; [|split; [|split; [|split]]].
  - intros H2. rewrite Hleaves. destruct Hcase as [[_ ->]|[E ->]]; [reflexivity|].
    destruct (Z.eq_dec cc 0) as [E0|E0]; [rewrite E0; lia|].
    specialize (Hsc1 ltac:(lia) H2). lia.
  - intros ->. destruct Hcase as [[_ ->]|[E ->]].
    + rewrite (Hdepth2 ltac:(lia)). lia.
    + destruct (Z.eq_dec cc 0) as [E0|E0]; [exact E0|].
      specialize (Hsc1 ltac:(lia) ltac:(lia)). lia.
  - intros H1. rewrite Hleaves, Hlen, (Hdepth1 H1).
    destruct Hcase as [[Hs _]|[_ ->]]; [rewrite (Hdepth1 H1) in Hs; lia|].
    split; [reflexivity | lia].
  - destruct Hcase as [[_ ->]|[_ ->]]; lia.
  - destruct Hcase as [[_ ->]|[_ ->]]; lia.
Qed.

(** ** The groups of a vote *)

Section GroupCounts.

Lemma fold_add_acc (l : list Z) (a : Z) : fold_left Z.add l a = a + fold_left Z.add l 0.
Proof.
  revert a. induction l as [|x l IH]; intros a; cbn [fold_left]; [lia|].
  rewrite (IH (a + x)), (IH (0 + x)). lia.
Qed.

Lemma group_sizes_append (h : string) (v : verification)
    (groups : list (string * list verification)) :
  fold_left Z.add (map (fun hg => len (snd hg)) (group_append h v groups)) 0 =
  fold_left Z.add (map (fun hg => len (snd hg)) groups) 0 + 1.
Proof.
  induction groups as [|[h' g] groups IH]; cbn [group_append]; [reflexivity|].
  destruct (String.eqb h' h); cbn [map fold_left snd].
  - rewrite fold_add_acc, (fold_add_acc _ (0 + len g)), len_app.
    unfold len at 2. cbn [length]. lia.
  - rewrite fold_add_acc, (fold_add_acc _ (0 + len g)), IH. lia.
Qed.

Lemma group_sizes_fold (vs : list verification)
    (groups : list (string * list verification)) :
  fold_left Z.add (map (fun hg => len (snd hg)) (fold_left add_vote vs groups)) 0 =
  fold_left Z.add (map (fun hg => len (snd hg)) groups) 0 + len vs.
Proof.
  revert groups. induction vs as [|v vs IH]; intros groups; cbn [fold_left].
  - unfold len. cbn. lia.
  - rewrite IH. unfold add_vote. rewrite group_sizes_append.
    unfold len. cbn [length]. lia.
Qed.

Lemma group_of_in (h : string) (g : list verification)
    (groups : list (string * list verification)) :
  NoDup (map fst groups) -> In (h, g) groups -> group_of h groups = g.
Proof.
  induction groups as [|[h' g'] groups IH]; intros Hnd Hin; [destruct Hin|].
  cbn [map fst] in Hnd. apply NoDup_cons in Hnd as [Hh' Hnd].
  cbn [group_of]. destruct Hin as [E|Hin].
  - injection E as -> ->. now rewrite String.eqb_refl.
  - destruct (String.eqb h' h) eqn:E.
    + apply String.eqb_eq in E. subst h'. exfalso. apply Hh'.
      apply list_elem_of_In. change h with (fst (h, g)). now apply in_map.
    + now apply IH.
Qed.

Lemma count_present (h : string) (vs : list verification) :
  In h (map v_hash vs) -> 1 <= count h vs.
Proof.
  intros Hin. apply in_map_iff in Hin as (v & Hv & Hin). unfold count.
  assert (In v (List.filter (fun v => String.eqb (v_hash v) h) vs)).
  { apply filter_In. split; [exact Hin|]. now apply String.eqb_eq. }
  destruct (List.filter _ vs); [contradiction|]. unfold len. cbn [length]. lia.
Qed.

Lemma count_le_len (h : string) (vs : list verification) : count h vs <= len vs.
Proof.
  unfold count, len.
  pose proof (List.filter_length_le (fun v => String.eqb (v_hash v) h) vs). lia.
Qed.

End GroupCounts.

(** X19: the ["hash_groups"] of a vote on a non-empty round: its keys
    are the distinct fingerprints of the round in the order they were
    first met; each is mapped to the number of verifications that carry
    it, which is at least one; the counts add up to the number of
    verifications; and the majority with its count is one of the
    entries. *)
Theorem apply_voting_hash_groups (original_result : value) (vs : list verification) :
  vs <> [] ->
  exists r, apply_voting original_result vs = Ok r /\
    first_seen_order (map fst (hash_groups r)) (map v_hash vs) /\
    Forall (fun hc => snd hc = count (fst hc) vs /\ 1 <= snd hc) (hash_groups r) /\
    fold_left Z.add (map snd (hash_groups r)) 0 = total_verifiers r /\
    total_verifiers r = len vs /\
    In (majority_hash r, majority_count r) (hash_groups r) /\
    1 <= majority_count r <= total_verifiers r.
Proof.
  intros Hvs.
  pose proof (keys_group_by_hash vs) as Hfs.
  destruct Hfs as (Hnd & Hin & Hord).
  assert (Hkeys : map fst (group_by_hash vs) <> []).
  { destruct vs as [|v vs']; [congruence|].
    intros E. assert (Hv : In (v_hash v) (map fst (group_by_hash (v :: vs'))))
      by (apply Hin; now left).
    rewrite E in Hv. destruct Hv. }
  destruct (max_by_spec (fun h => len (group_of h (group_by_hash vs))) _ Hkeys)
    as (m & kp & kq & Hmax & Hsplit & _ & _).
  unfold apply_voting. rewrite Hmax. cbn [bind]. unfold truediv.
  assert (Hlen : (len vs =? 0) = false).
  { apply Z.eqb_neq. destruct vs; [congruence | unfold len; cbn; lia]. }
  rewrite Hlen. cbn [bind]. eexists. split; [reflexivity|].
  cbn [majority_hash majority_count total_verifiers hash_groups].
  assert (Hm : In m (map fst (group_by_hash vs))).
  { rewrite Hsplit. apply in_or_app. right. now left. }
  rewrite len_group_of.
  split; [|split; [|split; [|split; [|split]]]].
  - rewrite map_map. cbn [fst]. exact (conj Hnd (conj Hin Hord)).
  - apply List.Forall_map, List.Forall_forall. intros [h g] Hg. cbn [fst snd].
    rewrite <- (len_group_of h vs), (group_of_in h g _ Hnd Hg).
    split; [reflexivity|].
    rewrite <- (group_of_in h g _ Hnd Hg), len_group_of. apply count_present, Hin.
    change h with (fst (h, g)). now apply in_map.
  - rewrite map_map. cbn [snd].
    unfold group_by_hash. change (fun groups v => group_append (v_hash v) v groups) with add_vote.
    rewrite group_sizes_fold. cbn. lia.
  - reflexivity.
  - apply in_map_iff in Hm as ([h g] & Hh & Hg). cbn [fst] in Hh. subst h.
    apply in_map_iff. exists (m, g). split; [|exact Hg]. cbn [fst snd].
    now rewrite <- (len_group_of m vs), (group_of_in m g _ Hnd Hg).
  - split; [apply count_present, Hin, Hm | apply count_le_len].
Qed.

(** Five verifications, three fingerprints. *)
Lemma apply_voting_hash_groups_witness :
  let v h := Verification "agent" h VNone None None in
  exists r, apply_voting VNone [v "bb"; v "aa"; v "aa"; v "bb"; v "cc"] = Ok r /\
    hash_groups r = [("bb", 2); ("aa", 2); ("cc", 1)].
Proof.
  cbn zeta.
  destruct (apply_voting_hash_groups VNone
              [Verification "agent" "bb" VNone None None;
               Verification "agent" "aa" VNone None None;
               Verification "agent" "aa" VNone None None;
               Verification "agent" "bb" VNone None None;
               Verification "agent" "cc" VNone None None])
    as (r & Hr & _); [discriminate|].
  exists r. split; [exact Hr|].
  vm_compute in Hr. injection Hr as <-. reflexivity.
Defined.

(** ** Results that cannot be serialised *)

Section Raising.

Lemma for_each_raise {A B : Type} (body : A -> res B) (xs : list A) (e0 : exn) :
  (forall x e, In x xs -> body x = Raise e -> e = e0) ->
  Exists (fun x => exists e, body x = Raise e) xs ->
  for_each xs body = Raise e0.
Proof.
  intros Hall Hex. induction Hex as [x xs [e He]|x xs _ IH]; cbn [for_each].
  - rewrite He. cbn [bind]. f_equal. apply (Hall x e); [now left | exact He].
  - destruct (body x) as [y|e] eqn:E; cbn [bind].
    + rewrite IH; [reflexivity|]. intros x' e' Hx'. apply Hall. now right.
    + f_equal. apply (Hall x e); [now left | exact E].
Qed.

Lemma Exists_combine_range {A : Type} (P : A -> Prop) (xs : list A) :
  Exists P xs -> Exists (fun ix => P (snd ix)) (combine (range (len xs)) xs).
Proof.
  intros H. unfold range, len. rewrite Nat2Z.id. generalize 0%nat.
  induction H as [x xs Hx|x xs _ IH]; intros first; cbn [length seq map combine].
  - now left.
  - right. apply IH.
Qed.

End Raising.

(** X20: on results [value] describes (finite trees: no float, no
    container that contains itself), [verify_with_voting] raises
    [TypeError] when one of the results is not serialisable, wherever it
    stands among the others: no vote is taken. *)
Theorem verify_with_voting_unserialisable (self : agent) (subtask : list (key * value))
    (results : list value) :
  Exists (fun r => ~ serializable r) results ->
  verify_with_voting self subtask results = Raise TypeError.
Proof.
  intros Hex. unfold verify_with_voting.
  rewrite (for_each_raise _ _ TypeError); [reflexivity| |].
  - intros [i r] e _. cbn [snd fst]. destruct (hash_result_cases r) as [[_ [h ->]]|[_ ->]].
    + discriminate.
    + cbn [bind]. congruence.
  - eapply List.Exists_impl; [|exact (Exists_combine_range _ _ Hex)].
    intros [i r] Hr. cbn [snd fst] in *.
    destruct (hash_result_cases r) as [[Hs _]|[_ ->]]; [contradiction|].
    exists TypeError. reflexivity.
Qed.

(** One result of two holds a set. *)
Lemma verify_with_voting_unserialisable_witness :
  verify_with_voting (QualityAgent.init "quality-001") []
    [VDict [(KStr "a", VInt 1)]; VDict [(KStr "a", VObject "{1, 2}")]] = Raise TypeError.
Proof.
  apply verify_with_voting_unserialisable.
  right. left. intros H.
  inversion H as [| | | | | |items Hkeys Hitems]; subst.
  inversion Hitems as [|kv l Hkv Hl]; subst. inversion Hkv.
Defined.
